(** * Weather MCP server: dispatch and error-mapping core

    A shallow embedding of [simple-mcp-server.ts]: the JSON-RPC dispatcher
    [handleMCPRequest], the three tool handlers, the upstream client
    [callWeatherAPI], the error taxonomy, the published schemas and the
    HTTP server with [extractAPIKey], followed by the properties the
    specification states about them and by further properties of the
    code.

    Conventions.
    - JavaScript values are the inductive [JSValue]; an object is the list of
      its own enumerable properties.
    - Strings are byte strings holding UTF-8 text.
    - What the script obtains from its runtime and from the zod library
      without defining it (the network, [JSON.parse], the text of
      non-integral numbers, the wording of engine errors, the issues and
      the message of a validation error, [z.toJSONSchema]) is a field of
      the record [Runtime]; every function that depends on it takes the
      runtime as its first argument.
    - An [async] function is a computation in [Async]: it records the
      upstream requests it issued and ends in a value or a thrown error.
    - Console output is not modelled. *)

From Stdlib Require Import ZArith QArith Qcanon String Ascii List Bool Lia DecimalString.
Import ListNotations.
Set Warnings "-register-all".
Open Scope string_scope.
Open Scope Z_scope.

(* ===================================================================== *)
(** * JavaScript values                                                    *)
(* ===================================================================== *)

Inductive JSNumber : Type :=
| NaN
| Infinity (negative : bool)
| Finite (q : Q).

Inductive JSValue : Type :=
| JUndefined
| JNull
| JBool (b : bool)
| JNum (n : JSNumber)
| JStr (s : string)
| JArr (items : list JSValue)
| JObj (props : list (string * JSValue)).

Definition JInt (z : Z) : JSValue := JNum (Finite (inject_Z z)).

(** The one-character string holding a double quote. *)
Definition dquote : string := String (ascii_of_nat 34) EmptyString.

(** The line feed written [\n] in the source. *)
Definition newline : string := String (ascii_of_nat 10) EmptyString.

(** ** Faults raised by the engine and errors thrown by the program *)

Inductive NativeFault : Type :=
| ReadOfNullish (prop : string)   (* property read on undefined or null *)
| NotPrimitive                    (* an object that cannot be turned into a string *)
| NotCallable (what : string)     (* call of a value that is not a function *)
| ThisNullish (member : string)   (* Object.prototype method called without a receiver *)
| BadJSON (text : string)         (* SyntaxError of JSON.parse *)
| FetchRejected (reason : string) (* fetch rejected its promise *).

Inductive ZodIssueCode : Type := invalid_type | not_integer | too_small | too_big.

Record ZodIssue : Type := mkIssue { issue_code : ZodIssueCode; issue_path : list string }.

(** [class WeatherAPIError extends Error]. *)
Record WeatherAPIError : Type := mkWeatherAPIError {
  status : Z;
  statusText : string;
  body : JSValue;
  wmessage : string
}.

Inductive Exn : Type :=
| EWeatherAPI (e : WeatherAPIError)
| EZod (issues : list ZodIssue)
| ENative (f : NativeFault).

(** ** Schemas built with zod

    [.describe] only attaches documentation and is dropped. *)

Inductive NumCheck : Type := CInt | CMin (lo : Z) | CMax (hi : Z).

Inductive ZodType : Type :=
| ZString
| ZNumber (checks : list NumCheck)
| ZOptional (inner : ZodType)
| ZDefault (inner : ZodType) (defaultValue : JSValue).

Definition ZodObject : Type := list (string * ZodType).

(** ** The runtime *)

(** The target of one request: [new URL(...)] with its search parameters. *)
Record URL : Type := mkURL { href : string; searchParams : list (string * string) }.

Record Response : Type := mkResponse {
  rstatus : Z;
  rstatusText : string;
  rtext : string
}.

Inductive FetchOutcome : Type :=
| Rejected (reason : string)
| Responded (r : Response).

Record Runtime : Type := mkRuntime {
  fetch : URL -> FetchOutcome;
  JSON_parse : string -> option JSValue;       (* None: SyntaxError *)
  number_text : Q -> string;                   (* Number::toString off the safe integers *)
  engine_message : NativeFault -> string;      (* message of an engine error *)
  zod_issues : list ZodIssue -> JSValue;       (* [error.issues] of a ZodError *)
  zod_message : list ZodIssue -> string;       (* [error.message] of a ZodError *)
  toJSONSchema : ZodObject -> JSValue          (* [z.toJSONSchema] *)
}.

(** [response.ok]: the status is in the range 200-299. *)
Definition ok (r : Response) : bool := (200 <=? rstatus r) && (rstatus r <=? 299).

(* ===================================================================== *)
(** * Primitive operations of the language                                 *)
(* ===================================================================== *)

(** ToBoolean. *)
Definition truthy (v : JSValue) : bool :=
  match v with
  | JUndefined | JNull => false
  | JBool b => b
  | JNum NaN => false
  | JNum (Infinity _) => true
  | JNum (Finite q) => negb (Qeq_bool q 0)
  | JStr s => negb (s =? EmptyString)%string
  | JArr _ | JObj _ => true
  end.

(** [a || b]. *)
Definition js_or (a b : JSValue) : JSValue := if truthy a then a else b.

Fixpoint own_prop (props : list (string * JSValue)) (k : string) : option JSValue :=
  match props with
  | [] => None
  | (k', v) :: rest => if (k' =? k)%string then Some v else own_prop rest k
  end.

Definition has_own (props : list (string * JSValue)) (k : string) : bool :=
  match own_prop props k with Some _ => true | None => false end.

(** [o[k]] on an object without inherited [k]: undefined when absent. *)
Definition value_of (props : list (string * JSValue)) (k : string) : JSValue :=
  match own_prop props k with Some x => x | None => JUndefined end.

(** CreateDataProperty on an object: overwrite in place or append. *)
Fixpoint obj_set (props : list (string * JSValue)) (k : string) (v : JSValue)
  : list (string * JSValue) :=
  match props with
  | [] => [(k, v)]
  | (k', v') :: rest =>
      if (k' =? k)%string then (k, v) :: rest else (k', v') :: obj_set rest k v
  end.

(** The own properties of [Object.prototype]. *)
Definition Object_prototype : list string :=
  [ "constructor"; "__defineGetter__"; "__defineSetter__"; "hasOwnProperty";
    "__lookupGetter__"; "__lookupSetter__"; "isPrototypeOf";
    "propertyIsEnumerable"; "toString"; "valueOf"; "__proto__";
    "toLocaleString" ].

Definition decimal (z : Z) : string := NilZero.string_of_int (Z.to_int z).

Definition safe_integer (q : Q) : option Z :=
  let r := Qred q in
  if (Zpos (Qden r) =? 1) && (Z.abs (Qnum r) <=? 9007199254740992)
  then Some (Qnum r) else None.

Section Language.

Variable rt : Runtime.

(** Number::toString. Integers up to 2^53 print as their decimal digits. *)
Definition Number_toString (n : JSNumber) : string :=
  match n with
  | NaN => "NaN"
  | Infinity false => "Infinity"
  | Infinity true => "-Infinity"
  | Finite q =>
      match safe_integer q with
      | Some z => decimal z
      | None => number_text rt q
      end
  end.

(** ToString. [None] is the TypeError of ToPrimitive: an object parsed from
    JSON whose own [toString] property hides [Object.prototype.toString]
    has no callable conversion left. Arrays go through [join]. *)
Fixpoint ToString (v : JSValue) : option string :=
  match v with
  | JUndefined => Some "undefined"
  | JNull => Some "null"
  | JBool true => Some "true"
  | JBool false => Some "false"
  | JNum n => Some (Number_toString n)
  | JStr s => Some s
  | JArr items =>
      (fix join (l : list JSValue) : option string :=
         match l with
         | [] => Some EmptyString
         | x :: rest =>
             let element :=
               match x with
               | JUndefined | JNull => Some EmptyString
               | _ => ToString x
               end in
             match element, rest with
             | None, _ => None
             | Some s, [] => Some s
             | Some s, _ :: _ =>
                 match join rest with
                 | Some r => Some (s ++ "," ++ r)%string
                 | None => None
                 end
             end
         end) items
  | JObj props =>
      if has_own props "toString" then None else Some "[object Object]"
  end.

(** Property read [v.k] for the literal property names of the script:
    the fault is the TypeError of reading from undefined or null. None of
    the names the script reads is inherited from a builtin prototype;
    [length] is an own property of arrays and strings. The length of a
    string counts its bytes; the script reads it only on its way to a
    fault ([result.length] followed by [result.forEach] on a string). *)
Definition Get (v : JSValue) (k : string) : NativeFault + JSValue :=
  match v with
  | JUndefined | JNull => inl (ReadOfNullish k)
  | JObj props =>
      match own_prop props k with Some x => inr x | None => inr JUndefined end
  | JArr items =>
      if (k =? "length")%string then inr (JInt (Z.of_nat (List.length items)))
      else inr JUndefined
  | JStr s =>
      if (k =? "length")%string then inr (JInt (Z.of_nat (String.length s)))
      else inr JUndefined
  | _ => inr JUndefined
  end.

(** [JSON.stringify(value, null, 2)]: SerializeJSONProperty with a gap of
    two spaces. [None] is the [undefined] returned for an undefined value. *)
Definition hex_digit (n : nat) : string :=
  String (ascii_of_nat (if Nat.ltb n 10 then 48 + n else 87 + n)) EmptyString.

Definition backslash : string := String (ascii_of_nat 92) EmptyString.

Definition quote_char (c : ascii) : string :=
  let n := nat_of_ascii c in
  if Nat.eqb n 8 then backslash ++ "b"
  else if Nat.eqb n 9 then backslash ++ "t"
  else if Nat.eqb n 10 then backslash ++ "n"
  else if Nat.eqb n 12 then backslash ++ "f"
  else if Nat.eqb n 13 then backslash ++ "r"
  else if Nat.eqb n 34 then backslash ++ dquote
  else if Nat.eqb n 92 then backslash ++ backslash
  else if Nat.ltb n 32
       then backslash ++ "u00" ++ hex_digit (Nat.div n 16) ++ hex_digit (Nat.modulo n 16)
  else String c EmptyString.

Fixpoint quote_chars (s : string) : string :=
  match s with
  | EmptyString => EmptyString
  | String c rest => (quote_char c ++ quote_chars rest)%string
  end.

Definition QuoteJSONString (s : string) : string := dquote ++ quote_chars s ++ dquote.

Fixpoint SerializeJSONProperty (indent : string) (v : JSValue) : option string :=
  let stepback := indent in
  let indent := (indent ++ "  ")%string in
  let separator := ("," ++ newline ++ indent)%string in
  match v with
  | JUndefined => None
  | JNull => Some "null"
  | JBool true => Some "true"
  | JBool false => Some "false"
  | JNum (Finite q) => Some (Number_toString (Finite q))
  | JNum _ => Some "null"
  | JStr s => Some (QuoteJSONString s)
  | JArr items =>
      let partial :=
        (fix elements (l : list JSValue) : list string :=
           match l with
           | [] => []
           | x :: rest =>
               match SerializeJSONProperty indent x with
               | Some s => s
               | None => "null"
               end :: elements rest
           end) items in
      match partial with
      | [] => Some "[]"
      | _ => Some ("[" ++ newline ++ indent ++ String.concat separator partial
                       ++ newline ++ stepback ++ "]")%string
      end
  | JObj props =>
      let partial :=
        (fix members (l : list (string * JSValue)) : list string :=
           match l with
           | [] => []
           | (k, x) :: rest =>
               match SerializeJSONProperty indent x with
               | Some s => (QuoteJSONString k ++ ": " ++ s)%string :: members rest
               | None => members rest
               end
           end) props in
      match partial with
      | [] => Some "{}"
      | _ => Some ("{" ++ newline ++ indent ++ String.concat separator partial
                       ++ newline ++ stepback ++ "}")%string
      end
  end.

Definition JSON_stringify (v : JSValue) : JSValue :=
  match SerializeJSONProperty EmptyString v with
  | Some s => JStr s
  | None => JUndefined
  end.

End Language.

(* ===================================================================== *)
(** * Asynchronous computations                                            *)
(* ===================================================================== *)

(** The upstream requests issued so far, oldest first, and how the
    computation ended. *)
Definition Async (A : Type) : Type := (list URL * (Exn + A))%type.

Definition ret {A : Type} (a : A) : Async A := ([], inr a).

Definition throw {A : Type} (e : Exn) : Async A := ([], inl e).

Definition bind {A B : Type} (m : Async A) (f : A -> Async B) : Async B :=
  match m with
  | (t, inl e) => (t, inl e)
  | (t, inr a) => let (t', r) := f a in ((t ++ t')%list, r)
  end.

Notation "x <- m ;; k" := (bind m (fun x => k))
  (at level 61, m at next level, right associativity).

(** An engine operation that either faults or yields a value. *)
Definition native {A : Type} (r : NativeFault + A) : Async A :=
  match r with
  | inl f => throw (ENative f)
  | inr a => ret a
  end.

Definition trace {A : Type} (m : Async A) : list URL := fst m.

Definition outcome {A : Type} (m : Async A) : Exn + A := snd m.

(* ===================================================================== *)
(** * Input validation schemas                                             *)
(* ===================================================================== *)

Definition getCurrentWeatherSchema : ZodObject :=
  [ ("location", ZString);
    ("language", ZOptional ZString) ].

Definition getWeatherForecastSchema : ZodObject :=
  [ ("location", ZString);
    ("days", ZDefault (ZNumber [CInt; CMin 1; CMax 3]) (JInt 3));
    ("language", ZOptional ZString) ].

Definition searchLocationsSchema : ZodObject :=
  [ ("query", ZString) ].

(** ** What [parse] does with a schema

    The behaviour of the library on the schemas above: [z.string()] accepts
    strings only; [z.number()] accepts finite numbers only and then runs
    each of its checks; [.optional()] lets undefined through; [.default(d)]
    replaces undefined by [d]; [z.object()] accepts objects that are
    neither null nor arrays and validates each field of the schema against
    the property of that name. *)

Definition integral (q : Q) : bool := Zpos (Qden (Qred q)) =? 1.

Definition check_number (path : list string) (q : Q) (c : NumCheck) : list ZodIssue :=
  match c with
  | CInt => if integral q then [] else [mkIssue not_integer path]
  | CMin lo => if Qle_bool (inject_Z lo) q then [] else [mkIssue too_small path]
  | CMax hi => if Qle_bool q (inject_Z hi) then [] else [mkIssue too_big path]
  end.

(** One field: the issues raised, or the value handed on. Every check of a
    number runs, so a value may raise several issues. *)
Fixpoint zod_check (t : ZodType) (path : list string) (v : JSValue)
  : list ZodIssue + JSValue :=
  match t with
  | ZString =>
      match v with
      | JStr _ => inr v
      | _ => inl [mkIssue invalid_type path]
      end
  | ZNumber checks =>
      match v with
      | JNum (Finite q) =>
          match flat_map (check_number path q) checks with
          | [] => inr v
          | issues => inl issues
          end
      | _ => inl [mkIssue invalid_type path]
      end
  | ZOptional inner =>
      match v with
      | JUndefined => inr JUndefined
      | _ => zod_check inner path v
      end
  | ZDefault inner defaultValue =>
      match v with
      | JUndefined => inr defaultValue
      | _ => zod_check inner path v
      end
  end.

(** The fields of an object schema against the properties of the input:
    all issues, and the validated properties in schema order. Keys outside
    the schema are stripped; a key is left out of the output when it is
    absent from the input and validates to undefined. *)
Fixpoint zod_fields (shape : ZodObject) (props : list (string * JSValue))
  : list ZodIssue * list (string * JSValue) :=
  match shape with
  | [] => ([], [])
  | (k, t) :: rest =>
      let (issues, out) := zod_fields rest props in
      match zod_check t [k] (value_of props k) with
      | inl i => ((i ++ issues)%list, out)
      | inr JUndefined =>
          (issues, if has_own props k then (k, JUndefined) :: out else out)
      | inr x => (issues, (k, x) :: out)
      end
  end.

(** [schema.parse(input)]: the validated object, or a thrown ZodError. *)
Definition parse (schema : ZodObject) (input : JSValue) : Async JSValue :=
  match input with
  | JObj props =>
      match zod_fields schema props with
      | ([], out) => ret (JObj out)
      | (issues, _) => throw (EZod issues)
      end
  | _ => throw (EZod [mkIssue invalid_type []])
  end.

(** ** The error [parse] throws

    The script calls [z.toJSONSchema], which zod has from version 4 on. A
    ZodError of that version has the data properties [name], [message] and
    [issues]; its other members are methods, and the script reads none of
    them. It has no [errors]. *)
Definition ZodError (rt : Runtime) (issues : list ZodIssue) : list (string * JSValue) :=
  [ ("name", JStr "ZodError");
    ("message", JStr (zod_message rt issues));
    ("issues", zod_issues rt issues) ].

(** [error.errors] on a ZodError. *)
Definition zod_errors (rt : Runtime) (issues : list ZodIssue) : JSValue :=
  value_of (ZodError rt issues) "errors".

(** [field.isOptional()] and [field._def.defaultValue === undefined]. *)
Definition isOptional (t : ZodType) : bool :=
  match t with
  | ZOptional _ | ZDefault _ _ => true
  | _ => false
  end.

Definition has_no_default (t : ZodType) : bool :=
  match t with
  | ZDefault _ _ => false
  | _ => true
  end.

Fixpoint shape_field (shape : ZodObject) (k : string) : option ZodType :=
  match shape with
  | [] => None
  | (k', t) :: rest => if (k' =? k)%string then Some t else shape_field rest k
  end.

(* ===================================================================== *)
(** * WeatherAPI.com API functions                                         *)
(* ===================================================================== *)

Definition WEATHER_API_BASE : string := "https://api.weatherapi.com/v1".

(** [new WeatherAPIError(status, statusText, body, message?)]: an absent or
    empty message is replaced by the default one. *)
Definition new_WeatherAPIError (status : Z) (statusText : string) (body : JSValue)
    (message : option string) : WeatherAPIError :=
  let fallback := ("WeatherAPI error (" ++ decimal status ++ "): " ++ statusText)%string in
  mkWeatherAPIError status statusText body
    (match message with
     | Some m => if (m =? EmptyString)%string then fallback else m
     | None => fallback
     end).

(** [URLSearchParams.set]: the first pair of that name takes the value and
    the later ones go; without such a pair, one is appended. *)
Fixpoint searchParams_set (q : list (string * string)) (k v : string)
  : list (string * string) :=
  match q with
  | [] => [(k, v)]
  | (k', v') :: rest =>
      if (k' =? k)%string
      then (k, v) :: filter (fun p => negb (fst p =? k)%string) rest
      else (k', v') :: searchParams_set rest k v
  end.

Definition url_set (url : URL) (k v : string) : URL :=
  mkURL (href url) (searchParams_set (searchParams url) k v).

Section Program.

Variable rt : Runtime.

(** A value interpolated into a template literal. *)
Definition text_of (v : JSValue) : Async string :=
  match ToString rt v with
  | Some s => ret s
  | None => throw (ENative NotPrimitive)
  end.

(** [value.toString()]. *)
Definition toString_method (v : JSValue) : Async string :=
  match v with
  | JUndefined | JNull => throw (ENative (ReadOfNullish "toString"))
  | JObj props =>
      if has_own props "toString" then throw (ENative (NotCallable "toString"))
      else ret "[object Object]"
  | _ => text_of v
  end.

(** [await fetch(url.toString())]: one request goes out. *)
Definition do_fetch (url : URL) : Async Response :=
  match fetch rt url with
  | Rejected reason => ([url], inl (ENative (FetchRejected reason)))
  | Responded r => ([url], inr r)
  end.

(** [response.json()]. *)
Definition response_json (r : Response) : Async JSValue :=
  match JSON_parse rt (rtext r) with
  | Some v => ret v
  | None => throw (ENative (BadJSON (rtext r)))
  end.

(** The loop over [Object.entries(params)]. *)
Fixpoint add_params (url : URL) (params : list (string * JSValue)) : Async URL :=
  match params with
  | [] => ret url
  | (key, value) :: rest =>
      match value with
      | JUndefined | JNull => add_params url rest
      | _ =>
          s <- toString_method value ;;
          add_params (url_set url key s) rest
      end
  end.

Definition callWeatherAPI (endpoint apiKey : string) (params : list (string * JSValue))
  : Async JSValue :=
  let url := mkURL (WEATHER_API_BASE ++ endpoint) [] in
  let url := url_set url "key" apiKey in
  url <- add_params url params ;;
  response <- do_fetch url ;;
  if negb (ok response) then
    let errorText := rtext response in
    let errorBody :=
      match JSON_parse rt errorText with
      | Some v => v
      | None => JObj [("message", JStr errorText)]
      end in
    throw (EWeatherAPI
             (new_WeatherAPIError (rstatus response) (rstatusText response) errorBody
                (Some ("WeatherAPI request failed: " ++ errorText)%string)))
  else response_json response.

Definition getCurrentWeatherData (apiKey : string) (params : JSValue) : Async JSValue :=
  q <- native (Get params "location") ;;
  lang <- native (Get params "language") ;;
  callWeatherAPI "/current.json" apiKey [("q", q); ("lang", lang)].

Definition getWeatherForecastData (apiKey : string) (params : JSValue) : Async JSValue :=
  q <- native (Get params "location") ;;
  days <- native (Get params "days") ;;
  lang <- native (Get params "language") ;;
  callWeatherAPI "/forecast.json" apiKey [("q", q); ("days", days); ("lang", lang)].

Definition searchLocationsData (apiKey : string) (params : JSValue) : Async JSValue :=
  q <- native (Get params "query") ;;
  callWeatherAPI "/search.json" apiKey [("q", q)].

(* ===================================================================== *)
(** * JSON schema utilities                                                *)
(* ===================================================================== *)

Fixpoint obj_delete (props : list (string * JSValue)) (k : string)
  : list (string * JSValue) :=
  match props with
  | [] => []
  | (k', v) :: rest =>
      if (k' =? k)%string then obj_delete rest k else (k', v) :: obj_delete rest k
  end.

(** The callback of the filter, [shape[fieldName]] being read first: the
    entry is turned into a property key; a key that names a field of the
    schema gives the answer, a key that names a member of
    [Object.prototype] gives a value without [isOptional], and any other
    key gives undefined. The last two end in a TypeError. *)
Definition truly_required (schema : ZodObject) (fieldName : JSValue)
  : NativeFault + bool :=
  match ToString rt fieldName with
  | None => inl NotPrimitive
  | Some k =>
      match shape_field schema k with
      | Some field => inr (negb (isOptional field) && has_no_default field)
      | None =>
          if existsb (String.eqb k) Object_prototype
          then inl (NotCallable "isOptional")
          else inl (ReadOfNullish "isOptional")
      end
  end.

(** [required.filter(callback)]: the entries are visited in order, and the
    first TypeError ends the loop. *)
Fixpoint filter_required (schema : ZodObject) (names : list JSValue)
  : NativeFault + list JSValue :=
  match names with
  | [] => inr []
  | fieldName :: rest =>
      match truly_required schema fieldName with
      | inl f => inl f
      | inr keep =>
          match filter_required schema rest with
          | inl f => inl f
          | inr kept => inr (if keep then fieldName :: kept else kept)
          end
      end
  end.

(** The function ends in the schema to publish or in a TypeError. Only an
    object has an own [required] that is an array; reading [required] from
    undefined or null is the TypeError of [Get]. *)
Definition zodToMCPSchema (schema : ZodObject) : NativeFault + JSValue :=
  let jsonSchema := toJSONSchema rt schema in
  match jsonSchema with
  | JUndefined | JNull => inl (ReadOfNullish "required")
  | JObj props =>
      match own_prop props "required" with
      | Some (JArr names) =>
          match filter_required schema names with
          | inl f => inl f
          | inr [] => inr (JObj (obj_delete props "required"))
          | inr kept => inr (JObj (obj_set props "required" (JArr kept)))
          end
      | _ => inr jsonSchema
      end
  | _ => inr jsonSchema
  end.

(* ===================================================================== *)
(** * MCP tool implementations                                             *)
(* ===================================================================== *)

(** A chain of property reads [v.a.b.c]. *)
Fixpoint read (v : JSValue) (path : list string) : Async JSValue :=
  match path with
  | [] => ret v
  | k :: rest => x <- native (Get v k) ;; read x rest
  end.

(** [${v.a.b}] inside a template literal. *)
Definition interpolate (v : JSValue) (path : list string) : Async string :=
  x <- read v path ;; text_of x.

Definition text_entry (text : JSValue) : JSValue :=
  JObj [("type", JStr "text"); ("text", text)].

Definition tool_result (summary : string) (result : JSValue) : JSValue :=
  JObj [("content", JArr [text_entry (JStr summary);
                          text_entry (JSON_stringify rt result)])].

(** [items.forEach(callback)] where the callback extends a summary. *)
Fixpoint each (items : list JSValue) (callback : JSValue -> Async string)
    (summary : string) : Async string :=
  match items with
  | [] => ret summary
  | x :: rest =>
      line <- callback x ;;
      each rest callback (summary ++ line)%string
  end.

Definition forEach (v : JSValue) (callback : JSValue -> Async string)
    (summary : string) : Async string :=
  match v with
  | JArr items => each items callback summary
  | JUndefined | JNull => throw (ENative (ReadOfNullish "forEach"))
  | _ => throw (ENative (NotCallable "forEach"))
  end.

Definition getCurrentWeather (apiKey : string) (input : JSValue) : Async JSValue :=
  validatedInput <- parse getCurrentWeatherSchema input ;;
  result <- getCurrentWeatherData apiKey validatedInput ;;
  location <- native (Get result "location") ;;
  current <- native (Get result "current") ;;
  name <- interpolate location ["name"] ;;
  country <- interpolate location ["country"] ;;
  condition <- interpolate current ["condition"; "text"] ;;
  temp_c <- interpolate current ["temp_c"] ;;
  temp_f <- interpolate current ["temp_f"] ;;
  feelslike_c <- interpolate current ["feelslike_c"] ;;
  humidity <- interpolate current ["humidity"] ;;
  wind_kph <- interpolate current ["wind_kph"] ;;
  wind_dir <- interpolate current ["wind_dir"] ;;
  ret (tool_result
         ("Current weather in " ++ name ++ ", " ++ country ++ ": " ++ condition
          ++ ", " ++ temp_c ++ "°C (" ++ temp_f ++ "°F). Feels like " ++ feelslike_c
          ++ "°C. Humidity: " ++ humidity ++ "%. Wind: " ++ wind_kph ++ " km/h "
          ++ wind_dir ++ ".")%string
         result).

(** The own enumerable properties an object spread copies from a value:
    those of an object, the elements of an array and the characters of a
    string under their indices (one per byte here; no schema has an index
    for a key, so validation never sees them). *)
Fixpoint indexed (i : nat) (items : list JSValue) : list (string * JSValue) :=
  match items with
  | [] => []
  | x :: rest => (NilZero.string_of_uint (Nat.to_uint i), x) :: indexed (S i) rest
  end.

Fixpoint characters (s : string) : list JSValue :=
  match s with
  | EmptyString => []
  | String c rest => JStr (String c EmptyString) :: characters rest
  end.

Definition own_enumerable (v : JSValue) : list (string * JSValue) :=
  match v with
  | JObj props => props
  | JArr items => indexed 0 items
  | JStr s => indexed 0 (characters s)
  | _ => []
  end.

(** [{ ...target, ...source }]: CopyDataProperties reads each own key of
    the source and defines it on the target. *)
Definition spread (target : list (string * JSValue)) (source : JSValue)
  : list (string * JSValue) :=
  let from := own_enumerable source in
  fold_left (fun acc k => obj_set acc k (value_of from k)) (map fst from) target.

Definition forecast_line (day : JSValue) : Async string :=
  date <- interpolate day ["date"] ;;
  condition <- interpolate day ["day"; "condition"; "text"] ;;
  maxtemp_c <- interpolate day ["day"; "maxtemp_c"] ;;
  mintemp_c <- interpolate day ["day"; "mintemp_c"] ;;
  ret (date ++ ": " ++ condition ++ ", High: " ++ maxtemp_c ++ "°C, Low: "
       ++ mintemp_c ++ "°C" ++ newline)%string.

Definition inputWithDefaults (input : JSValue) : JSValue :=
  JObj (spread [("days", JInt 3)] input).

Definition getWeatherForecast (apiKey : string) (input : JSValue) : Async JSValue :=
  validatedInput <- parse getWeatherForecastSchema (inputWithDefaults input) ;;
  result <- getWeatherForecastData apiKey validatedInput ;;
  location <- native (Get result "location") ;;
  forecast <- read result ["forecast"; "forecastday"] ;;
  days <- interpolate validatedInput ["days"] ;;
  name <- interpolate location ["name"] ;;
  country <- interpolate location ["country"] ;;
  summary <- forEach forecast forecast_line
               (days ++ "-day forecast for " ++ name ++ ", " ++ country ++ ":"
                ++ newline)%string ;;
  ret (tool_result summary result).

Definition location_line (location : JSValue) : Async string :=
  name <- interpolate location ["name"] ;;
  region <- interpolate location ["region"] ;;
  country <- interpolate location ["country"] ;;
  lat <- interpolate location ["lat"] ;;
  lon <- interpolate location ["lon"] ;;
  ret (name ++ ", " ++ region ++ ", " ++ country ++ " (" ++ lat ++ ", " ++ lon
       ++ ")" ++ newline)%string.

Definition searchLocations (apiKey : string) (input : JSValue) : Async JSValue :=
  validatedInput <- parse searchLocationsSchema input ;;
  result <- searchLocationsData apiKey validatedInput ;;
  count <- interpolate result ["length"] ;;
  query <- interpolate validatedInput ["query"] ;;
  summary <- forEach result location_line
               ("Found " ++ count ++ " locations matching " ++ dquote ++ query
                ++ dquote ++ ":" ++ newline)%string ;;
  ret (tool_result summary result).

End Program.

(* ===================================================================== *)
(** * MCP protocol implementation                                          *)
(* ===================================================================== *)

(** [interface MCPRequest]. The declared type of [id] is
    [number | string | undefined]; the field holds any value here, which
    covers it. An absent [id] or [params] is [JUndefined]. *)
Record MCPRequest : Type := mkRequest {
  req_jsonrpc : string;
  req_id : JSValue;
  req_method : string;
  req_params : JSValue
}.

Record RpcError : Type := mkError {
  err_code : Z;
  err_message : string;
  err_data : option JSValue
}.

(** [interface MCPResponse]: [result] and [error] are optional fields. *)
Record MCPResponse : Type := mkResponse' {
  resp_jsonrpc : string;
  resp_id : JSValue;
  resp_result : option JSValue;
  resp_error : option RpcError
}.

Module JSON_RPC_ERRORS.
Definition PARSE_ERROR : Z := -32700.
Definition INVALID_REQUEST : Z := -32600.
Definition METHOD_NOT_FOUND : Z := -32601.
Definition INVALID_PARAMS : Z := -32602.
Definition INTERNAL_ERROR : Z := -32603.
Definition UNAUTHORIZED : Z := -32001.
Definition FORBIDDEN : Z := -32002.
Definition NOT_FOUND : Z := -32003.
Definition RATE_LIMITED : Z := -32004.
End JSON_RPC_ERRORS.

Definition createErrorResponse (id : JSValue) (code : Z) (message : string)
    (data : JSValue) : MCPResponse :=
  mkResponse' "2.0"
    (js_or id (JStr "unknown"))
    None
    (Some (mkError code message (if truthy data then Some data else None))).

(** A response of the form [{ jsonrpc: '2.0', id: request.id, result }]. *)
Definition result_response (id : JSValue) (result : JSValue) : MCPResponse :=
  mkResponse' "2.0" id (Some result) None.

(** [a?.k]. *)
Definition optional_get (v : JSValue) (k : string) : JSValue :=
  match Get v k with
  | inr x => x
  | inl _ => JUndefined
  end.

(** The [{ code, message, data }] the error mapping returns. *)
Record Mapped : Type := mkMapped {
  code : Z;
  message : string;
  data : JSValue
}.

Definition status_detail (e : WeatherAPIError) (detail : JSValue) : JSValue :=
  JObj [("status", JInt (status e)); ("detail", detail)].

Definition mapWeatherAPIErrorToJSONRPC (error : WeatherAPIError) : Mapped :=
  if status error =? 400 then
    mkMapped JSON_RPC_ERRORS.INVALID_PARAMS "Invalid request parameters"
      (status_detail error
         (js_or (optional_get (optional_get (body error) "error") "message")
                (JStr (wmessage error))))
  else if status error =? 401 then
    mkMapped JSON_RPC_ERRORS.UNAUTHORIZED "Invalid WeatherAPI.com API key"
      (status_detail error (JStr "Check your API key and make sure it's active"))
  else if status error =? 403 then
    mkMapped JSON_RPC_ERRORS.FORBIDDEN "WeatherAPI.com access denied"
      (status_detail error
         (JStr "Your API key may have exceeded its quota or lacks required permissions"))
  else if status error =? 404 then
    mkMapped JSON_RPC_ERRORS.NOT_FOUND "Location not found"
      (status_detail error (JStr "The specified location could not be found"))
  else if status error =? 429 then
    mkMapped JSON_RPC_ERRORS.RATE_LIMITED "Rate limit exceeded"
      (status_detail error
         (JStr "Too many requests to WeatherAPI.com. Please wait before trying again."))
  else
    mkMapped JSON_RPC_ERRORS.INTERNAL_ERROR "WeatherAPI.com service error"
      (status_detail error (JStr (wmessage error))).

Definition serverInfo : JSValue :=
  JObj [("name", JStr "weatherapi-mcp"); ("version", JStr "1.0.0")].

(** What [allTools[name]] can yield: a registered handler, a member
    inherited from [Object.prototype], or undefined. *)
Inductive Slot : Type :=
| Handler (tool : Runtime -> string -> JSValue -> Async JSValue)
| Builtin (member : string)
| Absent.

Definition allTools : list (string * (Runtime -> string -> JSValue -> Async JSValue)) :=
  [ ("getCurrentWeather", getCurrentWeather);
    ("getWeatherForecast", getWeatherForecast);
    ("searchLocations", searchLocations) ].

Definition Object_keys {A : Type} (o : list (string * A)) : JSValue :=
  JArr (map (fun p => JStr (fst p)) o).

Fixpoint own_handler {A : Type} (o : list (string * A)) (k : string) : option A :=
  match o with
  | [] => None
  | (k', h) :: rest => if (k' =? k)%string then Some h else own_handler rest k
  end.

(** [allTools[key]]: an own property first, then the prototype. *)
Definition allTools_get (key : string) : Slot :=
  match own_handler allTools key with
  | Some h => Handler h
  | None =>
      if existsb (String.eqb key) Object_prototype then Builtin key else Absent
  end.

(** A member of [Object.prototype] called as [tool(apiKey, args)], the
    receiver being undefined: [Object(apiKey)] wraps the key in a String
    object (its JSON form is the string), [toString] names the receiver,
    [isPrototypeOf] answers false for a primitive argument, [__proto__] is
    an object and not callable, and the other methods fail on the missing
    receiver. *)
Definition call_builtin (member apiKey : string) (args : JSValue) : Async JSValue :=
  if (member =? "constructor")%string then ret (JStr apiKey)
  else if (member =? "toString")%string then ret (JStr "[object Undefined]")
  else if (member =? "isPrototypeOf")%string then ret (JBool false)
  else if (member =? "__proto__")%string then throw (ENative (NotCallable "tool"))
  else throw (ENative (ThisNullish member)).

(** [try { body } catch (error) { handler }]. *)
Definition try_catch {A : Type} (body : Async A) (handler : Exn -> Async A) : Async A :=
  match body with
  | (t, inl error) => let (t', r) := handler error in ((t ++ t')%list, r)
  | (t, inr a) => (t, inr a)
  end.

Section Dispatcher.

Variable rt : Runtime.

(** The constant [tools] is built once, while the module loads. A
    [zodToMCPSchema] that throws there ends the load, and no request is
    ever dispatched; the dispatcher below is the one of a module that
    loaded. [inputSchema] is the schema bound at load, and stands for
    undefined on a runtime whose conversion throws. *)
Definition inputSchema (schema : ZodObject) : JSValue :=
  match zodToMCPSchema rt schema with
  | inr jsonSchema => jsonSchema
  | inl _ => JUndefined
  end.

Definition tool_descriptor (name title description : string) (schema : ZodObject)
  : JSValue :=
  JObj [ ("name", JStr name); ("title", JStr title);
         ("description", JStr description);
         ("inputSchema", inputSchema schema) ].

Definition tools : JSValue :=
  JArr
    [ tool_descriptor "getCurrentWeather" "Get current weather conditions"
        "Get real-time weather for any location - like checking if it's raining right now in Paris"
        getCurrentWeatherSchema;
      tool_descriptor "getWeatherForecast" "Get weather forecast"
        "Get weather predictions for the next 1-3 days - perfect for planning weekend trips"
        getWeatherForecastSchema;
      tool_descriptor "searchLocations" "Search for locations"
        ("Find the right location name - useful when you're not sure how to spell "
         ++ dquote ++ "Albuquerque" ++ dquote)%string
        searchLocationsSchema ].

(** The load of the module as far as [tools] goes: the three conversions
    in the order of the array literal, the first TypeError ending it. *)
Definition load_tools : NativeFault + JSValue :=
  match zodToMCPSchema rt getCurrentWeatherSchema with
  | inl f => inl f
  | inr _ =>
      match zodToMCPSchema rt getWeatherForecastSchema with
      | inl f => inl f
      | inr _ =>
          match zodToMCPSchema rt searchLocationsSchema with
          | inl f => inl f
          | inr _ => inr tools
          end
      end
  end.

(** [error.message]. *)
Definition error_message (error : Exn) : string :=
  match error with
  | EWeatherAPI e => wmessage e
  | EZod issues => zod_message rt issues
  | ENative (FetchRejected reason) => reason
  | ENative f => engine_message rt f
  end.

(** [tool(apiKey, args)]. *)
Definition invoke (tool : Slot) (apiKey : string) (args : JSValue) : Async JSValue :=
  match tool with
  | Handler h => h rt apiKey args
  | Builtin member => call_builtin member apiKey args
  | Absent => throw (ENative (NotCallable "tool"))
  end.

(** The [catch] of the tool call. *)
Definition tool_failure (id : JSValue) (error : Exn) : MCPResponse :=
  match error with
  | EWeatherAPI e =>
      let m := mapWeatherAPIErrorToJSONRPC e in
      createErrorResponse id (code m) (message m) (data m)
  | EZod issues =>
      createErrorResponse id JSON_RPC_ERRORS.INVALID_PARAMS "Invalid input parameters"
        (JObj [ ("validationErrors", zod_errors rt issues);
                ("hint", JStr "Check the tool's input schema for required parameters") ])
  | ENative _ =>
      createErrorResponse id JSON_RPC_ERRORS.INTERNAL_ERROR "Internal server error"
        (JObj [("detail", JStr (error_message error))])
  end.

(** The three responses of the [tools/call] case that do not depend on
    the outcome of the tool. *)
Definition tool_not_found (id : JSValue) (name : string) : MCPResponse :=
  createErrorResponse id JSON_RPC_ERRORS.METHOD_NOT_FOUND
    ("Tool " ++ dquote ++ name ++ dquote ++ " not found")%string
    (JObj [("availableTools", Object_keys allTools)]).

Definition api_key_required (id : JSValue) : MCPResponse :=
  createErrorResponse id JSON_RPC_ERRORS.UNAUTHORIZED
    "WeatherAPI.com API key required"
    (JObj [ ("hint",
             JStr ("Include your API key in the Authorization header: "
                   ++ dquote ++ "Bearer your-api-key" ++ dquote)%string);
            ("signup",
             JStr "Get a free API key at https://www.weatherapi.com/signup.aspx") ]).

Definition method_not_found (id : JSValue) (method : string) : MCPResponse :=
  createErrorResponse id JSON_RPC_ERRORS.METHOD_NOT_FOUND
    ("Method " ++ dquote ++ method ++ dquote ++ " not found")%string
    (JObj [("availableMethods",
            JArr [JStr "initialize"; JStr "tools/list"; JStr "tools/call"])]).

(** [try { result = await tool(apiKey, args) ... } catch (error) { ... }]. *)
Definition call_tool (id : JSValue) (tool : Slot) (apiKey : string) (args : JSValue)
  : Async MCPResponse :=
  try_catch
    (result <- invoke tool apiKey args ;;
     ret (result_response id result))
    (fun error => ret (tool_failure id error)).

(** The [tools/call] case once the property key of [name] is known. *)
Definition dispatch_tool (id : JSValue) (key : string) (apiKey : option string)
    (args : JSValue) : Async MCPResponse :=
  match allTools_get key with
  | Absent => ret (tool_not_found id key)
  | tool =>
      match apiKey with
      | None | Some EmptyString => ret (api_key_required id)
      | Some apiKey => call_tool id tool apiKey args
      end
  end.

(** The [tools/call] case. *)
Definition tools_call (request : MCPRequest) (apiKey : option string)
  : Async MCPResponse :=
  let params := js_or (req_params request) (JObj []) in
  name <- native (Get params "name") ;;
  args <- native (Get params "arguments") ;;
  key <- text_of rt name ;;
  dispatch_tool (req_id request) key apiKey args.

Definition handleMCPRequest (request : MCPRequest) (apiKey : option string)
  : Async MCPResponse :=
  try_catch
    (if (req_method request =? "initialize")%string then
       ret (result_response (req_id request)
              (JObj [ ("protocolVersion", JStr "2024-11-05");
                      ("capabilities",
                       JObj [("tools", JObj [("listChanged", JBool true)])]);
                      ("serverInfo", serverInfo) ]))
     else if (req_method request =? "tools/list")%string then
       ret (result_response (req_id request) (JObj [("tools", tools)]))
     else if (req_method request =? "tools/call")%string then
       tools_call request apiKey
     else
       ret (method_not_found (req_id request) (req_method request)))
    (fun error =>
       ret (createErrorResponse (req_id request) JSON_RPC_ERRORS.INTERNAL_ERROR
              "Request processing failed"
              (JObj [("detail", JStr (error_message error))]))).

End Dispatcher.

(* ===================================================================== *)
(** * HTTP server                                                          *)
(* ===================================================================== *)

(** ** Strings of the transport *)

(** [s.slice(n)]. *)
Fixpoint slice (n : nat) (s : string) : string :=
  match n, s with
  | O, _ => s
  | S n', String _ rest => slice n' rest
  | S _, EmptyString => EmptyString
  end.

(** The white space and line terminators [trim] removes, as UTF-8:
    U+0009 to U+000D and U+0020; U+00A0; U+1680, U+2000 to U+200A, U+2028,
    U+2029, U+202F, U+205F, U+3000 and U+FEFF. *)
Definition ws1 (a : ascii) : bool :=
  let n := nat_of_ascii a in
  (Nat.leb 9 n && Nat.leb n 13) || Nat.eqb n 32.

Definition ws2 (a b : ascii) : bool :=
  Nat.eqb (nat_of_ascii a) 194 && Nat.eqb (nat_of_ascii b) 160.

Definition ws3 (a b c : ascii) : bool :=
  let x := nat_of_ascii a in
  let y := nat_of_ascii b in
  let z := nat_of_ascii c in
  (Nat.eqb x 225 && Nat.eqb y 154 && Nat.eqb z 128)
  || (Nat.eqb x 226 && Nat.eqb y 128
      && ((Nat.leb 128 z && Nat.leb z 138) || Nat.eqb z 168 || Nat.eqb z 169
          || Nat.eqb z 175))
  || (Nat.eqb x 226 && Nat.eqb y 129 && Nat.eqb z 159)
  || (Nat.eqb x 227 && Nat.eqb y 128 && Nat.eqb z 128)
  || (Nat.eqb x 239 && Nat.eqb y 187 && Nat.eqb z 191).

Fixpoint trimStart (s : list ascii) : list ascii :=
  match s with
  | [] => []
  | a :: rest =>
      if ws1 a then trimStart rest
      else
        match rest with
        | [] => s
        | b :: rest2 =>
            if ws2 a b then trimStart rest2
            else
              match rest2 with
              | [] => s
              | c :: rest3 => if ws3 a b c then trimStart rest3 else s
              end
        end
  end.

(** [trimStart] on the reversed text: the bytes of a character come last
    byte first. *)
Fixpoint trimStart_reversed (s : list ascii) : list ascii :=
  match s with
  | [] => []
  | c :: rest =>
      if ws1 c then trimStart_reversed rest
      else
        match rest with
        | [] => s
        | b :: rest2 =>
            if ws2 b c then trimStart_reversed rest2
            else
              match rest2 with
              | [] => s
              | a :: rest3 => if ws3 a b c then trimStart_reversed rest3 else s
              end
        end
  end.

Definition trimEnd (s : list ascii) : list ascii :=
  rev (trimStart_reversed (rev s)).

(** [s.trim()]. *)
Definition trim (s : string) : string :=
  string_of_list_ascii (trimEnd (trimStart (list_ascii_of_string s))).

(** ** Requests and responses of the transport *)

(** What the server reads of a [Request]: its method, the path of its
    URL, the [Authorization] header ([None] when [headers.get] yields
    null) and its body. *)
Record HttpRequest : Type := mkHttpRequest {
  http_method : string;
  pathname : string;
  authorization : option string;
  http_body : string
}.

(** A [Response]: status (200 unless given), the headers given to the
    constructor, and the body ([None] for a null body). *)
Record HttpResponse : Type := mkHttpResponse {
  http_status : Z;
  http_headers : list (string * string);
  http_payload : option string
}.

Definition extractAPIKey (request : HttpRequest) : option string :=
  match authorization request with
  | None => None
  | Some authHeader =>
      if (authHeader =? EmptyString)%string then None
      else if negb (prefix "Bearer " authHeader) then None
      else
        let apiKey := slice 7 authHeader in
        if (apiKey =? EmptyString)%string || Nat.eqb (String.length (trim apiKey)) 0
        then None
        else Some (trim apiKey)
  end.

Section Server.

Variable rt : Runtime.

(** [JSON.stringify(value)]: SerializeJSONProperty with an empty gap. *)
Fixpoint SerializeJSONCompact (v : JSValue) : option string :=
  match v with
  | JUndefined => None
  | JNull => Some "null"
  | JBool true => Some "true"
  | JBool false => Some "false"
  | JNum (Finite q) => Some (Number_toString rt (Finite q))
  | JNum _ => Some "null"
  | JStr s => Some (QuoteJSONString s)
  | JArr items =>
      let partial :=
        (fix elements (l : list JSValue) : list string :=
           match l with
           | [] => []
           | x :: rest =>
               match SerializeJSONCompact x with
               | Some s => s
               | None => "null"
               end :: elements rest
           end) items in
      Some ("[" ++ String.concat "," partial ++ "]")%string
  | JObj props =>
      let partial :=
        (fix members (l : list (string * JSValue)) : list string :=
           match l with
           | [] => []
           | (k, x) :: rest =>
               match SerializeJSONCompact x with
               | Some s => (QuoteJSONString k ++ ":" ++ s)%string :: members rest
               | None => members rest
               end
           end) props in
      Some ("{" ++ String.concat "," partial ++ "}")%string
  end.

(** The object a response is, property by property. *)
Definition error_value (e : RpcError) : JSValue :=
  JObj ([("code", JInt (err_code e)); ("message", JStr (err_message e))]
        ++ match err_data e with Some d => [("data", d)] | None => [] end).

Definition response_value (r : MCPResponse) : JSValue :=
  JObj ([("jsonrpc", JStr (resp_jsonrpc r)); ("id", resp_id r)]
        ++ match resp_result r with Some v => [("result", v)] | None => [] end
        ++ match resp_error r with Some e => [("error", error_value e)] | None => [] end).

(** [JSON.stringify(response)]. *)
Definition wire (r : MCPResponse) : option string :=
  SerializeJSONCompact (response_value r).

Definition cors : string * string := ("Access-Control-Allow-Origin", "*").

(** [new Response(JSON.stringify(response), { status, headers })]. *)
Definition json_response (status : Z) (r : MCPResponse) : HttpResponse :=
  mkHttpResponse status [("Content-Type", "application/json"); cors] (wire r).

(** [req.json()]. *)
Definition req_json (req : HttpRequest) : Async JSValue :=
  match JSON_parse rt (http_body req) with
  | Some v => ret v
  | None => throw (ENative (BadJSON (http_body req)))
  end.

(** [v === s] for a string [s]. *)
Definition is_string (v : JSValue) (s : string) : bool :=
  match v with
  | JStr x => (x =? s)%string
  | _ => false
  end.

(** [handleMCPRequest(body, apiKey)] on a parsed body. The body is cast to
    [MCPRequest] without a check: when [method] is a string the call is
    the one of the dispatcher; any other value matches no [case] label,
    so the [default] branch interpolates it into its message, under the
    outer [catch]. *)
Definition handle_body (body : JSValue) (apiKey : option string) : Async MCPResponse :=
  let id := optional_get body "id" in
  match optional_get body "method" with
  | JStr method => handleMCPRequest rt (mkRequest "2.0" id method (optional_get body "params")) apiKey
  | other =>
      try_catch
        (name <- text_of rt other ;;
         ret (method_not_found id name))
        (fun error =>
           ret (createErrorResponse id JSON_RPC_ERRORS.INTERNAL_ERROR
                  "Request processing failed"
                  (JObj [("detail", JStr (error_message rt error))])))
  end.

(** The [try] block of the [fetch] handler of [serve]. *)
Definition mcp_endpoint (req : HttpRequest) : Async HttpResponse :=
  try_catch
    (let apiKey := extractAPIKey req in
     body <- req_json req ;;
     jsonrpc <- native (Get body "jsonrpc") ;;
     if negb (truthy jsonrpc) || negb (is_string jsonrpc "2.0")
        || negb (truthy (optional_get body "method"))
     then
       ret (json_response 400
              (createErrorResponse (js_or (optional_get body "id") JNull)
                 JSON_RPC_ERRORS.INVALID_REQUEST "Invalid JSON-RPC request"
                 (JObj [("hint",
                         JStr ("Request must include jsonrpc: " ++ dquote ++ "2.0"
                               ++ dquote ++ " and method fields")%string)])))
     else
       response <- handle_body body apiKey ;;
       ret (json_response 200 response))
    (fun error =>
       ret (json_response 400
              (createErrorResponse JNull JSON_RPC_ERRORS.PARSE_ERROR
                 "Invalid JSON in request body"
                 (JObj [("hint", JStr "Make sure your request body is valid JSON")])))).

(** The [fetch] handler given to [serve]. *)
Definition serve_fetch (req : HttpRequest) : Async HttpResponse :=
  if (http_method req =? "OPTIONS")%string then
    ret (mkHttpResponse 200
           [ cors;
             ("Access-Control-Allow-Methods", "POST, OPTIONS");
             ("Access-Control-Allow-Headers", "*") ]
           None)
  else if (pathname req =? "/healthz")%string then
    ret (mkHttpResponse 200 [("Content-Type", "text/plain"); cors] (Some "OK"))
  else if negb (http_method req =? "POST")%string || negb (pathname req =? "/mcp")%string then
    ret (mkHttpResponse 404 [cors] (Some "Not Found"))
  else mcp_endpoint req.

End Server.

(** ** Payloads of the upstream, for the properties of the summaries *)

Definition forecast_day (date condition : string) (maxtemp_c mintemp_c : JSNumber)
  : JSValue :=
  JObj [ ("date", JStr date);
         ("day", JObj [ ("maxtemp_c", JNum maxtemp_c); ("mintemp_c", JNum mintemp_c);
                        ("condition", JObj [("text", JStr condition)]) ]) ].

Definition forecast_payload (name country : string) (days : list JSValue) : JSValue :=
  JObj [ ("location", JObj [("name", JStr name); ("country", JStr country)]);
         ("forecast", JObj [("forecastday", JArr days)]) ].

Definition found_location (name region country : string) (lat lon : JSNumber) : JSValue :=
  JObj [ ("name", JStr name); ("region", JStr region); ("country", JStr country);
         ("lat", JNum lat); ("lon", JNum lon) ].

(* ===================================================================== *)
(** * Vocabulary of the properties                                         *)
(* ===================================================================== *)

(** What a [tools/call] request names and passes, as the dispatcher
    destructures it. *)
Definition call_params (request : MCPRequest) : JSValue :=
  js_or (req_params request) (JObj []).

Definition call_name (request : MCPRequest) : JSValue :=
  optional_get (call_params request) "name".

Definition call_arguments (request : MCPRequest) : JSValue :=
  optional_get (call_params request) "arguments".

(** The computation ends in a value, and the value satisfies [P]. *)
Definition returns {A : Type} (m : Async A) (P : A -> Prop) : Prop :=
  match outcome m with
  | inr a => P a
  | inl _ => False
  end.

Definition error_code (r : MCPResponse) : option Z :=
  option_map err_code (resp_error r).

(** [r.error.data[k]]. *)
Definition error_data (r : MCPResponse) (k : string) : option JSValue :=
  match resp_error r with
  | Some e =>
      match err_data e with
      | Some (JObj props) => own_prop props k
      | _ => None
      end
  | None => None
  end.

Definition present {A : Type} (o : option A) : bool :=
  match o with Some _ => true | None => false end.

(** The response carries [result] or [error], and not both. *)
Definition one_of_result_error (r : MCPResponse) : bool :=
  xorb (present (resp_result r)) (present (resp_error r)).

(** The names of the registry. *)
Definition registered (key : string) : bool :=
  existsb (String.eqb key) ["getCurrentWeather"; "getWeatherForecast"; "searchLocations"].

(** A value the engine cannot turn into a string, and so not into a
    property key: an object that has its own [toString], or an array that
    holds such a value. *)
Fixpoint unconvertible (v : JSValue) : bool :=
  match v with
  | JObj props => has_own props "toString"
  | JArr items => existsb unconvertible items
  | _ => false
  end.

(** An entry of a [required] list names a field of the schema, and names
    one that is neither optional nor defaulted. *)
Definition names_field (rt : Runtime) (schema : ZodObject) (entry : JSValue) : bool :=
  match ToString rt entry with
  | Some k => present (shape_field schema k)
  | None => false
  end.

Definition mandatory (rt : Runtime) (schema : ZodObject) (entry : JSValue) : bool :=
  match ToString rt entry with
  | Some k =>
      match shape_field schema k with
      | Some ZString | Some (ZNumber _) => true
      | _ => false
      end
  | None => false
  end.

(** The value a registered tool hands to [parse], and the parse itself. *)
Definition validation (key : string) (args : JSValue) : Async JSValue :=
  if (key =? "getCurrentWeather")%string then parse getCurrentWeatherSchema args
  else if (key =? "getWeatherForecast")%string
       then parse getWeatherForecastSchema (inputWithDefaults args)
  else parse searchLocationsSchema args.

(** The schema of the tool rejects the arguments. *)
Definition rejected (key : string) (args : JSValue) : bool :=
  match outcome (validation key args) with
  | inl _ => true
  | inr _ => false
  end.

(** The response to arguments that fail validation. *)
Definition invalid_input (rt : Runtime) (id : JSValue) (issues : list ZodIssue)
  : MCPResponse :=
  createErrorResponse id (-32602) "Invalid input parameters"
    (JObj [ ("validationErrors", zod_errors rt issues);
            ("hint", JStr "Check the tool's input schema for required parameters") ]).


(** A response the dispatcher builds for a request carrying [id]. *)
Inductive built_for (id : JSValue) : MCPResponse -> Prop :=
| built_result (result : JSValue) :
    result <> JUndefined -> built_for id (result_response id result)
| built_error (code : Z) (message : string) (data : JSValue) :
    built_for id (createErrorResponse id code message data).

Create HintDb mcp.

#[local] Hint Constructors built_for : mcp.

(** ** Sample runtimes and requests *)

Definition issue_json (i : ZodIssue) : JSValue :=
  JObj [("path", JArr (map JStr (issue_path i)))].

(** A runtime without network: every request is rejected. *)
Definition offline : Runtime :=
  mkRuntime (fun _ => Rejected "offline") (fun _ => None) (fun _ => "?")
            (fun _ => "fault") (fun issues => JArr (map issue_json issues))
            (fun _ => "invalid") (fun _ => JObj []).

(** The upstream payload of the London scenario. *)
Definition london_payload : JSValue :=
  JObj [ ("location", JObj [("name", JStr "London"); ("country", JStr "UK")]);
         ("current",
          JObj [ ("condition", JObj [("text", JStr "Sunny")]);
                 ("temp_c", JInt 20); ("temp_f", JInt 68); ("feelslike_c", JInt 19);
                 ("humidity", JInt 50); ("wind_kph", JInt 10);
                 ("wind_dir", JStr "N") ]) ].

(** A text between double quotes. *)
Definition quoted (s : string) : string := (dquote ++ s ++ dquote)%string.

(** The payload as JSON text, indented by two spaces, line by line: the
    body of the upstream's answer in the scenario, and the text expected
    in the second entry of the result. *)
Definition london_body : string :=
  String.concat newline
    [ "{";
      "  " ++ quoted "location" ++ ": {";
      "    " ++ quoted "name" ++ ": " ++ quoted "London" ++ ",";
      "    " ++ quoted "country" ++ ": " ++ quoted "UK";
      "  },";
      "  " ++ quoted "current" ++ ": {";
      "    " ++ quoted "condition" ++ ": {";
      "      " ++ quoted "text" ++ ": " ++ quoted "Sunny";
      "    },";
      "    " ++ quoted "temp_c" ++ ": 20,";
      "    " ++ quoted "temp_f" ++ ": 68,";
      "    " ++ quoted "feelslike_c" ++ ": 19,";
      "    " ++ quoted "humidity" ++ ": 50,";
      "    " ++ quoted "wind_kph" ++ ": 10,";
      "    " ++ quoted "wind_dir" ++ ": " ++ quoted "N";
      "  }";
      "}" ]%string.

(** A runtime whose upstream answers every request with the given status
    and body, and whose [JSON.parse] knows the London payload only. *)
Definition answering (status : Z) (statusText body : string) : Runtime :=
  mkRuntime (fun _ => Responded (mkResponse status statusText body))
            (fun s => if (s =? london_body)%string then Some london_payload else None)
            (fun _ => "?") (fun _ => "fault")
            (fun issues => JArr (map issue_json issues))
            (fun _ => "invalid") (fun _ => JObj []).

(** A runtime whose upstream answers every request with 200 and whose
    [JSON.parse] yields the given payload. *)
Definition serving (payload : JSValue) : Runtime :=
  mkRuntime (fun _ => Responded (mkResponse 200 "OK" "payload"))
            (fun _ => Some payload)
            (fun _ => "?") (fun _ => "fault")
            (fun issues => JArr (map issue_json issues))
            (fun _ => "invalid") (fun _ => JObj []).

(** A runtime without network whose [z.toJSONSchema] lists every field of
    the schema under [required], and one whose [z.toJSONSchema] lists a
    name that no schema of the script has. *)
Definition listing_all : Runtime :=
  mkRuntime (fun _ => Rejected "offline") (fun _ => None) (fun _ => "?")
            (fun _ => "fault") (fun issues => JArr (map issue_json issues))
            (fun _ => "invalid")
            (fun shape => JObj [ ("type", JStr "object");
                                 ("required", JArr (map (fun f => JStr (fst f)) shape)) ]).

Definition listing_units : Runtime :=
  mkRuntime (fun _ => Rejected "offline") (fun _ => None) (fun _ => "?")
            (fun _ => "fault") (fun issues => JArr (map issue_json issues))
            (fun _ => "invalid")
            (fun _ => JObj [ ("type", JStr "object");
                             ("required", JArr [JStr "location"; JStr "units"]) ]).

Definition call (id : JSValue) (name : string) (args : list (string * JSValue))
  : MCPRequest :=
  mkRequest "2.0" id "tools/call" (JObj [("name", JStr name); ("arguments", JObj args)]).


(** ** Summaries *)

(** The line the forecast summary has for a day, and the day as the
    upstream sends it. *)
Definition day_line (rt : Runtime) (d : string * string * JSNumber * JSNumber) : string :=
  let '(date, condition, maxtemp_c, mintemp_c) := d in
  (date ++ ": " ++ condition ++ ", High: " ++ Number_toString rt maxtemp_c
   ++ "°C, Low: " ++ Number_toString rt mintemp_c ++ "°C" ++ newline)%string.

Definition day_value (d : string * string * JSNumber * JSNumber) : JSValue :=
  let '(date, condition, maxtemp_c, mintemp_c) := d in
  forecast_day date condition maxtemp_c mintemp_c.

(** The line the search summary has for a match, and the match as the
    upstream sends it. *)
Definition match_line (rt : Runtime)
    (l : string * string * string * JSNumber * JSNumber) : string :=
  let '(name, region, country, lat, lon) := l in
  (name ++ ", " ++ region ++ ", " ++ country ++ " (" ++ Number_toString rt lat ++ ", "
   ++ Number_toString rt lon ++ ")" ++ newline)%string.

Definition match_value (l : string * string * string * JSNumber * JSNumber) : JSValue :=
  let '(name, region, country, lat, lon) := l in
  found_location name region country lat lon.

(** Lines one after the other. *)
Definition lines (l : list string) : string := fold_right String.append EmptyString l.

(** The first summary text of a tool result. *)
Definition summary_of (result : JSValue) : option JSValue :=
  match result with
  | JObj [("content", JArr (JObj [("type", JStr _); ("text", text)] :: _))] => Some text
  | _ => None
  end.

(** A response of the dispatcher: version 2.0, and data that are an
    object whenever it is an error. *)
Definition enveloped (r : MCPResponse) : Prop :=
  resp_jsonrpc r = "2.0"
  /\ match resp_error r with
     | Some e => exists props, err_data e = Some (JObj props)
     | None => True
     end.

(** What it takes for a text to start with no white space. *)
Definition starts_clean (s : list ascii) : Prop :=
  match s with
  | [] => True
  | a :: rest =>
      ws1 a = false
      /\ match rest with
         | [] => True
         | b :: rest2 =>
             ws2 a b = false
             /\ match rest2 with
                | [] => True
                | c :: _ => ws3 a b c = false
                end
         end
  end.

(** ** Answers of the transport *)

(** The error for a body that is not JSON. *)
Definition parse_error : MCPResponse :=
  createErrorResponse JNull (-32700) "Invalid JSON in request body"
    (JObj [("hint", JStr "Make sure your request body is valid JSON")]).

(** The error for a body that is no JSON-RPC 2.0 request. *)
Definition invalid_request (id : JSValue) : MCPResponse :=
  createErrorResponse (js_or id JNull) (-32600) "Invalid JSON-RPC request"
    (JObj [("hint",
            JStr ("Request must include jsonrpc: " ++ dquote ++ "2.0" ++ dquote
                  ++ " and method fields")%string)]).

(** A parsed body that passes the check of the transport: [jsonrpc] is the
    string [2.0] and [method] is truthy. *)
Definition well_formed (body : JSValue) : bool :=
  is_string (optional_get body "jsonrpc") "2.0" && truthy (optional_get body "method").

(** The payload of [/current.json], and the summary the source builds
    from it. *)
Definition current_payload (name country condition : string)
    (temp_c temp_f feelslike_c humidity wind_kph : JSNumber) (wind_dir : string) : JSValue :=
  JObj [ ("location", JObj [("name", JStr name); ("country", JStr country)]);
         ("current",
          JObj [ ("condition", JObj [("text", JStr condition)]);
                 ("temp_c", JNum temp_c); ("temp_f", JNum temp_f);
                 ("feelslike_c", JNum feelslike_c); ("humidity", JNum humidity);
                 ("wind_kph", JNum wind_kph); ("wind_dir", JStr wind_dir) ]) ].

Definition current_summary (rt : Runtime) (name country condition : string)
    (temp_c temp_f feelslike_c humidity wind_kph : JSNumber) (wind_dir : string) : string :=
  ("Current weather in " ++ name ++ ", " ++ country ++ ": " ++ condition ++ ", "
   ++ Number_toString rt temp_c ++ "°C (" ++ Number_toString rt temp_f
   ++ "°F). Feels like " ++ Number_toString rt feelslike_c ++ "°C. Humidity: "
   ++ Number_toString rt humidity ++ "%. Wind: " ++ Number_toString rt wind_kph
   ++ " km/h " ++ wind_dir ++ ".")%string.

(** ** Arguments a schema accepts *)

(** A field of a schema accepts a value. *)
Definition accepts (t : ZodType) (v : JSValue) : bool :=
  match zod_check t [] v with
  | inr _ => true
  | inl _ => false
  end.

(** A string; a string or nothing; nothing or an integer from 1 to 3. *)
Definition a_string (v : JSValue) : bool :=
  match v with JStr _ => true | _ => false end.

Definition a_string_or_nothing (v : JSValue) : bool :=
  match v with JStr _ | JUndefined => true | _ => false end.

Definition days_or_nothing (v : JSValue) : bool :=
  match v with
  | JUndefined => true
  | JNum (Finite q) => integral q && Qle_bool 1 q && Qle_bool q 3
  | _ => false
  end.

(** ** Queries *)

(** [searchParams.get(k)]: the value of the first pair named [k]. *)
Fixpoint param (q : list (string * string)) (k : string) : option string :=
  match q with
  | [] => None
  | (k', v) :: rest => if (k' =? k)%string then Some v else param rest k
  end.

(** The pairs a list of parameters adds to a query: one per parameter
    that is neither undefined nor null, in order. *)
Definition query_pairs (rt : Runtime) (params : list (string * JSValue))
  : list (string * string) :=
  flat_map
    (fun p =>
       match snd p with
       | JUndefined | JNull => []
       | v => match ToString rt v with
              | Some text => [(fst p, text)]
              | None => []
              end
       end)
    params.

(** A string, a number or a boolean, undefined or null. *)
Definition primitive (v : JSValue) : bool :=
  match v with
  | JArr _ | JObj _ => false
  | _ => true
  end.

(** The defaults of a schema are primitives. *)
Fixpoint primitive_defaults (t : ZodType) : bool :=
  match t with
  | ZString | ZNumber _ => true
  | ZOptional inner => primitive_defaults inner
  | ZDefault inner d => primitive d && primitive_defaults inner
  end.

(** The three endpoints of the upstream. *)
Definition endpoints : list string :=
  ["/current.json"; "/forecast.json"; "/search.json"].

(** The request goes to one of the three endpoints and carries the
    credential as its [key]. *)
Definition addressed_with (apiKey : string) (url : URL) : Prop :=
  (exists endpoint, In endpoint endpoints /\ href url = (WEATHER_API_BASE ++ endpoint)%string)
  /\ param (searchParams url) "key" = Some apiKey.

(* ===================================================================== *)
(** * Properties                                                           *)
(* ===================================================================== *)

Section Laws.

Context {A B : Type}.

Lemma bind_ret (a : A) (f : A -> Async B) : bind (ret a) f = f a.
Proof. unfold bind, ret. destruct (f a) as [t r]. reflexivity. Qed.

Lemma bind_throw (e : Exn) (f : A -> Async B) : bind (throw e) f = throw e.
Proof. reflexivity. Qed.

Lemma bind_inr (m : Async A) (f : A -> Async B) (t : list URL) (b : B) :
  bind m f = (t, inr b) ->
  exists t1 a t2, m = (t1, inr a) /\ f a = (t2, inr b) /\ t = (t1 ++ t2)%list.
Proof.
  unfold bind. destruct m as [t1 [e | a]]; [discriminate |].
  destruct (f a) as [t2 r] eqn:Hf. intros H. inversion H; subst.
  exists t1, a, t2. auto.
Qed.

Lemma try_catch_returns (body : Async A) (handler : Exn -> Async A) (P : A -> Prop) :
  (forall a, outcome body = inr a -> P a) ->
  (forall e, returns (handler e) P) ->
  returns (try_catch body handler) P.
Proof.
  intros Hbody Hhandler. unfold returns, try_catch.
  destruct body as [t [e | a]]; cbn.
  - specialize (Hhandler e). unfold returns in Hhandler.
    destruct (handler e) as [t' r]. exact Hhandler.
  - apply Hbody. reflexivity.
Qed.

Lemma bind_outcome (m : Async A) (f : A -> Async B) (b : B) :
  outcome (bind m f) = inr b ->
  exists a, outcome m = inr a /\ outcome (f a) = inr b.
Proof.
  unfold bind, outcome. destruct m as [t [e | a]]; cbn; [discriminate |].
  destruct (f a) as [t' r] eqn:Hf. cbn. intros H. exists a. rewrite Hf. auto.
Qed.

End Laws.

(** Peels the binds off a computation known to end in a value. *)
Ltac unbind H :=
  repeat (apply bind_outcome in H; destruct H as (? & _ & H)).

Lemma returns_ret {A : Type} (a : A) (P : A -> Prop) : P a -> returns (ret a) P.
Proof. intros H. exact H. Qed.

Lemma Get_call_params (request : MCPRequest) (k : string) :
  Get (call_params request) k = inr (optional_get (call_params request) k).
Proof.
  unfold optional_get, call_params, js_or.
  destruct (req_params request) as [| | b | n | s | items | props]; cbn;
    try reflexivity.
  - destruct b; reflexivity.
  - destruct n as [| neg | q]; cbn; try reflexivity.
    destruct (negb (Qeq_bool q 0)); reflexivity.
  - destruct (negb (s =? EmptyString)%string); cbn.
    + destruct (k =? "length")%string; reflexivity.
    + reflexivity.
  - destruct (k =? "length")%string; reflexivity.
  - destruct (own_prop props k); reflexivity.
Qed.

Section Dispatch.

Variable rt : Runtime.

Lemma tools_call_eq (request : MCPRequest) (apiKey : option string) :
  tools_call rt request apiKey =
  match ToString rt (call_name request) with
  | Some key => dispatch_tool rt (req_id request) key apiKey (call_arguments request)
  | None => throw (ENative NotPrimitive)
  end.
Proof.
  unfold tools_call. fold (call_params request).
  rewrite !Get_call_params. cbn [native]. rewrite !bind_ret.
  fold (call_name request). fold (call_arguments request).
  unfold text_of. destruct (ToString rt (call_name request)).
  - rewrite bind_ret. reflexivity.
  - reflexivity.
Qed.

Lemma tool_failure_built (id : JSValue) (error : Exn) :
  built_for id (tool_failure rt id error).
Proof. destruct error; cbn; auto with mcp. Qed.

Lemma handler_result (key : string) (h : Runtime -> string -> JSValue -> Async JSValue)
    (apiKey : string) (args v : JSValue) :
  own_handler allTools key = Some h ->
  outcome (h rt apiKey args) = inr v ->
  exists summary result, v = tool_result rt summary result.
Proof.
  unfold allTools, own_handler.
  destruct ("getCurrentWeather" =? key)%string;
    [| destruct ("getWeatherForecast" =? key)%string;
       [| destruct ("searchLocations" =? key)%string; [| discriminate]]];
    intros Hh H; inversion Hh; subst h; clear Hh.
  - unfold getCurrentWeather in H. unbind H. inversion H. eauto.
  - unfold getWeatherForecast in H. unbind H. inversion H. eauto.
  - unfold searchLocations in H. unbind H. inversion H. eauto.
Qed.

Lemma invoke_defined (key apiKey : string) (args v : JSValue) :
  outcome (invoke rt (allTools_get key) apiKey args) = inr v -> v <> JUndefined.
Proof.
  unfold allTools_get.
  destruct (own_handler allTools key) as [h |] eqn:Hh; cbn [invoke].
  - intros H. destruct (handler_result key h apiKey args v Hh H) as (s & r & ->).
    discriminate.
  - destruct (existsb (String.eqb key) Object_prototype); cbn [invoke].
    + unfold call_builtin.
      repeat match goal with
             | |- context [if ?c then _ else _] => destruct c
             end; cbn; intros H; inversion H; discriminate.
    + cbn. discriminate.
Qed.

Lemma call_tool_built (id : JSValue) (key apiKey : string) (args : JSValue) :
  returns (call_tool rt id (allTools_get key) apiKey args) (built_for id).
Proof.
  unfold call_tool. apply try_catch_returns.
  - intros a Ha. apply bind_outcome in Ha. destruct Ha as (v & Hv & Ha).
    inversion Ha. constructor. exact (invoke_defined key apiKey args v Hv).
  - intros e. apply returns_ret, tool_failure_built.
Qed.

Lemma dispatch_tool_built (id : JSValue) (key : string) (apiKey : option string)
    (args : JSValue) :
  returns (dispatch_tool rt id key apiKey args) (built_for id).
Proof.
  unfold dispatch_tool.
  pose proof (fun k => call_tool_built id key k args) as Hcall.
  destruct (allTools_get key); destruct apiKey as [[| c k] |];
    try apply Hcall; apply returns_ret; unfold tool_not_found, api_key_required;
    auto with mcp.
Qed.

Lemma handleMCPRequest_built (request : MCPRequest) (apiKey : option string) :
  returns (handleMCPRequest rt request apiKey) (built_for (req_id request)).
Proof.
  unfold handleMCPRequest. apply try_catch_returns.
  - intros a.
    destruct (req_method request =? "initialize")%string;
      [cbn; intros H; inversion H; constructor; discriminate |].
    destruct (req_method request =? "tools/list")%string;
      [cbn; intros H; inversion H; constructor; discriminate |].
    destruct (req_method request =? "tools/call")%string;
      [| cbn; intros H; inversion H; unfold method_not_found; auto with mcp].
    rewrite tools_call_eq. destruct (ToString rt (call_name request)) as [key |].
    + intros H.
      pose proof (dispatch_tool_built (req_id request) key apiKey (call_arguments request)) as Hb.
      unfold returns in Hb. rewrite H in Hb. exact Hb.
    + cbn. discriminate.
  - intros e. apply returns_ret. auto with mcp.
Qed.

End Dispatch.

(** ** The tool registry and the shape of a tool call *)

Lemma registered_handler (key : string) :
  registered key = true -> exists h, allTools_get key = Handler h.
Proof.
  unfold registered, existsb. rewrite !orb_true_iff, !String.eqb_eq.
  intros [-> | [-> | [-> | H]]]; [| | | discriminate]; eexists; reflexivity.
Qed.

Lemma unregistered_no_handler (key : string) :
  registered key = false -> own_handler allTools key = None.
Proof.
  unfold registered, existsb, allTools, own_handler.
  rewrite !orb_false_iff. intros (H1 & H2 & H3 & _).
  rewrite (String.eqb_sym _ key), H1, (String.eqb_sym _ key), H2,
    (String.eqb_sym _ key), H3. reflexivity.
Qed.

Lemma handleMCPRequest_tools_call (rt : Runtime) (request : MCPRequest)
    (apiKey : option string) (key : string) :
  req_method request = "tools/call" ->
  ToString rt (call_name request) = Some key ->
  handleMCPRequest rt request apiKey
    = try_catch
        (dispatch_tool rt (req_id request) key apiKey (call_arguments request))
        (fun error =>
           ret (createErrorResponse (req_id request) JSON_RPC_ERRORS.INTERNAL_ERROR
                  "Request processing failed"
                  (JObj [("detail", JStr (error_message rt error))]))).
Proof.
  intros Hm Hk. unfold handleMCPRequest. rewrite Hm. cbn [String.eqb Ascii.eqb Bool.eqb].
  cbn match. rewrite tools_call_eq, Hk. reflexivity.
Qed.

Lemma handleMCPRequest_handler (rt : Runtime) (request : MCPRequest) (apiKey key : string)
    (h : Runtime -> string -> JSValue -> Async JSValue) :
  req_method request = "tools/call" ->
  ToString rt (call_name request) = Some key ->
  own_handler allTools key = Some h ->
  apiKey <> EmptyString ->
  handleMCPRequest rt request (Some apiKey)
  = match h rt apiKey (call_arguments request) with
    | (t, inr result) => (t, inr (result_response (req_id request) result))
    | (t, inl error) => (t, inr (tool_failure rt (req_id request) error))
    end.
Proof.
  intros Hm Hk Hh Hkey.
  rewrite (handleMCPRequest_tools_call rt request (Some apiKey) key Hm Hk).
  unfold dispatch_tool, allTools_get. rewrite Hh.
  destruct apiKey as [| c k]; [congruence |].
  unfold call_tool, try_catch, bind, invoke.
  destruct (h rt (String c k) (call_arguments request)) as [t [e | v]]; cbn;
    rewrite ?app_nil_r; reflexivity.
Qed.

(** A name that is neither registered nor a member of [Object.prototype]
    is answered by the error -32601 listing the three registered tools,
    with or without a credential. *)
Lemma tool_not_found_response (rt : Runtime) (request : MCPRequest)
    (apiKey : option string) (key : string) :
  req_method request = "tools/call" ->
  ToString rt (call_name request) = Some key ->
  registered key = false ->
  existsb (String.eqb key) Object_prototype = false ->
  handleMCPRequest rt request apiKey = ([], inr (tool_not_found (req_id request) key))
  /\ error_code (tool_not_found (req_id request) key) = Some (-32601)
  /\ error_data (tool_not_found (req_id request) key) "availableTools"
     = Some (JArr [JStr "getCurrentWeather"; JStr "getWeatherForecast";
                   JStr "searchLocations"]).
Proof.
  intros Hm Hk Hr Hp. split; [| split; reflexivity].
  rewrite (handleMCPRequest_tools_call rt request apiKey key Hm Hk).
  unfold dispatch_tool, allTools_get.
  rewrite (unregistered_no_handler key Hr), Hp. reflexivity.
Qed.

(** ** The upstream client *)

Section Upstream.

Variable rt : Runtime.

Lemma text_of_trace (v : JSValue) : trace (text_of rt v) = [].
Proof. unfold text_of. destruct (ToString rt v); reflexivity. Qed.

Lemma toString_method_trace (v : JSValue) : trace (toString_method rt v) = [].
Proof.
  destruct v as [| | b | n | s | items | props]; cbn [toString_method];
    try reflexivity; try apply text_of_trace.
  destruct (has_own props "toString"); reflexivity.
Qed.

Lemma trace_bind {A B : Type} (m : Async A) (f : A -> Async B) :
  trace m = [] -> (forall a, trace (f a) = []) -> trace (bind m f) = [].
Proof.
  unfold trace, bind. destruct m as [t [e | a]]; cbn; intros ->; [reflexivity |].
  intros H. specialize (H a). destruct (f a) as [t' r]. exact H.
Qed.

(** Building the query string issues no request. *)
Lemma add_params_trace (params : list (string * JSValue)) (url : URL) :
  trace (add_params rt url params) = [].
Proof.
  revert url. induction params as [| [key value] rest IH]; intros url.
  - reflexivity.
  - cbn [add_params].
    destruct value; try apply IH;
      (apply trace_bind; [apply toString_method_trace | intros text; apply IH]).
Qed.

Lemma callWeatherAPI_not_ok (endpoint apiKey : string) (params : list (string * JSValue))
    (url : URL) (r : Response) :
  outcome (add_params rt (url_set (mkURL (WEATHER_API_BASE ++ endpoint) []) "key" apiKey)
             params) = inr url ->
  fetch rt url = Responded r ->
  ok r = false ->
  callWeatherAPI rt endpoint apiKey params
  = ([url],
     inl (EWeatherAPI
            (mkWeatherAPIError (rstatus r) (rstatusText r)
               (match JSON_parse rt (rtext r) with
                | Some v => v
                | None => JObj [("message", JStr (rtext r))]
                end)
               ("WeatherAPI request failed: " ++ rtext r)))).
Proof.
  intros Hurl Hfetch Hok. unfold callWeatherAPI.
  pose proof (add_params_trace params
                (url_set (mkURL (WEATHER_API_BASE ++ endpoint) []) "key" apiKey)) as Ht.
  destruct (add_params rt _ params) as [t [e | u]]; cbn in Hurl, Ht; [discriminate |].
  inversion Hurl; subst u t. clear Hurl.
  change (@pair (list URL) (Exn + URL) [] (inr url)) with (ret url).
  rewrite bind_ret. unfold do_fetch. rewrite Hfetch.
  unfold bind. rewrite Hok. reflexivity.
Qed.

Lemma callWeatherAPI_ok (endpoint apiKey : string) (params : list (string * JSValue))
    (url : URL) (r : Response) :
  outcome (add_params rt (url_set (mkURL (WEATHER_API_BASE ++ endpoint) []) "key" apiKey)
             params) = inr url ->
  fetch rt url = Responded r ->
  ok r = true ->
  callWeatherAPI rt endpoint apiKey params
  = ([url],
     match JSON_parse rt (rtext r) with
     | Some v => inr v
     | None => inl (ENative (BadJSON (rtext r)))
     end).
Proof.
  intros Hurl Hfetch Hok. unfold callWeatherAPI.
  pose proof (add_params_trace params
                (url_set (mkURL (WEATHER_API_BASE ++ endpoint) []) "key" apiKey)) as Ht.
  destruct (add_params rt _ params) as [t [e | u]]; cbn in Hurl, Ht; [discriminate |].
  inversion Hurl; subst u t. clear Hurl.
  change (@pair (list URL) (Exn + URL) [] (inr url)) with (ret url).
  rewrite bind_ret. unfold do_fetch. rewrite Hfetch.
  unfold bind. rewrite Hok. unfold response_json.
  destruct (JSON_parse rt (rtext r)); reflexivity.
Qed.

End Upstream.

(** ** Validation *)

Lemma own_prop_obj_set (props : list (string * JSValue)) (k k' : string) (v : JSValue) :
  own_prop (obj_set props k v) k'
  = if (k =? k')%string then Some v else own_prop props k'.
Proof.
  induction props as [| [k0 v0] rest IH]; cbn.
  - reflexivity.
  - destruct (k0 =? k)%string eqn:E0; cbn.
    + apply String.eqb_eq in E0. subst k0. destruct (k =? k')%string; reflexivity.
    + rewrite IH. destruct (k0 =? k')%string eqn:E1; [| reflexivity].
      apply String.eqb_eq in E1. subst k0. rewrite String.eqb_sym, E0. reflexivity.
Qed.

Lemma own_prop_copy (from : list (string * JSValue)) (keys : list string)
    (target : list (string * JSValue)) (k : string) :
  own_prop (fold_left (fun acc key => obj_set acc key (value_of from key)) keys target) k
  = if existsb (String.eqb k) keys then Some (value_of from k) else own_prop target k.
Proof.
  revert target. induction keys as [| key rest IH]; intros target; cbn.
  - reflexivity.
  - rewrite IH, own_prop_obj_set. rewrite (String.eqb_sym k key).
    destruct (key =? k)%string eqn:E; cbn.
    + apply String.eqb_eq in E. subst key. destruct (existsb (String.eqb k) rest); reflexivity.
    + reflexivity.
Qed.

Lemma existsb_keys (from : list (string * JSValue)) (k : string) :
  existsb (String.eqb k) (map fst from) = has_own from k.
Proof.
  unfold has_own. induction from as [| [k0 v0] rest IH]; cbn.
  - reflexivity.
  - rewrite (String.eqb_sym k k0). destruct (k0 =? k)%string; cbn; [reflexivity | exact IH].
Qed.

(** A spread property comes from the source when the source has it, and
    from the target otherwise. *)
Lemma own_prop_spread (target : list (string * JSValue)) (source : JSValue) (k : string) :
  own_prop (spread target source) k
  = match own_prop (own_enumerable source) k with
    | Some x => Some x
    | None => own_prop target k
    end.
Proof.
  unfold spread. rewrite own_prop_copy, existsb_keys. unfold has_own, value_of.
  destruct (own_prop (own_enumerable source) k); reflexivity.
Qed.

Lemma zod_check_issues_nonempty (t : ZodType) (path : list string) (v : JSValue)
    (issues : list ZodIssue) :
  zod_check t path v = inl issues -> issues <> [].
Proof.
  revert v. induction t as [| checks | inner IH | inner IH d]; intros v; cbn.
  - destruct v; intros H; inversion H; discriminate.
  - destruct v as [| | b | [| neg | q] | s | items | props];
      try (intros H; inversion H; discriminate).
    destruct (flat_map (check_number path q) checks); intros H; inversion H; discriminate.
  - destruct v; try apply IH. discriminate.
  - destruct v; try apply IH. discriminate.
Qed.



(** [parse] issues no request and throws nothing but a ZodError. *)
Lemma parse_cases (schema : ZodObject) (input : JSValue) :
  (exists out, parse schema input = ret (JObj out)
               /\ exists props, input = JObj props /\ zod_fields schema props = ([], out))
  \/ (exists issues, parse schema input = throw (EZod issues)).
Proof.
  unfold parse. destruct input as [| | b | n | s | items | props];
    try (right; eexists; reflexivity).
  destruct (zod_fields schema props) as [[| i issues] out] eqn:H.
  - left. exists out. split; [reflexivity |]. exists props. auto.
  - right. eexists. reflexivity.
Qed.

Lemma validation_cases (key : string) (args : JSValue) :
  (exists out, validation key args = ret (JObj out))
  \/ (exists issues, validation key args = throw (EZod issues)).
Proof.
  unfold validation.
  repeat match goal with
         | |- context [if ?c then _ else _] => destruct c
         end;
    match goal with
    | |- context [parse ?s ?v] =>
        destruct (parse_cases s v) as [(out & H & _) | (issues & H)]; rewrite H
    end; eauto.
Qed.

(** Each registered handler starts by validating its arguments. *)
Lemma handler_validates_first (rt : Runtime) (key apiKey : string) (args : JSValue) :
  registered key = true ->
  exists h k,
    own_handler allTools key = Some h
    /\ h rt apiKey args = bind (validation key args) k.
Proof.
  unfold registered, existsb. rewrite !orb_true_iff, !String.eqb_eq.
  intros [-> | [-> | [-> | H]]]; [| | | discriminate];
    eexists; eexists; (split; [reflexivity |]); reflexivity.
Qed.

(** Arguments the schema rejects are answered by -32602 with the
    validation errors and a hint; no upstream request is issued. *)
Lemma rejected_arguments_response (rt : Runtime) (request : MCPRequest)
    (apiKey key : string) :
  req_method request = "tools/call" ->
  ToString rt (call_name request) = Some key ->
  registered key = true ->
  apiKey <> EmptyString ->
  rejected key (call_arguments request) = true ->
  exists issues,
    validation key (call_arguments request) = throw (EZod issues)
    /\ handleMCPRequest rt request (Some apiKey)
       = ([], inr (invalid_input rt (req_id request) issues)).
Proof.
  intros Hm Hk Hr Hkey Hrej.
  destruct (handler_validates_first rt key apiKey (call_arguments request) Hr)
    as (h & k & Hh & Hrun).
  unfold rejected in Hrej.
  destruct (validation_cases key (call_arguments request)) as [(out & Hv) | (issues & Hv)];
    rewrite Hv in Hrej; [discriminate |].
  exists issues. split; [exact Hv |].
  rewrite (handleMCPRequest_handler rt request apiKey key h Hm Hk Hh Hkey).
  rewrite Hrun, Hv, bind_throw. reflexivity.
Qed.

Lemma absent_arguments_rejected (key : string) :
  registered key = true -> rejected key JUndefined = true.
Proof.
  unfold registered, existsb. rewrite !orb_true_iff, !String.eqb_eq.
  intros [-> | [-> | [-> | H]]]; [| | | discriminate]; reflexivity.
Qed.



(* ===================================================================== *)
(** * The claims of the specification                                      *)
(* ===================================================================== *)

(** C1, as the code has it. A [tools/call] request that names a registered
    tool and comes without a credential (none, or an empty one) is
    answered by the error -32001 with the hint on the header format. The
    answer is fixed by the request id alone and no upstream request is
    issued: neither the handler nor the validation of the arguments has
    run. *)
Theorem C1_missing_credential (rt : Runtime) (request : MCPRequest)
    (apiKey : option string) (key : string) :
  req_method request = "tools/call" ->
  ToString rt (call_name request) = Some key ->
  registered key = true ->
  apiKey = None \/ apiKey = Some EmptyString ->
  handleMCPRequest rt request apiKey = ([], inr (api_key_required (req_id request)))
  /\ error_code (api_key_required (req_id request)) = Some (-32001)
  /\ error_data (api_key_required (req_id request)) "hint"
     = Some (JStr ("Include your API key in the Authorization header: "
                   ++ dquote ++ "Bearer your-api-key" ++ dquote)%string).
Proof.
  intros Hm Hk Hr Hcred. split; [| split; reflexivity].
  rewrite (handleMCPRequest_tools_call rt request apiKey key Hm Hk).
  destruct (registered_handler key Hr) as [h Hh].
  unfold dispatch_tool. rewrite Hh.
  destruct Hcred as [-> | ->]; reflexivity.
Qed.

Lemma C1_missing_credential_witness :
  handleMCPRequest offline (call (JInt 1) "getCurrentWeather" [("location", JStr "London")]) None
    = ([], inr (api_key_required (JInt 1)))
  /\ error_code (api_key_required (JInt 1)) = Some (-32001)
  /\ error_data (api_key_required (JInt 1)) "hint"
     = Some (JStr ("Include your API key in the Authorization header: "
                   ++ dquote ++ "Bearer your-api-key" ++ dquote)%string).
Proof.
  apply (C1_missing_credential offline
           (call (JInt 1) "getCurrentWeather" [("location", JStr "London")])
           None "getCurrentWeather"); try reflexivity.
  left. reflexivity.
Defined.

(** C1 as stated fails: without a credential, a [tools/call] request that
    names no known tool is answered by -32601, not by -32001. *)
Lemma C1_counterexample :
  ~ (forall (rt : Runtime) (request : MCPRequest),
       req_method request = "tools/call" ->
       returns (handleMCPRequest rt request None)
         (fun r => error_code r = Some (-32001))).
Proof.
  intros H.
  specialize (H offline (call (JInt 1) "getTides" []) eq_refl).
  vm_compute in H. discriminate H.
Qed.

(** C2. The error code depends on the upstream status alone: 400 gives
    -32602, 401 gives -32001, 403 gives -32002, 404 gives -32003, 429
    gives -32004 and any other status gives -32603; this is the code of
    the response the dispatcher builds when a tool fails with that
    error. *)
Theorem C2_status_to_code (e : WeatherAPIError) :
  let c := code (mapWeatherAPIErrorToJSONRPC e) in
  (status e = 400 -> c = -32602)
  /\ (status e = 401 -> c = -32001)
  /\ (status e = 403 -> c = -32002)
  /\ (status e = 404 -> c = -32003)
  /\ (status e = 429 -> c = -32004)
  /\ (status e <> 400 -> status e <> 401 -> status e <> 403 ->
      status e <> 404 -> status e <> 429 -> c = -32603)
  /\ (forall e', status e' = status e -> code (mapWeatherAPIErrorToJSONRPC e') = c)
  /\ (forall rt id, error_code (tool_failure rt id (EWeatherAPI e)) = Some c).
Proof.
  cbv zeta. unfold mapWeatherAPIErrorToJSONRPC.
  repeat match goal with |- _ /\ _ => split end.
  1-5: intros ->; reflexivity.
  - intros H1 H2 H3 H4 H5.
    apply Z.eqb_neq in H1, H2, H3, H4, H5. rewrite H1, H2, H3, H4, H5. reflexivity.
  - intros e' ->.
    repeat match goal with
           | |- context [if ?c then _ else _] => destruct c
           end; reflexivity.
  - intros rt id. cbn. unfold mapWeatherAPIErrorToJSONRPC.
    repeat match goal with
           | |- context [if ?c then _ else _] => destruct c
           end; reflexivity.
Qed.

Lemma C2_status_to_code_witness :
  code (mapWeatherAPIErrorToJSONRPC (mkWeatherAPIError 400 "Bad Request" JNull "m")) = -32602
  /\ code (mapWeatherAPIErrorToJSONRPC (mkWeatherAPIError 401 "Unauthorized" JNull "m")) = -32001
  /\ code (mapWeatherAPIErrorToJSONRPC (mkWeatherAPIError 403 "Forbidden" JNull "m")) = -32002
  /\ code (mapWeatherAPIErrorToJSONRPC (mkWeatherAPIError 404 "Not Found" JNull "m")) = -32003
  /\ code (mapWeatherAPIErrorToJSONRPC (mkWeatherAPIError 429 "Too Many" JNull "m")) = -32004
  /\ code (mapWeatherAPIErrorToJSONRPC (mkWeatherAPIError 503 "Unavailable" JNull "m")) = -32603.
Proof.
  repeat match goal with |- _ /\ _ => split end.
  - apply (C2_status_to_code (mkWeatherAPIError 400 "Bad Request" JNull "m")). reflexivity.
  - apply (C2_status_to_code (mkWeatherAPIError 401 "Unauthorized" JNull "m")). reflexivity.
  - apply (C2_status_to_code (mkWeatherAPIError 403 "Forbidden" JNull "m")). reflexivity.
  - apply (C2_status_to_code (mkWeatherAPIError 404 "Not Found" JNull "m")). reflexivity.
  - apply (C2_status_to_code (mkWeatherAPIError 429 "Too Many" JNull "m")). reflexivity.
  - apply (C2_status_to_code (mkWeatherAPIError 503 "Unavailable" JNull "m")); cbn; lia.
Defined.



(** The default at work on a full call: the forecast request carries
    [days=3]. *)
Example forecast_request_default_days :
  trace (getWeatherForecast offline "secret" (JObj [("location", JStr "Paris")]))
  = [mkURL "https://api.weatherapi.com/v1/forecast.json"
       [("key", "secret"); ("q", "Paris"); ("days", "3")]].
Proof. reflexivity. Qed.

(** C4, the code at the failing input. The name [toString] is not in the
    registry, yet [allTools[name]] finds the member inherited from
    [Object.prototype]: without a credential the answer is -32001, and
    with one the inherited function is called and its value returned as a
    result. In neither case is the answer -32601. The same holds, without
    a credential, for each of the twelve members of [Object.prototype]. *)
Theorem C4_inherited_name_passes_the_check (rt : Runtime) (id : JSValue) :
  registered "toString" = false
  /\ handleMCPRequest rt (call id "toString" []) None
     = ([], inr (api_key_required id))
  /\ error_code (api_key_required id) = Some (-32001)
  /\ handleMCPRequest rt (call id "toString" []) (Some "secret")
     = ([], inr (result_response id (JStr "[object Undefined]")))
  /\ Forall (fun member =>
               registered member = false
               /\ handleMCPRequest rt (call id member []) None
                  = ([], inr (api_key_required id)))
       Object_prototype.
Proof.
  repeat match goal with |- _ /\ _ => split end; try reflexivity.
  repeat constructor.
Qed.

(** C5. A request whose method is none of [initialize], [tools/list] and
    [tools/call] is answered, without any upstream request, by the error
    -32601 whose [data.availableMethods] is exactly the list of these three
    methods. *)
Theorem C5_unknown_method (rt : Runtime) (request : MCPRequest) (apiKey : option string) :
  req_method request <> "initialize" ->
  req_method request <> "tools/list" ->
  req_method request <> "tools/call" ->
  handleMCPRequest rt request apiKey
    = ([], inr (method_not_found (req_id request) (req_method request)))
  /\ error_code (method_not_found (req_id request) (req_method request)) = Some (-32601)
  /\ error_data (method_not_found (req_id request) (req_method request)) "availableMethods"
     = Some (JArr [JStr "initialize"; JStr "tools/list"; JStr "tools/call"]).
Proof.
  intros H1 H2 H3. split; [| split; reflexivity].
  unfold handleMCPRequest.
  apply String.eqb_neq in H1, H2, H3. rewrite H1, H2, H3. reflexivity.
Qed.

Lemma C5_unknown_method_witness :
  handleMCPRequest offline (mkRequest "2.0" (JInt 7) "resources/list" JUndefined) None
    = ([], inr (method_not_found (JInt 7) "resources/list"))
  /\ error_code (method_not_found (JInt 7) "resources/list") = Some (-32601)
  /\ error_data (method_not_found (JInt 7) "resources/list") "availableMethods"
     = Some (JArr [JStr "initialize"; JStr "tools/list"; JStr "tools/call"]).
Proof.
  apply (C5_unknown_method offline (mkRequest "2.0" (JInt 7) "resources/list" JUndefined) None);
    cbn; discriminate.
Defined.

(** C6. The London scenario: with a credential and the upstream answering
    the request for [current.json?key=...&q=London] with the payload of
    the scenario, the result holds two entries under [content]. The first
    is [{type: "text", text: ...}] with the text [Current weather in
    London, UK: Sunny, 20°C (68°F). Feels like 19°C. Humidity: 50%. Wind:
    10 km/h N.]; the second is [{type: "text", text: ...}] with the whole
    payload as JSON text, indented by two spaces. The response is written
    out field by field. *)
Theorem C6_london_scenario (rt : Runtime) (id : JSValue) (apiKey : string) (r : Response) :
  apiKey <> EmptyString ->
  fetch rt (mkURL (WEATHER_API_BASE ++ "/current.json") [("key", apiKey); ("q", "London")])
    = Responded r ->
  ok r = true ->
  JSON_parse rt (rtext r) = Some london_payload ->
  handleMCPRequest rt (call id "getCurrentWeather" [("location", JStr "London")]) (Some apiKey)
  = ([mkURL (WEATHER_API_BASE ++ "/current.json") [("key", apiKey); ("q", "London")]],
     inr (mkResponse' "2.0" id
            (Some
               (JObj [("content",
                       JArr [ JObj [ ("type", JStr "text");
                                     ("text",
                                      JStr "Current weather in London, UK: Sunny, 20°C (68°F). Feels like 19°C. Humidity: 50%. Wind: 10 km/h N.") ];
                              JObj [ ("type", JStr "text");
                                     ("text", JStr london_body) ] ])]))
            None)).
Proof.
  intros Hkey Hfetch Hok Hparse.
  rewrite (handleMCPRequest_handler rt
             (call id "getCurrentWeather" [("location", JStr "London")])
             apiKey "getCurrentWeather" getCurrentWeather
             eq_refl eq_refl eq_refl Hkey).
  change (call_arguments (call id "getCurrentWeather" [("location", JStr "London")]))
    with (JObj [("location", JStr "London")]).
  change (req_id (call id "getCurrentWeather" [("location", JStr "London")])) with id.
  unfold getCurrentWeather.
  change (parse getCurrentWeatherSchema (JObj [("location", JStr "London")]))
    with (ret (JObj [("location", JStr "London")])).
  rewrite bind_ret. unfold getCurrentWeatherData.
  change (Get (JObj [("location", JStr "London")]) "location") with (@inr NativeFault _ (JStr "London")).
  change (Get (JObj [("location", JStr "London")]) "language") with (@inr NativeFault _ JUndefined).
  cbn [native]. rewrite !bind_ret.
  rewrite (callWeatherAPI_ok rt "/current.json" apiKey
             [("q", JStr "London"); ("lang", JUndefined)] _ r eq_refl Hfetch Hok).
  rewrite Hparse.
  reflexivity.
Qed.

Lemma C6_london_scenario_witness :
  handleMCPRequest (answering 200 "OK" london_body)
    (call (JInt 1) "getCurrentWeather" [("location", JStr "London")]) (Some "secret")
  = ([mkURL (WEATHER_API_BASE ++ "/current.json") [("key", "secret"); ("q", "London")]],
     inr (mkResponse' "2.0" (JInt 1)
            (Some
               (JObj [("content",
                       JArr [ JObj [ ("type", JStr "text");
                                     ("text",
                                      JStr "Current weather in London, UK: Sunny, 20°C (68°F). Feels like 19°C. Humidity: 50%. Wind: 10 km/h N.") ];
                              JObj [ ("type", JStr "text");
                                     ("text", JStr london_body) ] ])]))
            None)).
Proof.
  apply (C6_london_scenario (answering 200 "OK" london_body) (JInt 1) "secret"
           (mkResponse 200 "OK" london_body)).
  - discriminate.
  - reflexivity.
  - reflexivity.
  - vm_compute. reflexivity.
Defined.

(** The text of the second entry is what [JSON.stringify(result, null, 2)]
    makes of the payload, on every runtime: the numbers of the payload are
    integers. *)
Example london_payload_serialized (rt : Runtime) :
  JSON_stringify rt london_payload = JStr london_body.
Proof. reflexivity. Qed.

(** C7. Whatever the request and the credential, the dispatcher ends in a
    response and not in a thrown error, and the response has a [result]
    or an [error], never both and never neither; a [result] is never the
    undefined value, so the field is there once the response is
    serialized. *)
Theorem C7_one_response_with_result_or_error (rt : Runtime) (request : MCPRequest)
    (apiKey : option string) :
  returns (handleMCPRequest rt request apiKey)
    (fun r => one_of_result_error r = true /\ resp_result r <> Some JUndefined).
Proof.
  pose proof (handleMCPRequest_built rt request apiKey) as H.
  unfold returns in *. destruct (outcome (handleMCPRequest rt request apiKey)) as [e | r].
  - exact H.
  - destruct H as [result Hdef | c m d]; cbn.
    + split; [reflexivity | congruence].
    + split; [reflexivity | discriminate].
Qed.

(** C8, as the code has it. When the upstream answers with a status
    outside 200-299, the client fails with a WeatherAPIError that carries
    the status, the status text, the body parsed as JSON (or
    [{message: rawText}] when it does not parse) and the message
    [WeatherAPI request failed: ] followed by the raw body text; one
    request was issued. *)
Theorem C8_non_2xx_becomes_WeatherAPIError (rt : Runtime) (endpoint apiKey : string)
    (params : list (string * JSValue)) (url : URL) (r : Response) :
  outcome (add_params rt (url_set (mkURL (WEATHER_API_BASE ++ endpoint) []) "key" apiKey)
             params) = inr url ->
  fetch rt url = Responded r ->
  ok r = false ->
  exists e,
    callWeatherAPI rt endpoint apiKey params = ([url], inl (EWeatherAPI e))
    /\ status e = rstatus r
    /\ statusText e = rstatusText r
    /\ body e = match JSON_parse rt (rtext r) with
                | Some v => v
                | None => JObj [("message", JStr (rtext r))]
                end
    /\ wmessage e = ("WeatherAPI request failed: " ++ rtext r)%string.
Proof.
  intros Hurl Hfetch Hok. eexists. split.
  - apply callWeatherAPI_not_ok; eassumption.
  - repeat match goal with |- _ /\ _ => split end; reflexivity.
Qed.

Lemma C8_non_2xx_becomes_WeatherAPIError_witness :
  exists e,
    callWeatherAPI (answering 500 "Internal Server Error" "boom") "/search.json" "k"
      [("q", JStr "Lond")]
    = ([mkURL "https://api.weatherapi.com/v1/search.json" [("key", "k"); ("q", "Lond")]],
       inl (EWeatherAPI e))
    /\ status e = 500
    /\ statusText e = "Internal Server Error"
    /\ body e = JObj [("message", JStr "boom")]
    /\ wmessage e = "WeatherAPI request failed: boom".
Proof.
  apply (C8_non_2xx_becomes_WeatherAPIError
           (answering 500 "Internal Server Error" "boom") "/search.json" "k"
           [("q", JStr "Lond")]
           (mkURL "https://api.weatherapi.com/v1/search.json" [("key", "k"); ("q", "Lond")])
           (mkResponse 500 "Internal Server Error" "boom")); reflexivity.
Defined.

(** C8 as stated fails: the message does not start with
    [request failed: ]; it is [WeatherAPI request failed: ] and the raw
    text. *)
Lemma C8_counterexample :
  ~ (forall (rt : Runtime) (endpoint apiKey : string) (params : list (string * JSValue))
       (url : URL) (r : Response),
       outcome (add_params rt (url_set (mkURL (WEATHER_API_BASE ++ endpoint) []) "key" apiKey)
                  params) = inr url ->
       fetch rt url = Responded r ->
       ok r = false ->
       exists e,
         outcome (callWeatherAPI rt endpoint apiKey params) = inl (EWeatherAPI e)
         /\ wmessage e = ("request failed: " ++ rtext r)%string).
Proof.
  intros H.
  destruct (H (answering 500 "Internal Server Error" "boom") "/search.json" "k"
              [("q", JStr "Lond")]
              (mkURL "https://api.weatherapi.com/v1/search.json" [("key", "k"); ("q", "Lond")])
              (mkResponse 500 "Internal Server Error" "boom")
              eq_refl eq_refl eq_refl) as (e & He & Hm).
  vm_compute in He. inversion He; subst e. vm_compute in Hm. discriminate Hm.
Qed.

(** C9. An error response carries the request id, replaced by the string
    [unknown] when the id is falsy (absent, null, 0 or the empty string);
    a success response carries the request id unchanged. Every response
    is of one of these two kinds. *)
Theorem C9_id_fallback_on_errors_only (rt : Runtime) (request : MCPRequest)
    (apiKey : option string) :
  returns (handleMCPRequest rt request apiKey)
    (fun r =>
       match resp_result r, resp_error r with
       | Some _, None => resp_id r = req_id request
       | None, Some _ => resp_id r = js_or (req_id request) (JStr "unknown")
       | _, _ => False
       end)
  /\ Forall (fun id => js_or id (JStr "unknown") = JStr "unknown")
       [JUndefined; JNull; JInt 0; JStr EmptyString].
Proof.
  split.
  - pose proof (handleMCPRequest_built rt request apiKey) as H.
    unfold returns in *. destruct (outcome (handleMCPRequest rt request apiKey)) as [e | r].
    + exact H.
    + destruct H; reflexivity.
  - repeat constructor.
Qed.

(** The fallback at work: the id 0 becomes [unknown] in an error response
    and stays 0 in a success response; an absent id stays absent in a
    success response. *)
Example id_of_error_and_success :
  option_map resp_id
    (match outcome (handleMCPRequest offline (mkRequest "2.0" (JInt 0) "resources/list" JUndefined) None)
     with inr r => Some r | inl _ => None end)
  = Some (JStr "unknown")
  /\ option_map resp_id
       (match outcome (handleMCPRequest offline (mkRequest "2.0" (JInt 0) "initialize" JUndefined) None)
        with inr r => Some r | inl _ => None end)
     = Some (JInt 0)
  /\ option_map resp_id
       (match outcome (handleMCPRequest offline (mkRequest "2.0" JUndefined "tools/list" JUndefined) None)
        with inr r => Some r | inl _ => None end)
     = Some JUndefined.
Proof. repeat split. Qed.

(** C10. A [tools/call] request that names a registered tool, comes with
    a credential, and whose [arguments] are absent or rejected by the
    schema of the tool is answered by the error -32602 with the hint; the
    dispatcher ends in this response, not in a thrown error, and no
    upstream request is issued. The response does not carry the validation
    errors: [validationErrors] is set to [error.errors], which a ZodError
    does not have, so its value is undefined and the serialized data hold
    the hint alone. *)
Theorem C10_validationErrors_undefined (rt : Runtime) (request : MCPRequest)
    (apiKey key : string) :
  req_method request = "tools/call" ->
  ToString rt (call_name request) = Some key ->
  registered key = true ->
  apiKey <> EmptyString ->
  call_arguments request = JUndefined \/ rejected key (call_arguments request) = true ->
  exists response failure,
    handleMCPRequest rt request (Some apiKey) = ([], inr response)
    /\ resp_result response = None
    /\ resp_error response = Some failure
    /\ err_code failure = -32602
    /\ err_message failure = "Invalid input parameters"
    /\ error_data response "hint"
       = Some (JStr "Check the tool's input schema for required parameters")
    /\ error_data response "validationErrors" = Some JUndefined
    /\ option_map (SerializeJSONCompact rt) (err_data failure)
       = Some (Some ("{" ++ quoted "hint" ++ ":"
                     ++ quoted "Check the tool's input schema for required parameters"
                     ++ "}")%string).
Proof.
  intros Hm Hk Hr Hkey Hargs.
  assert (Hrej : rejected key (call_arguments request) = true).
  { destruct Hargs as [-> | H]; [apply absent_arguments_rejected; exact Hr | exact H]. }
  destruct (rejected_arguments_response rt request apiKey key Hm Hk Hr Hkey Hrej)
    as (issues & _ & Hresp).
  exists (invalid_input rt (req_id request) issues).
  eexists. split; [exact Hresp |].
  repeat match goal with |- _ /\ _ => split end; reflexivity.
Qed.

Lemma C10_validationErrors_undefined_witness :
  exists response failure,
    handleMCPRequest offline
      (mkRequest "2.0" (JInt 4) "tools/call" (JObj [("name", JStr "searchLocations")]))
      (Some "secret")
    = ([], inr response)
    /\ resp_result response = None
    /\ resp_error response = Some failure
    /\ err_code failure = -32602
    /\ err_message failure = "Invalid input parameters"
    /\ error_data response "hint"
       = Some (JStr "Check the tool's input schema for required parameters")
    /\ error_data response "validationErrors" = Some JUndefined
    /\ option_map (SerializeJSONCompact offline) (err_data failure)
       = Some (Some ("{" ++ quoted "hint" ++ ":"
                     ++ quoted "Check the tool's input schema for required parameters"
                     ++ "}")%string).
Proof.
  apply (C10_validationErrors_undefined offline
           (mkRequest "2.0" (JInt 4) "tools/call" (JObj [("name", JStr "searchLocations")]))
           "secret" "searchLocations"); try reflexivity.
  - discriminate.
  - left. reflexivity.
Defined.

(* ===================================================================== *)
(** * Further properties of the code                                       *)
(* ===================================================================== *)

(** ** Requests issued *)

Section Traces.

Variable rt : Runtime.

Lemma trace_bind_eq {A B : Type} (m : Async A) (f : A -> Async B) :
  trace (bind m f)
  = (trace m ++ match outcome m with
                | inr a => trace (f a)
                | inl _ => []
                end)%list.
Proof.
  unfold trace, outcome, bind. destruct m as [t [e | a]]; cbn.
  - rewrite app_nil_r. reflexivity.
  - destruct (f a) as [t' r]. reflexivity.
Qed.

Lemma native_trace {A : Type} (r : NativeFault + A) : trace (native r) = [].
Proof. destruct r; reflexivity. Qed.

Lemma read_trace (path : list string) (v : JSValue) : trace (read v path) = [].
Proof.
  revert v. induction path as [| k rest IH]; intros v; cbn [read].
  - reflexivity.
  - apply trace_bind; [apply native_trace | intros x; apply IH].
Qed.

Lemma interpolate_trace (v : JSValue) (path : list string) :
  trace (interpolate rt v path) = [].
Proof.
  unfold interpolate. apply trace_bind; [apply read_trace | intros x; apply text_of_trace].
Qed.

Lemma each_trace (callback : JSValue -> Async string) (items : list JSValue)
    (summary : string) :
  (forall x, trace (callback x) = []) ->
  trace (each items callback summary) = [].
Proof.
  intros Hcb. revert summary. induction items as [| x rest IH]; intros summary; cbn [each].
  - reflexivity.
  - apply trace_bind; [apply Hcb | intros line; apply IH].
Qed.

Lemma forEach_trace (callback : JSValue -> Async string) (v : JSValue) (summary : string) :
  (forall x, trace (callback x) = []) ->
  trace (forEach v callback summary) = [].
Proof.
  intros Hcb. destruct v; cbn [forEach]; try reflexivity. apply each_trace, Hcb.
Qed.

Lemma parse_trace (schema : ZodObject) (input : JSValue) : trace (parse schema input) = [].
Proof.
  destruct (parse_cases schema input) as [(out & H & _) | (issues & H)]; rewrite H;
    reflexivity.
Qed.

End Traces.

Ltac pure_step :=
  first [ apply native_trace | apply interpolate_trace | apply read_trace
        | apply text_of_trace | apply parse_trace | reflexivity ].

(** Drives [trace (x <- m ;; k) = []] through a chain of binds. *)
Ltac pure_chain :=
  repeat (apply trace_bind; [pure_step | intros ?]); try pure_step.

Lemma forecast_line_trace (rt : Runtime) (day : JSValue) :
  trace (forecast_line rt day) = [].
Proof. unfold forecast_line. pure_chain. Qed.

Lemma location_line_trace (rt : Runtime) (location : JSValue) :
  trace (location_line rt location) = [].
Proof. unfold location_line. pure_chain. Qed.

(** ** The query of an upstream request *)

Lemma searchParams_set_fresh (q : list (string * string)) (k v : string) :
  param q k = None -> searchParams_set q k v = (q ++ [(k, v)])%list.
Proof.
  induction q as [| [k' v'] rest IH]; cbn; [reflexivity |].
  destruct (k' =? k)%string; [discriminate |]. intros H. rewrite (IH H). reflexivity.
Qed.

Lemma param_app (q1 q2 : list (string * string)) (k : string) :
  param (q1 ++ q2) k = match param q1 k with Some v => Some v | None => param q2 k end.
Proof.
  induction q1 as [| [k' v'] rest IH]; cbn; [reflexivity |].
  destruct (k' =? k)%string; [reflexivity | exact IH].
Qed.

Lemma toString_method_primitive (rt : Runtime) (v : JSValue) :
  primitive v = true -> v <> JUndefined -> v <> JNull ->
  exists text, ToString rt v = Some text /\ toString_method rt v = ret text.
Proof.
  destruct v as [| | b | n | s | items | props]; cbn; try discriminate; try congruence;
    intros _ _ _.
  - destruct b; eexists; split; reflexivity.
  - eexists; split; reflexivity.
  - eexists; split; reflexivity.
Qed.

Lemma add_params_query (rt : Runtime) (params : list (string * JSValue)) (url : URL) :
  NoDup (map fst params) ->
  (forall k, In k (map fst params) -> param (searchParams url) k = None) ->
  forallb primitive (map snd params) = true ->
  add_params rt url params
  = ret (mkURL (href url) (searchParams url ++ query_pairs rt params)).
Proof.
  revert url. induction params as [| [key value] rest IH]; intros url Hnodup Hfresh Hprim.
  - cbn. rewrite app_nil_r. destruct url; reflexivity.
  - cbn [map fst snd] in Hnodup, Hfresh, Hprim. inversion Hnodup as [| ? ? Hnotin Hnodup']; subst.
    cbn [forallb] in Hprim. apply andb_true_iff in Hprim. destruct Hprim as [Hv Hprim].
    assert (Hrest : forall u, href u = href url ->
              (forall k, In k (map fst rest) -> param (searchParams u) k = None) ->
              add_params rt u rest
              = ret (mkURL (href url) (searchParams u ++ query_pairs rt rest))).
    { intros u Hu Hf. rewrite (IH u Hnodup' Hf Hprim), Hu. reflexivity. }
    assert (Hset : forall text,
              add_params rt (url_set url key text) rest
              = ret (mkURL (href url)
                       (searchParams url ++ (key, text) :: query_pairs rt rest))).
    { intros text. rewrite Hrest.
      - unfold url_set. cbn [href searchParams].
        rewrite (searchParams_set_fresh (searchParams url) key text)
          by (apply Hfresh; left; reflexivity).
        rewrite <- app_assoc. reflexivity.
      - reflexivity.
      - intros k Hk. unfold url_set. cbn [searchParams].
        rewrite (searchParams_set_fresh (searchParams url) key text)
          by (apply Hfresh; left; reflexivity).
        rewrite param_app, (Hfresh k (or_intror Hk)). cbn.
        destruct (key =? k)%string eqn:E; [| reflexivity].
        apply String.eqb_eq in E. subst k. contradiction. }
    cbn [add_params]. unfold query_pairs. cbn [flat_map fst snd]. fold (query_pairs rt rest).
    destruct value as [| | b | n | s | items | props]; try discriminate Hv;
      try (apply Hrest; [reflexivity | intros k Hk; apply Hfresh; right; exact Hk]).
    + destruct (toString_method_primitive rt (JBool b) eq_refl) as (text & Htext & Hrun);
        try discriminate.
      rewrite Hrun, bind_ret, Htext. apply Hset.
    + destruct (toString_method_primitive rt (JNum n) eq_refl) as (text & Htext & Hrun);
        try discriminate.
      rewrite Hrun, bind_ret, Htext. apply Hset.
    + destruct (toString_method_primitive rt (JStr s) eq_refl) as (text & Htext & Hrun);
        try discriminate.
      rewrite Hrun, bind_ret, Htext. apply Hset.
Qed.

Lemma param_filter_other (q : list (string * string)) (k k' : string) :
  (k =? k')%string = false ->
  param (filter (fun p => negb (fst p =? k)%string) q) k' = param q k'.
Proof.
  intros Hk. induction q as [| [k0 v0] rest IH]; cbn; [reflexivity |].
  destruct (k0 =? k)%string eqn:E0; cbn.
  - apply String.eqb_eq in E0. subst k0. rewrite Hk. exact IH.
  - destruct (k0 =? k')%string; [reflexivity | exact IH].
Qed.

Lemma param_set_other (q : list (string * string)) (k k' v : string) :
  (k =? k')%string = false ->
  param (searchParams_set q k v) k' = param q k'.
Proof.
  intros Hk. induction q as [| [k0 v0] rest IH]; cbn.
  - rewrite Hk. reflexivity.
  - destruct (k0 =? k)%string eqn:E0; cbn.
    + apply String.eqb_eq in E0. subst k0. rewrite Hk.
      apply param_filter_other. exact Hk.
    + destruct (k0 =? k')%string; [reflexivity | exact IH].
Qed.

Lemma add_params_keeps (rt : Runtime) (params : list (string * JSValue)) (url url' : URL)
    (k : string) :
  existsb (String.eqb k) (map fst params) = false ->
  outcome (add_params rt url params) = inr url' ->
  href url' = href url /\ param (searchParams url') k = param (searchParams url) k.
Proof.
  revert url. induction params as [| [key value] rest IH]; intros url Hk Hrun.
  - cbn in Hrun. inversion Hrun. auto.
  - cbn [map fst existsb] in Hk. apply orb_false_iff in Hk. destruct Hk as [Hkey Hk].
    cbn [add_params] in Hrun.
    assert (Hskip : outcome (add_params rt url rest) = inr url' ->
                    href url' = href url
                    /\ param (searchParams url') k = param (searchParams url) k)
      by (apply IH; exact Hk).
    destruct value; try (apply Hskip; exact Hrun);
      (apply bind_outcome in Hrun; destruct Hrun as (text & _ & Hrun);
       destruct (IH _ Hk Hrun) as [Hh Hp]; split;
       [ rewrite Hh; reflexivity
       | rewrite Hp; unfold url_set; cbn [searchParams];
         apply param_set_other; rewrite String.eqb_sym; exact Hkey ]).
Qed.

Section Requests.

Variable rt : Runtime.

(** After the query is built, the client issues its one request whatever
    the upstream then answers. *)
Lemma callWeatherAPI_trace (endpoint apiKey : string) (params : list (string * JSValue)) :
  trace (callWeatherAPI rt endpoint apiKey params)
  = match outcome (add_params rt
                     (url_set (mkURL (WEATHER_API_BASE ++ endpoint) []) "key" apiKey) params)
    with
    | inr url => [url]
    | inl _ => []
    end.
Proof.
  unfold callWeatherAPI. rewrite trace_bind_eq, add_params_trace. cbn [app].
  destruct (outcome (add_params rt _ params)) as [e | url]; [reflexivity |].
  rewrite trace_bind_eq. unfold do_fetch.
  destruct (fetch rt url) as [reason | r]; cbn; [reflexivity |].
  unfold response_json.
  destruct (negb (ok r)); [reflexivity |].
  destruct (JSON_parse rt (rtext r)); reflexivity.
Qed.

(** The data functions read the validated input and call the client. *)
Lemma getCurrentWeatherData_eq (apiKey : string) (out : list (string * JSValue)) :
  getCurrentWeatherData rt apiKey (JObj out)
  = callWeatherAPI rt "/current.json" apiKey
      [("q", value_of out "location"); ("lang", value_of out "language")].
Proof.
  unfold getCurrentWeatherData, value_of. cbn [Get].
  destruct (own_prop out "location"), (own_prop out "language"); cbn [native];
    rewrite !bind_ret; reflexivity.
Qed.

Lemma getWeatherForecastData_eq (apiKey : string) (out : list (string * JSValue)) :
  getWeatherForecastData rt apiKey (JObj out)
  = callWeatherAPI rt "/forecast.json" apiKey
      [("q", value_of out "location"); ("days", value_of out "days");
       ("lang", value_of out "language")].
Proof.
  unfold getWeatherForecastData, value_of. cbn [Get].
  destruct (own_prop out "location"), (own_prop out "days"), (own_prop out "language");
    cbn [native]; rewrite !bind_ret; reflexivity.
Qed.

Lemma searchLocationsData_eq (apiKey : string) (out : list (string * JSValue)) :
  searchLocationsData rt apiKey (JObj out)
  = callWeatherAPI rt "/search.json" apiKey [("q", value_of out "query")].
Proof.
  unfold searchLocationsData, value_of. cbn [Get].
  destruct (own_prop out "query"); cbn [native]; rewrite !bind_ret; reflexivity.
Qed.

(** The requests of a handler are those of its data function: validation
    before it and formatting after it issue none. *)
Lemma getCurrentWeather_trace (apiKey : string) (input : JSValue) :
  trace (getCurrentWeather rt apiKey input)
  = match outcome (parse getCurrentWeatherSchema input) with
    | inr validated => trace (getCurrentWeatherData rt apiKey validated)
    | inl _ => []
    end.
Proof.
  unfold getCurrentWeather. rewrite trace_bind_eq, parse_trace. cbn [app].
  destruct (outcome (parse getCurrentWeatherSchema input)) as [e | validated];
    [reflexivity |].
  rewrite trace_bind_eq.
  destruct (outcome (getCurrentWeatherData rt apiKey validated)) as [e | result];
    [apply app_nil_r |].
  replace (trace (_ <- native (Get result "location") ;; _)) with (@nil URL);
    [apply app_nil_r |].
  symmetry. pure_chain.
Qed.

Lemma getWeatherForecast_trace (apiKey : string) (input : JSValue) :
  trace (getWeatherForecast rt apiKey input)
  = match outcome (parse getWeatherForecastSchema (inputWithDefaults input)) with
    | inr validated => trace (getWeatherForecastData rt apiKey validated)
    | inl _ => []
    end.
Proof.
  unfold getWeatherForecast. rewrite trace_bind_eq, parse_trace. cbn [app].
  destruct (outcome (parse getWeatherForecastSchema (inputWithDefaults input)))
    as [e | validated]; [reflexivity |].
  rewrite trace_bind_eq.
  destruct (outcome (getWeatherForecastData rt apiKey validated)) as [e | result];
    [apply app_nil_r |].
  replace (trace (_ <- native (Get result "location") ;; _)) with (@nil URL);
    [apply app_nil_r |].
  symmetry. pure_chain.
  apply trace_bind; [| reflexivity].
  apply forEach_trace. apply forecast_line_trace.
Qed.

Lemma searchLocations_trace (apiKey : string) (input : JSValue) :
  trace (searchLocations rt apiKey input)
  = match outcome (parse searchLocationsSchema input) with
    | inr validated => trace (searchLocationsData rt apiKey validated)
    | inl _ => []
    end.
Proof.
  unfold searchLocations. rewrite trace_bind_eq, parse_trace. cbn [app].
  destruct (outcome (parse searchLocationsSchema input)) as [e | validated];
    [reflexivity |].
  rewrite trace_bind_eq.
  destruct (outcome (searchLocationsData rt apiKey validated)) as [e | result];
    [apply app_nil_r |].
  replace (trace (_ <- interpolate rt result ["length"] ;; _)) with (@nil URL);
    [apply app_nil_r |].
  symmetry. pure_chain.
  apply trace_bind; [| reflexivity].
  apply forEach_trace. apply location_line_trace.
Qed.

End Requests.

(** The request of the client, for parameters with distinct names other
    than [key] and primitive values. *)
Lemma callWeatherAPI_issues (rt : Runtime) (endpoint apiKey : string)
    (params : list (string * JSValue)) :
  NoDup (map fst params) ->
  ~ In "key" (map fst params) ->
  forallb primitive (map snd params) = true ->
  trace (callWeatherAPI rt endpoint apiKey params)
  = [mkURL (WEATHER_API_BASE ++ endpoint) (("key", apiKey) :: query_pairs rt params)].
Proof.
  intros Hnodup Hkey Hprim. rewrite callWeatherAPI_trace.
  rewrite (add_params_query rt params _ Hnodup); [reflexivity | | exact Hprim].
  intros k Hk. unfold url_set. cbn [searchParams searchParams_set param].
  destruct ("key" =? k)%string eqn:E; [| reflexivity].
  apply String.eqb_eq in E. subst k. contradiction.
Qed.

(** X1. Query construction. When the parameter names are distinct, none
    is [key], and the values are primitives, the client issues exactly
    one request, whatever the upstream answers: to the base URL followed
    by the endpoint, with the credential as [key] and then one pair per
    parameter that is neither undefined nor null, in order. *)
Theorem callWeatherAPI_request (rt : Runtime) (endpoint apiKey : string)
    (params : list (string * JSValue)) :
  NoDup (map fst params) ->
  ~ In "key" (map fst params) ->
  forallb primitive (map snd params) = true ->
  trace (callWeatherAPI rt endpoint apiKey params)
  = [mkURL (WEATHER_API_BASE ++ endpoint) (("key", apiKey) :: query_pairs rt params)].
Proof.
  intros Hnodup Hkey Hprim. apply callWeatherAPI_issues; assumption.
Qed.

Lemma callWeatherAPI_request_witness :
  trace (callWeatherAPI offline "/forecast.json" "secret"
           [("q", JStr "Oslo"); ("days", JInt 2); ("lang", JUndefined)])
  = [mkURL (WEATHER_API_BASE ++ "/forecast.json")
       (("key", "secret")
        :: query_pairs offline [("q", JStr "Oslo"); ("days", JInt 2); ("lang", JUndefined)])].
Proof.
  apply (callWeatherAPI_request offline "/forecast.json" "secret"
           [("q", JStr "Oslo"); ("days", JInt 2); ("lang", JUndefined)]).
  - repeat constructor; cbn; intuition discriminate.
  - cbn. intuition discriminate.
  - reflexivity.
Defined.

Section ToolRequests.

Variable rt : Runtime.

Lemma handler_addressed (apiKey endpoint : string) (params : list (string * JSValue)) :
  In endpoint endpoints ->
  existsb (String.eqb "key") (map fst params) = false ->
  trace (callWeatherAPI rt endpoint apiKey params) = []
  \/ exists url, trace (callWeatherAPI rt endpoint apiKey params) = [url]
                 /\ addressed_with apiKey url.
Proof.
  intros Hin Hkey. rewrite callWeatherAPI_trace.
  destruct (outcome (add_params rt _ params)) as [e | url] eqn:Hrun; [left; reflexivity |].
  right. exists url. split; [reflexivity |].
  destruct (add_params_keeps rt params _ url "key" Hkey Hrun) as [Hh Hp].
  split.
  - exists endpoint. split; [exact Hin | exact Hh].
  - rewrite Hp. reflexivity.
Qed.

(** Each registered handler issues no request when validation fails, and
    otherwise at most one, addressed to the upstream with the credential. *)
Lemma registered_handler_trace (key apiKey : string) (args : JSValue)
    (h : Runtime -> string -> JSValue -> Async JSValue) :
  own_handler allTools key = Some h ->
  (rejected key args = true /\ trace (h rt apiKey args) = [])
  \/ (rejected key args = false
      /\ (trace (h rt apiKey args) = []
          \/ exists url, trace (h rt apiKey args) = [url] /\ addressed_with apiKey url)).
Proof.
  unfold allTools, own_handler.
  destruct ("getCurrentWeather" =? key)%string eqn:E1;
    [| destruct ("getWeatherForecast" =? key)%string eqn:E2;
       [| destruct ("searchLocations" =? key)%string eqn:E3; [| discriminate]]];
    intros Hh; inversion Hh; subst h; clear Hh;
    match goal with
    | E : (_ =? key)%string = true |- _ => apply String.eqb_eq in E; subst key
    end; unfold rejected, validation; cbn [String.eqb Ascii.eqb Bool.eqb]; cbn match.
  - rewrite getCurrentWeather_trace.
    destruct (parse_cases getCurrentWeatherSchema args) as [(out & H & _) | (issues & H)];
      rewrite H; cbn [outcome snd ret throw]; [right | left; auto].
    split; [reflexivity |]. rewrite getCurrentWeatherData_eq.
    apply handler_addressed; [cbn; auto | reflexivity].
  - rewrite getWeatherForecast_trace.
    destruct (parse_cases getWeatherForecastSchema (inputWithDefaults args))
      as [(out & H & _) | (issues & H)];
      rewrite H; cbn [outcome snd ret throw]; [right | left; auto].
    split; [reflexivity |]. rewrite getWeatherForecastData_eq.
    apply handler_addressed; [cbn; auto | reflexivity].
  - rewrite searchLocations_trace.
    destruct (parse_cases searchLocationsSchema args) as [(out & H & _) | (issues & H)];
      rewrite H; cbn [outcome snd ret throw]; [right | left; auto].
    split; [reflexivity |]. rewrite searchLocationsData_eq.
    apply handler_addressed; [cbn; auto | reflexivity].
Qed.

Lemma try_catch_trace {A : Type} (body : Async A) (g : Exn -> A) :
  trace (try_catch body (fun e => ret (g e))) = trace body.
Proof.
  unfold try_catch, trace. destruct body as [t [e | a]]; cbn; [apply app_nil_r | reflexivity].
Qed.

Lemma call_builtin_trace (member apiKey : string) (args : JSValue) :
  trace (call_builtin member apiKey args) = [].
Proof.
  unfold call_builtin.
  repeat match goal with
         | |- context [if ?c then _ else _] => destruct c
         end; reflexivity.
Qed.

Lemma call_tool_trace (id : JSValue) (tool : Slot) (apiKey : string) (args : JSValue) :
  trace (call_tool rt id tool apiKey args) = trace (invoke rt tool apiKey args).
Proof.
  unfold call_tool. rewrite try_catch_trace, trace_bind_eq.
  destruct (outcome (invoke rt tool apiKey args)); apply app_nil_r.
Qed.

End ToolRequests.

(** X2. Upstream requests of the dispatcher. One dispatch issues at most
    one upstream request; it issues one only for a [tools/call] that names
    a registered tool, comes with a non-empty credential and passes
    validation; and that request goes to one of the three endpoints under
    the base URL with the caller's credential as its [key]. *)
Theorem handleMCPRequest_requests (rt : Runtime) (request : MCPRequest)
    (apiKey : option string) :
  trace (handleMCPRequest rt request apiKey) = []
  \/ exists url key k,
       trace (handleMCPRequest rt request apiKey) = [url]
       /\ req_method request = "tools/call"
       /\ ToString rt (call_name request) = Some key
       /\ registered key = true
       /\ apiKey = Some k /\ k <> EmptyString
       /\ rejected key (call_arguments request) = false
       /\ addressed_with k url.
Proof.
  unfold handleMCPRequest. rewrite try_catch_trace.
  destruct (req_method request =? "initialize")%string; [left; reflexivity |].
  destruct (req_method request =? "tools/list")%string; [left; reflexivity |].
  destruct (req_method request =? "tools/call")%string eqn:Hm; [| left; reflexivity].
  apply String.eqb_eq in Hm. rewrite tools_call_eq.
  destruct (ToString rt (call_name request)) as [key |] eqn:Hk; [| left; reflexivity].
  unfold dispatch_tool, allTools_get.
  destruct (own_handler allTools key) as [h |] eqn:Hh.
  - destruct apiKey as [[| c k] |]; [left; reflexivity | | left; reflexivity].
    rewrite call_tool_trace. cbn [invoke].
    destruct (registered_handler_trace rt key (String c k) (call_arguments request) h Hh)
      as [[_ Ht] | [Hrej [Ht | (url & Ht & Haddr)]]]; [left; exact Ht | left; exact Ht |].
    right. exists url, key, (String c k).
    repeat match goal with |- _ /\ _ => split end; auto; try discriminate.
    destruct (registered key) eqn:Hr; [reflexivity |].
    rewrite (unregistered_no_handler key Hr) in Hh. discriminate.
  - destruct (existsb (String.eqb key) Object_prototype); [| left; reflexivity].
    destruct apiKey as [[| c k] |]; [left; reflexivity | | left; reflexivity].
    left. rewrite call_tool_trace. apply call_builtin_trace.
Qed.

(** ** What each tool asks of the upstream *)

(** X3. [getCurrentWeather] on arguments with a string [location] and an
    optional string [language] issues exactly one request, to
    [/current.json], with [q] set to the location and [lang] set to the
    language when there is one, whatever other properties the arguments
    have. *)
Theorem getCurrentWeather_request (rt : Runtime) (apiKey : string)
    (props : list (string * JSValue)) (location : string) (language : option string) :
  own_prop props "location" = Some (JStr location) ->
  own_prop props "language" = option_map JStr language ->
  trace (getCurrentWeather rt apiKey (JObj props))
  = [mkURL (WEATHER_API_BASE ++ "/current.json")
       (("key", apiKey) :: ("q", location)
        :: match language with Some l => [("lang", l)] | None => [] end)].
Proof.
  intros Hloc Hlang. rewrite getCurrentWeather_trace.
  unfold parse. cbn [zod_fields getCurrentWeatherSchema]. unfold value_of, has_own.
  rewrite Hloc, Hlang.
  destruct language as [l |]; cbn [option_map zod_check app outcome snd ret];
    rewrite getCurrentWeatherData_eq; rewrite callWeatherAPI_issues;
    try reflexivity;
    try (repeat constructor; cbn; intuition discriminate);
    cbn; intuition discriminate.
Qed.

Lemma getCurrentWeather_request_witness :
  trace (getCurrentWeather offline "secret"
           (JObj [("language", JStr "fr"); ("units", JStr "metric");
                  ("location", JStr "Lyon")]))
  = [mkURL (WEATHER_API_BASE ++ "/current.json")
       [("key", "secret"); ("q", "Lyon"); ("lang", "fr")]].
Proof.
  apply (getCurrentWeather_request offline "secret"
           [("language", JStr "fr"); ("units", JStr "metric"); ("location", JStr "Lyon")]
           "Lyon" (Some "fr")); reflexivity.
Defined.

(** X4. [getWeatherForecast] on arguments with a string [location], an
    optional string [language] and [days] either absent or an integer
    from 1 to 3 issues exactly one request, to [/forecast.json], whose
    [days] is the decimal of the given number, or [3] when absent. *)
Theorem getWeatherForecast_request (rt : Runtime) (apiKey : string)
    (props : list (string * JSValue)) (location : string) (days : option Z)
    (language : option string) :
  own_prop props "location" = Some (JStr location) ->
  own_prop props "days" = option_map JInt days ->
  own_prop props "language" = option_map JStr language ->
  match days with Some d => 1 <= d <= 3 | None => True end ->
  trace (getWeatherForecast rt apiKey (JObj props))
  = [mkURL (WEATHER_API_BASE ++ "/forecast.json")
       (("key", apiKey) :: ("q", location)
        :: ("days", decimal match days with Some d => d | None => 3 end)
        :: match language with Some l => [("lang", l)] | None => [] end)].
Proof.
  intros Hloc Hdays Hlang Hrange. rewrite getWeatherForecast_trace.
  unfold parse, inputWithDefaults. cbn [zod_fields getWeatherForecastSchema].
  unfold value_of, has_own. rewrite !own_prop_spread. cbn [own_enumerable].
  rewrite Hloc, Hdays, Hlang.
  assert (Hd : match days with Some d => d = 1 \/ d = 2 \/ d = 3 | None => True end)
    by (destruct days; [lia | exact I]).
  clear Hrange.
  destruct days as [d |]; [destruct Hd as [-> | [-> | ->]] |];
    destruct language as [l |];
    cbn [option_map own_prop String.eqb Ascii.eqb Bool.eqb];
    cbn match;
    match goal with
    | |- context [zod_check (ZDefault ?t ?dv) ?p ?v] =>
        let r := eval vm_compute in (zod_check (ZDefault t dv) p v) in
        change (zod_check (ZDefault t dv) p v) with r
    end;
    cbn [zod_check app outcome snd ret];
    rewrite getWeatherForecastData_eq; rewrite callWeatherAPI_issues;
    try reflexivity;
    try (repeat constructor; cbn; intuition discriminate);
    cbn; intuition discriminate.
Qed.

Lemma getWeatherForecast_request_witness :
  trace (getWeatherForecast offline "secret"
           (JObj [("location", JStr "Lyon"); ("days", JInt 2)]))
  = [mkURL (WEATHER_API_BASE ++ "/forecast.json")
       [("key", "secret"); ("q", "Lyon"); ("days", "2")]].
Proof.
  apply (getWeatherForecast_request offline "secret"
           [("location", JStr "Lyon"); ("days", JInt 2)] "Lyon" (Some 2) None);
    try reflexivity.
  cbn. lia.
Defined.

(** X5. [searchLocations] on arguments with a string [query] issues
    exactly one request, to [/search.json], with [q] set to the query. *)
Theorem searchLocations_request (rt : Runtime) (apiKey : string)
    (props : list (string * JSValue)) (query : string) :
  own_prop props "query" = Some (JStr query) ->
  trace (searchLocations rt apiKey (JObj props))
  = [mkURL (WEATHER_API_BASE ++ "/search.json") [("key", apiKey); ("q", query)]].
Proof.
  intros Hq. rewrite searchLocations_trace.
  unfold parse. cbn [zod_fields searchLocationsSchema]. unfold value_of, has_own.
  rewrite Hq. cbn [zod_check app outcome snd ret].
  rewrite searchLocationsData_eq, callWeatherAPI_issues; try reflexivity.
  - repeat constructor. cbn. intuition discriminate.
  - cbn. intuition discriminate.
Qed.

Lemma searchLocations_request_witness :
  trace (searchLocations offline "secret" (JObj [("query", JStr "Albu")]))
  = [mkURL (WEATHER_API_BASE ++ "/search.json") [("key", "secret"); ("q", "Albu")]].
Proof.
  apply (searchLocations_request offline "secret" [("query", JStr "Albu")] "Albu").
  reflexivity.
Defined.

(** ** The summaries *)

Lemma append_assoc (a b c : string) : ((a ++ b) ++ c = a ++ (b ++ c))%string.
Proof. induction a as [| x a IH]; cbn; [reflexivity | rewrite IH; reflexivity]. Qed.

Lemma append_nil_r (a : string) : (a ++ EmptyString)%string = a.
Proof. induction a as [| x a IH]; cbn; [reflexivity | rewrite IH; reflexivity]. Qed.

Lemma outcome_bind {A B : Type} (m : Async A) (f : A -> Async B) :
  outcome (bind m f)
  = match outcome m with
    | inr a => outcome (f a)
    | inl e => inl e
    end.
Proof.
  unfold outcome, bind. destruct m as [t [e | a]]; cbn; [reflexivity |].
  destruct (f a) as [t' r]. reflexivity.
Qed.

(** An integer up to 2^53 prints as its decimal digits. *)
Lemma Number_toString_integer (rt : Runtime) (z : Z) :
  Z.abs z <= 9007199254740992 ->
  Number_toString rt (Finite (inject_Z z)) = decimal z.
Proof.
  intros Hz. unfold Number_toString, safe_integer.
  rewrite Qred_identity by (cbn; apply Z.gcd_1_r).
  cbn [inject_Z Qnum Qden]. apply Z.leb_le in Hz. rewrite Hz. reflexivity.
Qed.

Section Summaries.

Variable rt : Runtime.

Lemma each_forecast_lines (ds : list (string * string * JSNumber * JSNumber))
    (summary : string) :
  each (map day_value ds) (forecast_line rt) summary
  = ret (summary ++ lines (map (day_line rt) ds))%string.
Proof.
  revert summary. induction ds as [| [[[date condition] hi] lo] rest IH]; intros summary.
  - cbn. rewrite append_nil_r. reflexivity.
  - cbn [map each].
    assert (Hline : forecast_line rt (day_value (date, condition, hi, lo))
                    = ret (day_line rt (date, condition, hi, lo))) by reflexivity.
    rewrite Hline, bind_ret, IH. cbn [lines fold_right].
    rewrite append_assoc. reflexivity.
Qed.

Lemma each_match_lines (ls : list (string * string * string * JSNumber * JSNumber))
    (summary : string) :
  each (map match_value ls) (location_line rt) summary
  = ret (summary ++ lines (map (match_line rt) ls))%string.
Proof.
  revert summary. induction ls as [| [[[[name region] country] lat] lon] rest IH];
    intros summary.
  - cbn. rewrite append_nil_r. reflexivity.
  - cbn [map each].
    assert (Hline : location_line rt (match_value (name, region, country, lat, lon))
                    = ret (match_line rt (name, region, country, lat, lon))) by reflexivity.
    rewrite Hline, bind_ret, IH. cbn [lines fold_right].
    rewrite append_assoc. reflexivity.
Qed.

End Summaries.

(** X6. The search summary. When the upstream answers the search with an
    array of matches, the summary is the header [Found N locations
    matching "query":], N being the number of matches, followed by one
    line [name, region, country (lat, lon)] per match in the order of the
    upstream; with no match the summary is the header alone. The second
    entry serializes the array. *)
Theorem searchLocations_summary (rt : Runtime) (apiKey : string)
    (props : list (string * JSValue)) (query : string) (r : Response)
    (ls : list (string * string * string * JSNumber * JSNumber)) :
  own_prop props "query" = Some (JStr query) ->
  fetch rt (mkURL (WEATHER_API_BASE ++ "/search.json") [("key", apiKey); ("q", query)])
    = Responded r ->
  ok r = true ->
  JSON_parse rt (rtext r) = Some (JArr (map match_value ls)) ->
  Z.of_nat (List.length ls) <= 9007199254740992 ->
  outcome (searchLocations rt apiKey (JObj props))
  = inr (tool_result rt
           ("Found " ++ decimal (Z.of_nat (List.length ls)) ++ " locations matching "
            ++ dquote ++ query ++ dquote ++ ":" ++ newline
            ++ lines (map (match_line rt) ls))%string
           (JArr (map match_value ls))).
Proof.
  intros Hq Hfetch Hok Hjson Hlen. unfold searchLocations.
  assert (Hparse : parse searchLocationsSchema (JObj props)
                   = ret (JObj [("query", JStr query)])).
  { unfold parse. cbn [zod_fields searchLocationsSchema]. unfold value_of, has_own.
    rewrite Hq. reflexivity. }
  rewrite Hparse, bind_ret, searchLocationsData_eq.
  change (value_of [("query", JStr query)] "query") with (JStr query).
  rewrite (callWeatherAPI_ok rt "/search.json" apiKey [("q", JStr query)] _ r eq_refl Hfetch Hok).
  rewrite Hjson, outcome_bind. cbn [outcome snd].
  unfold interpolate. cbn [read Get native String.eqb Ascii.eqb Bool.eqb].
  rewrite !bind_ret. unfold text_of at 1. unfold JInt. cbn [ToString].
  rewrite length_map, (Number_toString_integer rt _) by lia.
  rewrite bind_ret. cbn [own_prop String.eqb Ascii.eqb Bool.eqb]. cbn match.
  cbn [native]. rewrite !bind_ret. unfold text_of. cbn [ToString]. rewrite bind_ret.
  cbn [forEach]. rewrite each_match_lines, bind_ret. cbn [outcome snd ret].
  rewrite !append_assoc. reflexivity.
Qed.

Lemma getWeatherForecast_validated (props : list (string * JSValue)) (location : string)
    (days : option Z) (language : option string) :
  own_prop props "location" = Some (JStr location) ->
  own_prop props "days" = option_map JInt days ->
  own_prop props "language" = option_map JStr language ->
  match days with Some d => 1 <= d <= 3 | None => True end ->
  parse getWeatherForecastSchema (inputWithDefaults (JObj props))
  = ret (JObj (("location", JStr location)
               :: ("days", JInt match days with Some d => d | None => 3 end)
               :: match language with Some l => [("language", JStr l)] | None => [] end)).
Proof.
  intros Hloc Hdays Hlang Hrange.
  unfold parse, inputWithDefaults. cbn [zod_fields getWeatherForecastSchema].
  unfold value_of, has_own. rewrite !own_prop_spread. cbn [own_enumerable].
  rewrite Hloc, Hdays, Hlang.
  assert (Hd : match days with Some d => d = 1 \/ d = 2 \/ d = 3 | None => True end)
    by (destruct days; [lia | exact I]).
  clear Hrange.
  destruct days as [d |]; [destruct Hd as [-> | [-> | ->]] |];
    destruct language as [l |]; reflexivity.
Qed.

(** X7. The forecast summary. The header names the number of days that
    was asked for (3 when none was), whatever the number of days the
    upstream sends; one line [date: condition, High: max°C, Low: min°C]
    per day sent follows, in the order of the upstream. *)
Theorem getWeatherForecast_summary (rt : Runtime) (apiKey : string)
    (props : list (string * JSValue)) (location : string) (days : option Z)
    (language : option string) (r : Response) (name country : string)
    (ds : list (string * string * JSNumber * JSNumber)) :
  own_prop props "location" = Some (JStr location) ->
  own_prop props "days" = option_map JInt days ->
  own_prop props "language" = option_map JStr language ->
  match days with Some d => 1 <= d <= 3 | None => True end ->
  fetch rt (mkURL (WEATHER_API_BASE ++ "/forecast.json")
              (("key", apiKey) :: ("q", location)
               :: ("days", decimal match days with Some d => d | None => 3 end)
               :: match language with Some l => [("lang", l)] | None => [] end))
    = Responded r ->
  ok r = true ->
  JSON_parse rt (rtext r) = Some (forecast_payload name country (map day_value ds)) ->
  outcome (getWeatherForecast rt apiKey (JObj props))
  = inr (tool_result rt
           (decimal match days with Some d => d | None => 3 end
            ++ "-day forecast for " ++ name ++ ", " ++ country ++ ":" ++ newline
            ++ lines (map (day_line rt) ds))%string
           (forecast_payload name country (map day_value ds))).
Proof.
  intros Hloc Hdays Hlang Hrange Hfetch Hok Hjson. unfold getWeatherForecast.
  rewrite (getWeatherForecast_validated props location days language Hloc Hdays Hlang Hrange).
  rewrite bind_ret, getWeatherForecastData_eq.
  assert (Hd : Z.abs match days with Some d => d | None => 3 end <= 9007199254740992)
    by (destruct days; lia).
  set (e := match days with Some d => d | None => 3 end) in *.
  assert (Hcall : forall lang : JSValue,
            lang = match language with Some l => JStr l | None => JUndefined end ->
            callWeatherAPI rt "/forecast.json" apiKey
              [("q", JStr location); ("days", JInt e); ("lang", lang)]
            = ([mkURL (WEATHER_API_BASE ++ "/forecast.json")
                  (("key", apiKey) :: ("q", location) :: ("days", decimal e)
                   :: match language with Some l => [("lang", l)] | None => [] end)],
               inr (forecast_payload name country (map day_value ds)))).
  { intros lang ->.
    rewrite (callWeatherAPI_ok rt "/forecast.json" apiKey _
               (mkURL (WEATHER_API_BASE ++ "/forecast.json")
                  (("key", apiKey) :: ("q", location) :: ("days", decimal e)
                   :: match language with Some l => [("lang", l)] | None => [] end))
               r); try assumption.
    - rewrite Hjson. reflexivity.
    - rewrite add_params_query.
      + unfold query_pairs, JInt. cbn [flat_map fst snd ToString app].
        rewrite (Number_toString_integer rt e Hd).
        destruct language; reflexivity.
      + repeat constructor; cbn; intuition discriminate.
      + intros k Hk. unfold url_set. cbn [searchParams searchParams_set param].
        destruct ("key" =? k)%string eqn:E; [| reflexivity].
        apply String.eqb_eq in E. subst k. cbn in Hk. intuition discriminate.
      + destruct language; reflexivity. }
  replace (value_of _ "location") with (JStr location) by reflexivity.
  replace (value_of _ "days") with (JInt e) by reflexivity.
  rewrite (Hcall _) by (destruct language; reflexivity).
  rewrite outcome_bind. cbn [outcome snd].
  unfold forecast_payload, interpolate.
  cbn [read Get native own_prop String.eqb Ascii.eqb Bool.eqb]. cbn match.
  rewrite !bind_ret. cbn [read Get native own_prop String.eqb Ascii.eqb Bool.eqb]. cbn match.
  rewrite !bind_ret.
  unfold text_of at 1. unfold JInt at 1. cbn [ToString].
  rewrite (Number_toString_integer rt e Hd), bind_ret.
  unfold text_of. cbn [ToString]. rewrite !bind_ret.
  cbn [forEach]. rewrite each_forecast_lines, bind_ret. cbn [outcome snd ret].
  rewrite !append_assoc. reflexivity.
Qed.

Lemma searchLocations_summary_witness :
  outcome (searchLocations
             (serving (JArr (map match_value
                               [("Albuquerque", "New Mexico", "USA",
                                 Finite (inject_Z 35), Finite (inject_Z (-106)))])))
             "secret" (JObj [("query", JStr "Albu")]))
  = inr (tool_result
           (serving (JArr (map match_value
                             [("Albuquerque", "New Mexico", "USA",
                               Finite (inject_Z 35), Finite (inject_Z (-106)))])))
           ("Found " ++ decimal 1 ++ " locations matching " ++ dquote ++ "Albu" ++ dquote
            ++ ":" ++ newline
            ++ lines (map (match_line
                             (serving (JArr (map match_value
                                [("Albuquerque", "New Mexico", "USA",
                                  Finite (inject_Z 35), Finite (inject_Z (-106)))]))))
                          [("Albuquerque", "New Mexico", "USA",
                            Finite (inject_Z 35), Finite (inject_Z (-106)))]))%string
           (JArr (map match_value
                    [("Albuquerque", "New Mexico", "USA",
                      Finite (inject_Z 35), Finite (inject_Z (-106)))]))).
Proof.
  apply (searchLocations_summary
           (serving (JArr (map match_value
                             [("Albuquerque", "New Mexico", "USA",
                               Finite (inject_Z 35), Finite (inject_Z (-106)))])))
           "secret" [("query", JStr "Albu")] "Albu" (mkResponse 200 "OK" "payload")
           [("Albuquerque", "New Mexico", "USA",
             Finite (inject_Z 35), Finite (inject_Z (-106)))]);
    try reflexivity.
  cbn. lia.
Defined.

Lemma getWeatherForecast_summary_witness :
  outcome (getWeatherForecast
             (serving (forecast_payload "Oslo" "Norway"
                         (map day_value
                            [("2025-01-01", "Snow", Finite (inject_Z (-1)),
                              Finite (inject_Z (-7)))])))
             "secret" (JObj [("location", JStr "Oslo")]))
  = inr (tool_result
           (serving (forecast_payload "Oslo" "Norway"
                       (map day_value
                          [("2025-01-01", "Snow", Finite (inject_Z (-1)),
                            Finite (inject_Z (-7)))])))
           (decimal 3 ++ "-day forecast for " ++ "Oslo" ++ ", " ++ "Norway" ++ ":" ++ newline
            ++ lines (map (day_line
                             (serving (forecast_payload "Oslo" "Norway"
                                (map day_value
                                   [("2025-01-01", "Snow", Finite (inject_Z (-1)),
                                     Finite (inject_Z (-7)))]))))
                          [("2025-01-01", "Snow", Finite (inject_Z (-1)),
                            Finite (inject_Z (-7)))]))%string
           (forecast_payload "Oslo" "Norway"
              (map day_value
                 [("2025-01-01", "Snow", Finite (inject_Z (-1)), Finite (inject_Z (-7)))]))).
Proof.
  apply (getWeatherForecast_summary
           (serving (forecast_payload "Oslo" "Norway"
                       (map day_value
                          [("2025-01-01", "Snow", Finite (inject_Z (-1)),
                            Finite (inject_Z (-7)))])))
           "secret" [("location", JStr "Oslo")] "Oslo" None None
           (mkResponse 200 "OK" "payload") "Oslo" "Norway"
           [("2025-01-01", "Snow", Finite (inject_Z (-1)), Finite (inject_Z (-7)))]);
    try reflexivity.
Defined.

(** The forecast of the witness reads as the source formats it. *)
Example forecast_summary_text :
  summary_of
    (match outcome (getWeatherForecast
                      (serving (forecast_payload "Oslo" "Norway"
                                  (map day_value
                                     [("2025-01-01", "Snow", Finite (inject_Z (-1)),
                                       Finite (inject_Z (-7)))])))
                      "secret" (JObj [("location", JStr "Oslo")]))
     with inr v => v | inl _ => JNull end)
  = Some (JStr ("3-day forecast for Oslo, Norway:" ++ newline
                ++ "2025-01-01: Snow, High: -1°C, Low: -7°C" ++ newline)%string).
Proof. reflexivity. Qed.

(** ** Failures of the upstream, seen from the dispatcher *)

Lemma zod_check_primitive (t : ZodType) (path : list string) (v x : JSValue) :
  primitive_defaults t = true ->
  zod_check t path v = inr x ->
  primitive x = true.
Proof.
  revert v. induction t as [| checks | inner IH | inner IH d]; intros v Hd; cbn.
  - destruct v; intros H; inversion H; reflexivity.
  - destruct v as [| | b | [| neg | q] | s | items | props];
      try (intros H; discriminate H).
    destruct (flat_map (check_number path q) checks); intros H; inversion H; reflexivity.
  - destruct v; try (apply IH; exact Hd). intros H; inversion H; reflexivity.
  - cbn in Hd. apply andb_true_iff in Hd. destruct Hd as [Hprim Hd].
    destruct v; try (apply IH; exact Hd). intros H; inversion H; subst. exact Hprim.
Qed.

(** Validated input holds primitives only. *)
Lemma zod_fields_primitive (shape : ZodObject) (props : list (string * JSValue))
    (issues : list ZodIssue) (out : list (string * JSValue)) (k : string) :
  forallb (fun f => primitive_defaults (snd f)) shape = true ->
  zod_fields shape props = (issues, out) ->
  primitive (value_of out k) = true.
Proof.
  revert issues out. induction shape as [| [k0 t0] rest IH]; intros issues out Hd Hrun.
  - cbn in Hrun. inversion Hrun. reflexivity.
  - cbn [forallb snd] in Hd. apply andb_true_iff in Hd. destruct Hd as [Hd0 Hd].
    cbn [zod_fields] in Hrun.
    destruct (zod_fields rest props) as [issues' out'] eqn:Hrest.
    specialize (IH issues' out' Hd eq_refl).
    destruct (zod_check t0 [k0] (value_of props k0)) as [i | x] eqn:Hcheck.
    + inversion Hrun; subst. exact IH.
    + pose proof (zod_check_primitive t0 [k0] _ x Hd0 Hcheck) as Hx.
      assert (Hcons : primitive (value_of ((k0, x) :: out') k) = true).
      { unfold value_of in *. cbn [own_prop].
        destruct (k0 =? k)%string; [exact Hx | exact IH]. }
      destruct x; inversion Hrun; subst; try exact Hcons.
      destruct (has_own props k0); [exact Hcons | exact IH].
Qed.

Section UpstreamFailures.

Variable rt : Runtime.

Lemma query_built (endpoint apiKey : string) (params : list (string * JSValue)) :
  NoDup (map fst params) ->
  ~ In "key" (map fst params) ->
  forallb primitive (map snd params) = true ->
  exists url,
    outcome (add_params rt (url_set (mkURL (WEATHER_API_BASE ++ endpoint) []) "key" apiKey)
               params) = inr url.
Proof.
  intros Hnodup Hkey Hprim. eexists. rewrite add_params_query; [reflexivity | | |]; auto.
  intros k Hk. unfold url_set. cbn [searchParams searchParams_set param].
  destruct ("key" =? k)%string eqn:E; [| reflexivity].
  apply String.eqb_eq in E. subst k. contradiction.
Qed.

(** A registered handler whose arguments pass validation reaches the
    client, with a query that can be built. *)
Lemma handler_calls_upstream (key apiKey : string) (args : JSValue) :
  registered key = true ->
  rejected key args = false ->
  exists h endpoint params url tail,
    own_handler allTools key = Some h
    /\ h rt apiKey args = bind (callWeatherAPI rt endpoint apiKey params) tail
    /\ outcome (add_params rt
                  (url_set (mkURL (WEATHER_API_BASE ++ endpoint) []) "key" apiKey) params)
       = inr url.
Proof.
  unfold registered, existsb. rewrite !orb_true_iff, !String.eqb_eq.
  intros [-> | [-> | [-> | H]]]; [| | | discriminate];
    unfold rejected, validation; cbn [String.eqb Ascii.eqb Bool.eqb]; cbn match;
    intros Hrej.
  - destruct (parse_cases getCurrentWeatherSchema args)
      as [(out & H & props & _ & Hf) | (issues & H)];
      rewrite H in Hrej; [| discriminate].
    destruct (query_built "/current.json" apiKey
                [("q", value_of out "location"); ("lang", value_of out "language")])
      as [url Hurl].
    + repeat constructor; cbn; intuition discriminate.
    + cbn. intuition discriminate.
    + cbn [map snd forallb].
      rewrite !(zod_fields_primitive getCurrentWeatherSchema props [] out _ eq_refl Hf).
      reflexivity.
    + eexists getCurrentWeather, _, _, url, _. split; [reflexivity |]. split; [| exact Hurl].
      unfold getCurrentWeather. rewrite H, bind_ret, getCurrentWeatherData_eq. reflexivity.
  - destruct (parse_cases getWeatherForecastSchema (inputWithDefaults args))
      as [(out & H & props & _ & Hf) | (issues & H)];
      rewrite H in Hrej; [| discriminate].
    destruct (query_built "/forecast.json" apiKey
                [("q", value_of out "location"); ("days", value_of out "days");
                 ("lang", value_of out "language")])
      as [url Hurl].
    + repeat constructor; cbn; intuition discriminate.
    + cbn. intuition discriminate.
    + cbn [map snd forallb].
      rewrite !(zod_fields_primitive getWeatherForecastSchema props [] out _ eq_refl Hf).
      reflexivity.
    + eexists getWeatherForecast, _, _, url, _. split; [reflexivity |]. split; [| exact Hurl].
      unfold getWeatherForecast. rewrite H, bind_ret, getWeatherForecastData_eq. reflexivity.
  - destruct (parse_cases searchLocationsSchema args)
      as [(out & H & props & _ & Hf) | (issues & H)];
      rewrite H in Hrej; [| discriminate].
    destruct (query_built "/search.json" apiKey [("q", value_of out "query")])
      as [url Hurl].
    + repeat constructor; cbn; intuition discriminate.
    + cbn. intuition discriminate.
    + cbn [map snd forallb].
      rewrite !(zod_fields_primitive searchLocationsSchema props [] out _ eq_refl Hf).
      reflexivity.
    + eexists searchLocations, _, _, url, _. split; [reflexivity |]. split; [| exact Hurl].
      unfold searchLocations. rewrite H, bind_ret, searchLocationsData_eq. reflexivity.
Qed.

End UpstreamFailures.

Lemma tool_call_failure (rt : Runtime) (request : MCPRequest) (apiKey key : string)
    (error : Exn) :
  req_method request = "tools/call" ->
  ToString rt (call_name request) = Some key ->
  registered key = true ->
  apiKey <> EmptyString ->
  rejected key (call_arguments request) = false ->
  (forall endpoint params url,
     outcome (add_params rt
                (url_set (mkURL (WEATHER_API_BASE ++ endpoint) []) "key" apiKey) params)
     = inr url ->
     callWeatherAPI rt endpoint apiKey params = ([url], inl error)) ->
  exists url,
    handleMCPRequest rt request (Some apiKey)
    = ([url], inr (tool_failure rt (req_id request) error)).
Proof.
  intros Hm Hk Hr Hkey Hrej Hfail.
  destruct (handler_calls_upstream rt key apiKey (call_arguments request) Hr Hrej)
    as (h & endpoint & params & url & tail & Hh & Hrun & Hurl).
  exists url.
  rewrite (handleMCPRequest_handler rt request apiKey key h Hm Hk Hh Hkey).
  rewrite Hrun, (Hfail endpoint params url Hurl). reflexivity.
Qed.

(** X8. An upstream error reaches the caller. When a call that passes
    validation is answered by the upstream with a status outside 200-299,
    the dispatcher issues that one request and answers with the error
    mapped from the status, whose data carry the status itself. *)
Theorem upstream_status_reported (rt : Runtime) (request : MCPRequest)
    (apiKey key : string) (r : Response) :
  req_method request = "tools/call" ->
  ToString rt (call_name request) = Some key ->
  registered key = true ->
  apiKey <> EmptyString ->
  rejected key (call_arguments request) = false ->
  (forall url, fetch rt url = Responded r) ->
  ok r = false ->
  exists url e,
    handleMCPRequest rt request (Some apiKey)
    = ([url], inr (tool_failure rt (req_id request) (EWeatherAPI e)))
    /\ status e = rstatus r
    /\ error_code (tool_failure rt (req_id request) (EWeatherAPI e))
       = Some (code (mapWeatherAPIErrorToJSONRPC e))
    /\ error_data (tool_failure rt (req_id request) (EWeatherAPI e)) "status"
       = Some (JInt (rstatus r))
    /\ resp_result (tool_failure rt (req_id request) (EWeatherAPI e)) = None.
Proof.
  intros Hm Hk Hr Hkey Hrej Hfetch Hok.
  set (e := mkWeatherAPIError (rstatus r) (rstatusText r)
              (match JSON_parse rt (rtext r) with
               | Some v => v
               | None => JObj [("message", JStr (rtext r))]
               end)
              ("WeatherAPI request failed: " ++ rtext r)).
  destruct (tool_call_failure rt request apiKey key (EWeatherAPI e) Hm Hk Hr Hkey Hrej)
    as [url Hresp].
  { intros endpoint params url Hurl.
    apply callWeatherAPI_not_ok; [exact Hurl | apply Hfetch | exact Hok]. }
  exists url, e. split; [exact Hresp |]. split; [reflexivity |].
  cbn [tool_failure]. unfold mapWeatherAPIErrorToJSONRPC.
  repeat match goal with
         | |- context [if ?c then _ else _] => destruct c
         end; repeat split.
Qed.

Lemma upstream_status_reported_witness :
  exists url e,
    handleMCPRequest (answering 404 "Not Found" "gone")
      (call (JInt 3) "searchLocations" [("query", JStr "Atlantis")]) (Some "secret")
    = ([url], inr (tool_failure (answering 404 "Not Found" "gone") (JInt 3) (EWeatherAPI e)))
    /\ status e = 404
    /\ error_code (tool_failure (answering 404 "Not Found" "gone") (JInt 3) (EWeatherAPI e))
       = Some (code (mapWeatherAPIErrorToJSONRPC e))
    /\ error_data (tool_failure (answering 404 "Not Found" "gone") (JInt 3) (EWeatherAPI e))
         "status"
       = Some (JInt 404)
    /\ resp_result (tool_failure (answering 404 "Not Found" "gone") (JInt 3) (EWeatherAPI e))
       = None.
Proof.
  apply (upstream_status_reported (answering 404 "Not Found" "gone")
           (call (JInt 3) "searchLocations" [("query", JStr "Atlantis")])
           "secret" "searchLocations" (mkResponse 404 "Not Found" "gone"));
    try reflexivity.
  discriminate.
Defined.

(** X9. A failure of the network reaches the caller. When [fetch] rejects
    the request of a call that passes validation, the dispatcher answers
    with the error -32603 [Internal server error] whose detail is the
    reason of the rejection; the request was issued once and not
    retried. *)
Theorem network_failure_reported (rt : Runtime) (request : MCPRequest)
    (apiKey key reason : string) :
  req_method request = "tools/call" ->
  ToString rt (call_name request) = Some key ->
  registered key = true ->
  apiKey <> EmptyString ->
  rejected key (call_arguments request) = false ->
  (forall url, fetch rt url = Rejected reason) ->
  exists url,
    handleMCPRequest rt request (Some apiKey)
    = ([url],
       inr (createErrorResponse (req_id request) (-32603) "Internal server error"
              (JObj [("detail", JStr reason)]))).
Proof.
  intros Hm Hk Hr Hkey Hrej Hfetch.
  destruct (tool_call_failure rt request apiKey key (ENative (FetchRejected reason))
              Hm Hk Hr Hkey Hrej) as [url Hresp].
  { intros endpoint params url Hurl. unfold callWeatherAPI.
    pose proof (add_params_trace rt params
                  (url_set (mkURL (WEATHER_API_BASE ++ endpoint) []) "key" apiKey)) as Ht.
    destruct (add_params rt _ params) as [t [e | u]]; cbn in Hurl, Ht; [discriminate |].
    inversion Hurl; subst u t.
    change (@pair (list URL) (Exn + URL) [] (inr url)) with (ret url).
    rewrite bind_ret. unfold do_fetch. rewrite Hfetch. reflexivity. }
  exists url. exact Hresp.
Qed.

Lemma network_failure_reported_witness :
  exists url,
    handleMCPRequest offline
      (call (JInt 5) "getCurrentWeather" [("location", JStr "Lima")]) (Some "secret")
    = ([url],
       inr (createErrorResponse (JInt 5) (-32603) "Internal server error"
              (JObj [("detail", JStr "offline")]))).
Proof.
  apply (network_failure_reported offline
           (call (JInt 5) "getCurrentWeather" [("location", JStr "Lima")])
           "secret" "getCurrentWeather" "offline"); try reflexivity.
  discriminate.
Defined.

(** X10. A 2xx answer whose body is not JSON is not a success: the
    dispatcher answers with the error -32603 [Internal server error]. *)
Theorem unparsable_success_reported (rt : Runtime) (request : MCPRequest)
    (apiKey key : string) (r : Response) :
  req_method request = "tools/call" ->
  ToString rt (call_name request) = Some key ->
  registered key = true ->
  apiKey <> EmptyString ->
  rejected key (call_arguments request) = false ->
  (forall url, fetch rt url = Responded r) ->
  ok r = true ->
  JSON_parse rt (rtext r) = None ->
  exists url,
    handleMCPRequest rt request (Some apiKey)
    = ([url],
       inr (createErrorResponse (req_id request) (-32603) "Internal server error"
              (JObj [("detail", JStr (engine_message rt (BadJSON (rtext r))))]))).
Proof.
  intros Hm Hk Hr Hkey Hrej Hfetch Hok Hjson.
  destruct (tool_call_failure rt request apiKey key (ENative (BadJSON (rtext r)))
              Hm Hk Hr Hkey Hrej) as [url Hresp].
  { intros endpoint params url Hurl.
    rewrite (callWeatherAPI_ok rt endpoint apiKey params url r Hurl (Hfetch url) Hok).
    rewrite Hjson. reflexivity. }
  exists url. exact Hresp.
Qed.

Lemma unparsable_success_reported_witness :
  exists url,
    handleMCPRequest (answering 200 "OK" "<html>")
      (call (JInt 6) "searchLocations" [("query", JStr "Lima")]) (Some "secret")
    = ([url],
       inr (createErrorResponse (JInt 6) (-32603) "Internal server error"
              (JObj [("detail",
                      JStr (engine_message (answering 200 "OK" "<html>")
                              (BadJSON (rtext (mkResponse 200 "OK" "<html>")))))]))).
Proof.
  apply (unparsable_success_reported (answering 200 "OK" "<html>")
           (call (JInt 6) "searchLocations" [("query", JStr "Lima")])
           "secret" "searchLocations" (mkResponse 200 "OK" "<html>")); try reflexivity.
  discriminate.
Defined.

(** X11. A 2xx payload without [location] is not a success. When the
    upstream answers [getCurrentWeather] with an object that has no
    [location], formatting fails on the first read below it and the
    dispatcher answers with the error -32603 [Internal server error]. *)
Theorem missing_location_reported (rt : Runtime) (request : MCPRequest)
    (apiKey : string) (r : Response) (payload : list (string * JSValue)) :
  req_method request = "tools/call" ->
  ToString rt (call_name request) = Some "getCurrentWeather" ->
  apiKey <> EmptyString ->
  rejected "getCurrentWeather" (call_arguments request) = false ->
  (forall url, fetch rt url = Responded r) ->
  ok r = true ->
  JSON_parse rt (rtext r) = Some (JObj payload) ->
  own_prop payload "location" = None ->
  exists url,
    handleMCPRequest rt request (Some apiKey)
    = ([url],
       inr (createErrorResponse (req_id request) (-32603) "Internal server error"
              (JObj [("detail", JStr (engine_message rt (ReadOfNullish "name")))]))).
Proof.
  intros Hm Hk Hkey Hrej Hfetch Hok Hjson Hloc.
  rewrite (handleMCPRequest_handler rt request apiKey "getCurrentWeather" getCurrentWeather
             Hm Hk eq_refl Hkey).
  unfold rejected, validation in Hrej. cbn [String.eqb Ascii.eqb Bool.eqb] in Hrej.
  cbn match in Hrej.
  destruct (parse_cases getCurrentWeatherSchema (call_arguments request))
    as [(out & H & props & _ & Hf) | (issues & H)]; rewrite H in Hrej; [| discriminate].
  destruct (query_built rt "/current.json" apiKey
              [("q", value_of out "location"); ("lang", value_of out "language")])
    as [url Hurl].
  - repeat constructor; cbn; intuition discriminate.
  - cbn. intuition discriminate.
  - cbn [map snd forallb].
    rewrite !(zod_fields_primitive getCurrentWeatherSchema props [] out _ eq_refl Hf).
    reflexivity.
  - exists url. unfold getCurrentWeather.
    rewrite H, bind_ret, getCurrentWeatherData_eq.
    rewrite (callWeatherAPI_ok rt "/current.json" apiKey _ url r Hurl (Hfetch url) Hok).
    rewrite Hjson. cbn [bind Get native]. rewrite Hloc.
    destruct (own_prop payload "current"); reflexivity.
Qed.

Lemma missing_location_reported_witness :
  exists url,
    handleMCPRequest (serving (JObj [("error", JStr "quota")]))
      (call (JInt 8) "getCurrentWeather" [("location", JStr "Lima")]) (Some "secret")
    = ([url],
       inr (createErrorResponse (JInt 8) (-32603) "Internal server error"
              (JObj [("detail",
                      JStr (engine_message (serving (JObj [("error", JStr "quota")]))
                              (ReadOfNullish "name")))]))).
Proof.
  apply (missing_location_reported (serving (JObj [("error", JStr "quota")]))
           (call (JInt 8) "getCurrentWeather" [("location", JStr "Lima")])
           "secret" (mkResponse 200 "OK" "payload") [("error", JStr "quota")]);
    try reflexivity.
  discriminate.
Defined.

(** ** The envelope of a response *)

Lemma createErrorResponse_enveloped (id : JSValue) (code : Z) (message : string)
    (props : list (string * JSValue)) :
  enveloped (createErrorResponse id code message (JObj props)).
Proof. split; [reflexivity |]. cbn. eauto. Qed.

Lemma tool_failure_enveloped (rt : Runtime) (id : JSValue) (error : Exn) :
  enveloped (tool_failure rt id error).
Proof.
  destruct error as [e | issues | f]; cbn [tool_failure];
    try apply createErrorResponse_enveloped.
  unfold mapWeatherAPIErrorToJSONRPC.
  repeat match goal with
         | |- context [if ?c then _ else _] => destruct c
         end; apply createErrorResponse_enveloped.
Qed.

(** X12. The envelope. Every response of the dispatcher has [jsonrpc]
    equal to [2.0], whatever the request carried there, and every error
    it answers comes with a [data] object. *)
Theorem handleMCPRequest_envelope (rt : Runtime) (request : MCPRequest)
    (apiKey : option string) :
  returns (handleMCPRequest rt request apiKey) enveloped.
Proof.
  unfold handleMCPRequest. apply try_catch_returns.
  - intros a.
    destruct (req_method request =? "initialize")%string;
      [cbn; intros H; inversion H; split; [reflexivity | exact I] |].
    destruct (req_method request =? "tools/list")%string;
      [cbn; intros H; inversion H; split; [reflexivity | exact I] |].
    destruct (req_method request =? "tools/call")%string;
      [| cbn; intros H; inversion H; apply createErrorResponse_enveloped].
    rewrite tools_call_eq. destruct (ToString rt (call_name request)) as [key |];
      [| cbn; discriminate].
    unfold dispatch_tool.
    assert (Hcall : forall tool k,
              outcome (call_tool rt (req_id request) tool k (call_arguments request)) = inr a ->
              enveloped a).
    { intros tool k. unfold call_tool, try_catch.
      destruct (bind (invoke rt tool k (call_arguments request)) _) as [t [e | v]] eqn:Hb;
        cbn; intros H; inversion H; subst.
      - apply tool_failure_enveloped.
      - unfold bind in Hb.
        destruct (invoke rt tool k (call_arguments request)) as [t0 [e0 | v0]];
          [discriminate |].
        cbn in Hb. inversion Hb. split; [reflexivity | exact I]. }
    destruct (allTools_get key); destruct apiKey as [[| c k] |];
      try apply Hcall; cbn; intros H; inversion H; apply createErrorResponse_enveloped.
  - intros e. apply returns_ret. apply createErrorResponse_enveloped.
Qed.

Lemma tool_failure_message (rt : Runtime) (id : JSValue) (error : Exn) :
  option_map err_message (resp_error (tool_failure rt id error))
  <> Some "Request processing failed".
Proof.
  destruct error as [e | issues | f]; cbn [tool_failure]; try (cbn; discriminate).
  unfold mapWeatherAPIErrorToJSONRPC.
  repeat match goal with
         | |- context [if ?c then _ else _] => destruct c
         end; cbn; discriminate.
Qed.

Lemma unconvertible_ToString (rt : Runtime) :
  forall v, unconvertible v = true -> ToString rt v = None.
Proof.
  fix IH 1. intros [| | b | n | s | items | props]; cbn [unconvertible];
    try discriminate.
  - cbn [ToString]. induction items as [| x rest IHrest]; cbn [existsb].
    + discriminate.
    + intros H. apply orb_true_iff in H.
      destruct H as [Hx | Hrest].
      * pose proof (IH x Hx) as Hnone.
        destruct x; cbn [unconvertible] in Hx; try discriminate;
          rewrite Hnone; reflexivity.
      * specialize (IHrest Hrest).
        destruct rest as [| y rest']; [discriminate |].
        rewrite IHrest.
        destruct x; try reflexivity;
          match goal with
          | |- context [ToString rt ?v] => destruct (ToString rt v); reflexivity
          end.
  - cbn [ToString]. intros ->. reflexivity.
Qed.

(** X13. The outer [catch] can be reached. A [tools/call] whose [name]
    cannot be turned into a property key (an object that has its own
    [toString], or an array holding one) fails at [allTools[name]], before
    the registry and the credential are looked at: the answer is the
    error -32603 [Request processing failed] with a [detail] text, the id
    falling back to [unknown], and no upstream request is issued. This is
    a sufficient condition, not the only way into that [catch]. *)
Theorem unconvertible_name_reported (rt : Runtime) (request : MCPRequest)
    (apiKey : option string) :
  req_method request = "tools/call" ->
  unconvertible (call_name request) = true ->
  exists detail,
    handleMCPRequest rt request apiKey
    = ([], inr (mkResponse' "2.0"
                  (if truthy (req_id request) then req_id request else JStr "unknown")
                  None
                  (Some (mkError (-32603) "Request processing failed"
                           (Some (JObj [("detail", JStr detail)])))))).
Proof.
  intros Hm Hname. apply (unconvertible_ToString rt) in Hname.
  eexists. unfold handleMCPRequest. rewrite Hm.
  cbn [String.eqb Ascii.eqb Bool.eqb]. cbn match.
  rewrite tools_call_eq, Hname. reflexivity.
Qed.

Lemma unconvertible_name_reported_witness :
  exists detail,
    handleMCPRequest offline
      (mkRequest "2.0" JNull "tools/call"
         (JObj [("name", JArr [JStr "getCurrentWeather"; JObj [("toString", JNull)]])]))
      (Some "secret")
    = ([], inr (mkResponse' "2.0"
                  (if truthy JNull then JNull else JStr "unknown")
                  None
                  (Some (mkError (-32603) "Request processing failed"
                           (Some (JObj [("detail", JStr detail)])))))).
Proof.
  apply (unconvertible_name_reported offline
           (mkRequest "2.0" JNull "tools/call"
              (JObj [("name", JArr [JStr "getCurrentWeather"; JObj [("toString", JNull)]])]))
           (Some "secret")); reflexivity.
Defined.

(** A name the engine cannot turn into a property key. *)
Example unconvertible_name :
  option_map (fun r => (error_code r, option_map err_message (resp_error r)))
    (match outcome (handleMCPRequest offline
                      (mkRequest "2.0" (JInt 1) "tools/call"
                         (JObj [("name", JObj [("toString", JNull)])]))
                      (Some "secret"))
     with inr r => Some r | inl _ => None end)
  = Some (Some (-32603), Some "Request processing failed").
Proof. reflexivity. Qed.

(** ** The published schemas *)

Lemma own_prop_obj_delete (props : list (string * JSValue)) (k k' : string) :
  own_prop (obj_delete props k) k'
  = if (k =? k')%string then None else own_prop props k'.
Proof.
  induction props as [| [k0 v0] rest IH]; cbn.
  - destruct (k =? k')%string; reflexivity.
  - destruct (k0 =? k)%string eqn:E0; cbn.
    + apply String.eqb_eq in E0. subst k0. rewrite IH.
      destruct (k =? k')%string; reflexivity.
    + rewrite IH. destruct (k0 =? k')%string eqn:E1; [| reflexivity].
      apply String.eqb_eq in E1. subst k0. rewrite String.eqb_sym, E0. reflexivity.
Qed.

Lemma truly_required_cases (rt : Runtime) (schema : ZodObject) (entry : JSValue) :
  if names_field rt schema entry
  then truly_required rt schema entry = inr (mandatory rt schema entry)
  else exists fault, truly_required rt schema entry = inl fault.
Proof.
  unfold names_field, truly_required, mandatory.
  destruct (ToString rt entry) as [k |]; [| eexists; reflexivity].
  destruct (shape_field schema k) as [field |]; cbn [present].
  - destruct field; reflexivity.
  - destruct (existsb (String.eqb k) Object_prototype); eexists; reflexivity.
Qed.

Lemma filter_required_cases (rt : Runtime) (schema : ZodObject) (names : list JSValue) :
  if forallb (names_field rt schema) names
  then filter_required rt schema names = inr (filter (mandatory rt schema) names)
  else exists fault, filter_required rt schema names = inl fault.
Proof.
  induction names as [| entry rest IH]; [reflexivity |].
  cbn [forallb filter_required filter].
  pose proof (truly_required_cases rt schema entry) as He.
  destruct (names_field rt schema entry); cbn [andb].
  - rewrite He. destruct (forallb (names_field rt schema) rest).
    + rewrite IH. reflexivity.
    + destruct IH as [fault ->]. eexists. reflexivity.
  - destruct He as [fault ->]. eexists. reflexivity.
Qed.

(** X14. What [zodToMCPSchema] makes of the JSON schema of a tool, when
    [z.toJSONSchema] yields an object. With a [required] array whose
    entries all name fields of the schema, the published [required] keeps,
    in order, the entries that name a field neither optional nor
    defaulted, and is left out when none remains, so it is never empty;
    every other property is published unchanged. With a [required] array
    that has an entry naming no field of the schema, the function throws,
    which ends the load of the module. Without a [required] array the
    JSON schema is published as it is. *)
Theorem zodToMCPSchema_required (rt : Runtime) (schema : ZodObject)
    (props : list (string * JSValue)) :
  toJSONSchema rt schema = JObj props ->
  (forall names,
      own_prop props "required" = Some (JArr names) ->
      if forallb (names_field rt schema) names
      then exists published,
             zodToMCPSchema rt schema = inr (JObj published)
             /\ own_prop published "required"
                = match filter (mandatory rt schema) names with
                  | [] => None
                  | kept => Some (JArr kept)
                  end
             /\ (forall k, k <> "required" -> own_prop published k = own_prop props k)
      else exists fault, zodToMCPSchema rt schema = inl fault)
  /\ ((forall names, own_prop props "required" <> Some (JArr names)) ->
      zodToMCPSchema rt schema = inr (JObj props)).
Proof.
  intros Hjson. unfold zodToMCPSchema. rewrite Hjson. split.
  - intros names Hreq. rewrite Hreq.
    pose proof (filter_required_cases rt schema names) as Hf.
    destruct (forallb (names_field rt schema) names).
    + rewrite Hf. destruct (filter (mandatory rt schema) names) as [| x kept].
      * exists (obj_delete props "required"). split; [reflexivity |]. split.
        -- rewrite own_prop_obj_delete. reflexivity.
        -- intros k Hk. rewrite own_prop_obj_delete.
           destruct ("required" =? k)%string eqn:E; [| reflexivity].
           apply String.eqb_eq in E. congruence.
      * exists (obj_set props "required" (JArr (x :: kept))). split; [reflexivity |]. split.
        -- rewrite own_prop_obj_set. reflexivity.
        -- intros k Hk. rewrite own_prop_obj_set.
           destruct ("required" =? k)%string eqn:E; [| reflexivity].
           apply String.eqb_eq in E. congruence.
    + destruct Hf as [fault ->]. eexists. reflexivity.
  - intros Hnone. destruct (own_prop props "required") as [required |]; [| reflexivity].
    destruct required; try reflexivity. exfalso. eapply Hnone. reflexivity.
Qed.

Lemma zodToMCPSchema_required_witness :
  (forall names,
      own_prop [ ("type", JStr "object");
                 ("required", JArr [JStr "location"; JStr "days"; JStr "language"]) ]
        "required"
      = Some (JArr names) ->
      if forallb (names_field listing_all getWeatherForecastSchema) names
      then exists published,
             zodToMCPSchema listing_all getWeatherForecastSchema = inr (JObj published)
             /\ own_prop published "required"
                = match filter (mandatory listing_all getWeatherForecastSchema) names with
                  | [] => None
                  | kept => Some (JArr kept)
                  end
             /\ (forall k, k <> "required" ->
                   own_prop published k
                   = own_prop [ ("type", JStr "object");
                                ("required",
                                 JArr [JStr "location"; JStr "days"; JStr "language"]) ]
                       k)
      else exists fault, zodToMCPSchema listing_all getWeatherForecastSchema = inl fault)
  /\ ((forall names,
          own_prop [ ("type", JStr "object");
                     ("required", JArr [JStr "location"; JStr "days"; JStr "language"]) ]
            "required"
          <> Some (JArr names)) ->
      zodToMCPSchema listing_all getWeatherForecastSchema
      = inr (JObj [ ("type", JStr "object");
                    ("required", JArr [JStr "location"; JStr "days"; JStr "language"]) ])).
Proof.
  apply (zodToMCPSchema_required listing_all getWeatherForecastSchema
           [ ("type", JStr "object");
             ("required", JArr [JStr "location"; JStr "days"; JStr "language"]) ]).
  reflexivity.
Defined.

(** With a [z.toJSONSchema] that lists every field as required, the
    forecast tool is published with [location] alone required and the
    search tool with [query]; a schema whose fields are all optional is
    published without [required]. With one that lists a name the schema
    does not have, the conversion throws. *)
Example published_required_lists :
  zodToMCPSchema listing_all getWeatherForecastSchema
  = inr (JObj [("type", JStr "object"); ("required", JArr [JStr "location"])])
  /\ zodToMCPSchema listing_all getCurrentWeatherSchema
     = inr (JObj [("type", JStr "object"); ("required", JArr [JStr "location"])])
  /\ zodToMCPSchema listing_all searchLocationsSchema
     = inr (JObj [("type", JStr "object"); ("required", JArr [JStr "query"])])
  /\ zodToMCPSchema listing_all [("language", ZOptional ZString)]
     = inr (JObj [("type", JStr "object")])
  /\ zodToMCPSchema listing_units getCurrentWeatherSchema
     = inl (ReadOfNullish "isOptional").
Proof. repeat split. Qed.

(** In a module that loaded, each tool is published with the schema
    [zodToMCPSchema] returned for it. *)
Lemma load_tools_schemas (rt : Runtime) (loaded : JSValue) :
  load_tools rt = inr loaded ->
  loaded = tools rt
  /\ zodToMCPSchema rt getCurrentWeatherSchema = inr (inputSchema rt getCurrentWeatherSchema)
  /\ zodToMCPSchema rt getWeatherForecastSchema
     = inr (inputSchema rt getWeatherForecastSchema)
  /\ zodToMCPSchema rt searchLocationsSchema = inr (inputSchema rt searchLocationsSchema).
Proof.
  unfold load_tools, inputSchema.
  destruct (zodToMCPSchema rt getCurrentWeatherSchema); [discriminate |].
  destruct (zodToMCPSchema rt getWeatherForecastSchema); [discriminate |].
  destruct (zodToMCPSchema rt searchLocationsSchema); [discriminate |].
  intros H. inversion H. repeat split.
Qed.

(** X15. The catalogue and the registry agree: the names published by
    [tools/list] are the keys of [allTools], in the same order, so every
    published tool can be called and every registered tool is
    published. *)
Theorem tools_match_registry (rt : Runtime) :
  exists descriptors,
    tools rt = JArr descriptors
    /\ JArr (map (fun d => optional_get d "name") descriptors) = Object_keys allTools
    /\ Forall (fun d => exists name,
                 optional_get d "name" = JStr name /\ registered name = true)
         descriptors.
Proof.
  eexists. split; [reflexivity |]. split; [reflexivity |].
  repeat constructor; eexists; split; reflexivity.
Qed.

(** ** The credential of a request *)

Lemma trimStart_cons (a : ascii) (rest : list ascii) :
  trimStart (a :: rest)
  = if ws1 a then trimStart rest
    else match rest with
         | [] => a :: rest
         | b :: rest2 =>
             if ws2 a b then trimStart rest2
             else match rest2 with
                  | [] => a :: rest
                  | c :: rest3 => if ws3 a b c then trimStart rest3 else a :: rest
                  end
         end.
Proof. reflexivity. Qed.

Lemma trimStart_length (s : list ascii) : (List.length (trimStart s) <= List.length s)%nat.
Proof.
  induction s as [s IH] using (well_founded_induction
                                 (Wf_nat.well_founded_ltof _ (@List.length ascii))).
  unfold Wf_nat.ltof in IH.
  destruct s as [| a rest]; [apply Nat.le_refl |].
  rewrite trimStart_cons.
  destruct (ws1 a).
  { assert (H := IH rest). cbn [List.length] in H |- *. lia. }
  destruct rest as [| b rest2]; [apply Nat.le_refl |].
  destruct (ws2 a b).
  { assert (H := IH rest2). cbn [List.length] in H |- *. lia. }
  destruct rest2 as [| c rest3]; [apply Nat.le_refl |].
  destruct (ws3 a b c); [| apply Nat.le_refl].
  assert (H := IH rest3). cbn [List.length] in H |- *. lia.
Qed.

Lemma trimStart_fixed_iff (s : list ascii) : trimStart s = s <-> starts_clean s.
Proof.
  split.
  - intros H.
    assert (Hlen : forall t, (List.length t < List.length s)%nat -> trimStart t <> s).
    { intros t Ht Heq. pose proof (trimStart_length t) as Hle. rewrite Heq in Hle. lia. }
    destruct s as [| a rest]; [exact I |].
    rewrite trimStart_cons in H. cbn [starts_clean].
    destruct (ws1 a); [exfalso; apply (Hlen rest); [cbn; lia | exact H] |].
    split; [reflexivity |].
    destruct rest as [| b rest2]; [exact I |].
    destruct (ws2 a b); [exfalso; apply (Hlen rest2); [cbn; lia | exact H] |].
    split; [reflexivity |].
    destruct rest2 as [| c rest3]; [exact I |].
    destruct (ws3 a b c); [exfalso; apply (Hlen rest3); [cbn; lia | exact H] |].
    reflexivity.
  - destruct s as [| a [| b [| c rest]]]; cbn [starts_clean]; try reflexivity;
      rewrite trimStart_cons.
    + intros [-> _]. reflexivity.
    + intros [-> [-> _]]. reflexivity.
    + intros [-> [-> ->]]. reflexivity.
Qed.

Lemma trimStart_clean (s : list ascii) : starts_clean (trimStart s).
Proof.
  induction s as [s IH] using (well_founded_induction
                                 (Wf_nat.well_founded_ltof _ (@List.length ascii))).
  unfold Wf_nat.ltof in IH.
  destruct s as [| a rest]; [exact I |].
  rewrite trimStart_cons.
  destruct (ws1 a) eqn:E1; [apply IH; cbn; lia |].
  destruct rest as [| b rest2]; [cbn; auto |].
  destruct (ws2 a b) eqn:E2; [apply IH; cbn; lia |].
  destruct rest2 as [| c rest3]; [cbn; auto |].
  destruct (ws3 a b c) eqn:E3; [apply IH; cbn; lia |].
  cbn. auto.
Qed.

Lemma starts_clean_prefix (p w : list ascii) :
  starts_clean (p ++ w) -> starts_clean p.
Proof.
  destruct p as [| a [| b [| c rest]]]; cbn [app starts_clean]; tauto.
Qed.

Lemma trimStart_reversed_cons (c : ascii) (rest : list ascii) :
  trimStart_reversed (c :: rest)
  = if ws1 c then trimStart_reversed rest
    else match rest with
         | [] => c :: rest
         | b :: rest2 =>
             if ws2 b c then trimStart_reversed rest2
             else match rest2 with
                  | [] => c :: rest
                  | a :: rest3 =>
                      if ws3 a b c then trimStart_reversed rest3 else c :: rest
                  end
         end.
Proof. reflexivity. Qed.

Lemma trimStart_reversed_suffix (s : list ascii) :
  exists p, s = (p ++ trimStart_reversed s)%list.
Proof.
  induction s as [s IH] using (well_founded_induction
                                 (Wf_nat.well_founded_ltof _ (@List.length ascii))).
  unfold Wf_nat.ltof in IH.
  destruct s as [| c rest]; [exists []; reflexivity |].
  rewrite trimStart_reversed_cons.
  destruct (ws1 c).
  { destruct (IH rest) as [p Hp]; [cbn; lia |]. exists (c :: p). cbn. congruence. }
  destruct rest as [| b rest2]; [exists []; reflexivity |].
  destruct (ws2 b c).
  { destruct (IH rest2) as [p Hp]; [cbn; lia |]. exists (c :: b :: p). cbn. congruence. }
  destruct rest2 as [| a rest3]; [exists []; reflexivity |].
  destruct (ws3 a b c); [| exists []; reflexivity].
  destruct (IH rest3) as [p Hp]; [cbn; lia |]. exists (c :: b :: a :: p). cbn. congruence.
Qed.

Lemma trimStart_reversed_idempotent (s : list ascii) :
  trimStart_reversed (trimStart_reversed s) = trimStart_reversed s.
Proof.
  induction s as [s IH] using (well_founded_induction
                                 (Wf_nat.well_founded_ltof _ (@List.length ascii))).
  unfold Wf_nat.ltof in IH.
  destruct s as [| c rest]; [reflexivity |].
  rewrite trimStart_reversed_cons.
  destruct (ws1 c) eqn:E1; [apply IH; cbn; lia |].
  destruct rest as [| b rest2];
    [rewrite trimStart_reversed_cons, E1; reflexivity |].
  destruct (ws2 b c) eqn:E2; [apply IH; cbn; lia |].
  destruct rest2 as [| a rest3];
    [rewrite trimStart_reversed_cons, E1, E2; reflexivity |].
  destruct (ws3 a b c) eqn:E3; [apply IH; cbn; lia |].
  rewrite trimStart_reversed_cons, E1, E2, E3. reflexivity.
Qed.

(** [trimEnd] keeps a prefix of the text. *)
Lemma trimEnd_prefix (s : list ascii) : exists w, s = (trimEnd s ++ w)%list.
Proof.
  unfold trimEnd. destruct (trimStart_reversed_suffix (rev s)) as [p Hp].
  exists (rev p). rewrite <- rev_app_distr, <- Hp, rev_involutive. reflexivity.
Qed.

Lemma trimEnd_idempotent (s : list ascii) : trimEnd (trimEnd s) = trimEnd s.
Proof.
  unfold trimEnd. rewrite rev_involutive, trimStart_reversed_idempotent. reflexivity.
Qed.

(** Trimming twice is trimming once: a trimmed text has no white space
    left at either end. *)
Lemma trim_idempotent (s : string) : trim (trim s) = trim s.
Proof.
  unfold trim. rewrite list_ascii_of_string_of_list_ascii.
  set (t := trimStart (list_ascii_of_string s)).
  assert (Hfixed : trimStart (trimEnd t) = trimEnd t).
  { apply trimStart_fixed_iff. destruct (trimEnd_prefix t) as [w Hw].
    apply (starts_clean_prefix _ w). rewrite <- Hw. apply trimStart_clean. }
  rewrite Hfixed, trimEnd_idempotent. reflexivity.
Qed.

Lemma slice_prefix (p s : string) : slice (String.length p) (p ++ s) = s.
Proof. induction p as [| c p IH]; cbn; [reflexivity | exact IH]. Qed.

Lemma prefix_append (p s : string) : prefix p (p ++ s) = true.
Proof.
  induction p as [| c p IH]; cbn.
  - destruct s; reflexivity.
  - destruct (ascii_dec c c); [exact IH | congruence].
Qed.

Lemma length_zero (s : string) : Nat.eqb (String.length s) 0 = (s =? EmptyString)%string.
Proof. destruct s; reflexivity. Qed.

(** X16. An accepted credential. Whatever [extractAPIKey] returns is not
    empty and has no white space left at either end: it is the text after
    the prefix [Bearer ] of the header, trimmed. The dispatcher is thus
    never handed an empty credential by the transport. *)
Theorem extractAPIKey_sound (req : HttpRequest) (k : string) :
  extractAPIKey req = Some k ->
  k <> EmptyString
  /\ trim k = k
  /\ exists header,
       authorization req = Some header
       /\ prefix "Bearer " header = true
       /\ k = trim (slice 7 header).
Proof.
  unfold extractAPIKey. destruct (authorization req) as [header |]; [| discriminate].
  destruct (header =? EmptyString)%string; [discriminate |].
  destruct (prefix "Bearer " header) eqn:Hp; [| discriminate]. cbn [negb].
  rewrite length_zero.
  destruct (slice 7 header =? EmptyString)%string; [discriminate |]. cbn [orb].
  destruct (trim (slice 7 header) =? EmptyString)%string eqn:Ht; [discriminate |].
  intros H. inversion H; subst k. clear H.
  apply String.eqb_neq in Ht.
  split; [exact Ht |]. split; [apply trim_idempotent |].
  exists header. auto.
Qed.

Lemma extractAPIKey_sound_witness :
  "abc123" <> EmptyString
  /\ trim "abc123" = "abc123"
  /\ exists header,
       authorization (mkHttpRequest "POST" "/mcp" (Some "Bearer  abc123 ") "{}") = Some header
       /\ prefix "Bearer " header = true
       /\ "abc123" = trim (slice 7 header).
Proof.
  apply (extractAPIKey_sound (mkHttpRequest "POST" "/mcp" (Some "Bearer  abc123 ") "{}")).
  reflexivity.
Defined.

(** X17. The credential comes back. A header made of [Bearer ] and a text
    yields that text trimmed, provided something is left of it; in
    particular a key without white space at its ends comes back as it
    is. *)
Theorem extractAPIKey_bearer (method path body text : string) :
  trim text <> EmptyString ->
  extractAPIKey (mkHttpRequest method path (Some ("Bearer " ++ text)) body)
  = Some (trim text).
Proof.
  intros Ht. unfold extractAPIKey. cbn [authorization].
  change (("Bearer " ++ text =? EmptyString)%string) with false. cbn match.
  rewrite (prefix_append "Bearer " text). cbn [negb].
  change 7%nat with (String.length "Bearer "). rewrite slice_prefix, length_zero.
  apply String.eqb_neq in Ht. rewrite Ht.
  destruct (text =? EmptyString)%string eqn:E; [| reflexivity].
  apply String.eqb_eq in E. subst text. discriminate Ht.
Qed.

Lemma extractAPIKey_bearer_witness :
  extractAPIKey (mkHttpRequest "POST" "/mcp" (Some ("Bearer " ++ " k-42 ")) "{}")
  = Some (trim " k-42 ").
Proof.
  apply (extractAPIKey_bearer "POST" "/mcp" "{}" " k-42 "). discriminate.
Defined.

(** X18. The credentials that are turned down. [extractAPIKey] yields
    nothing exactly when there is no [Authorization] header, when the
    header does not start with the seven characters [Bearer ] (the scheme
    is case sensitive and the space is part of it), or when nothing but
    white space follows the prefix. *)
Theorem extractAPIKey_none_iff (req : HttpRequest) :
  extractAPIKey req = None
  <-> (authorization req = None
       \/ exists header,
            authorization req = Some header
            /\ (prefix "Bearer " header = false
                \/ trim (slice 7 header) = EmptyString)).
Proof.
  unfold extractAPIKey. destruct (authorization req) as [header |].
  - destruct (header =? EmptyString)%string eqn:He.
    + apply String.eqb_eq in He. subst header. split; [| reflexivity].
      intros _. right. exists EmptyString. auto.
    + destruct (prefix "Bearer " header) eqn:Hp; cbn [negb].
      * rewrite length_zero.
        destruct (slice 7 header =? EmptyString)%string eqn:Hs; cbn [orb].
        -- apply String.eqb_eq in Hs. split; [| reflexivity].
           intros _. right. exists header. split; [reflexivity |]. right.
           rewrite Hs. reflexivity.
        -- destruct (trim (slice 7 header) =? EmptyString)%string eqn:Ht.
           ++ apply String.eqb_eq in Ht. split; [| reflexivity].
              intros _. right. exists header. auto.
           ++ apply String.eqb_neq in Ht. split; [discriminate |].
              intros [H | (h & Hh & [H | H])]; [discriminate | |];
                inversion Hh; subst h; congruence.
      * split; [| reflexivity]. intros _. right. exists header. auto.
  - split; auto.
Qed.

(** Headers that carry no credential. *)
Example headers_turned_down :
  map (fun h => extractAPIKey (mkHttpRequest "POST" "/mcp" h "{}"))
    [None; Some EmptyString; Some "bearer abc"; Some "Bearer"; Some "Basic abc";
     Some "Bearer    "; Some "Token abc"]
  = [None; None; None; None; None; None; None].
Proof. reflexivity. Qed.

(** ** The HTTP server *)

Section ServerProperties.

Variable rt : Runtime.

Lemma handle_body_returns (body : JSValue) (apiKey : option string) :
  exists t r, handle_body rt body apiKey = (t, inr r).
Proof.
  assert (Hother : forall other,
            exists t r,
              try_catch
                (name <- text_of rt other ;;
                 ret (method_not_found (optional_get body "id") name))
                (fun error =>
                   ret (createErrorResponse (optional_get body "id")
                          JSON_RPC_ERRORS.INTERNAL_ERROR "Request processing failed"
                          (JObj [("detail", JStr (error_message rt error))])))
              = (t, inr r)).
  { intros other. unfold text_of. destruct (ToString rt other); cbn; eauto. }
  unfold handle_body.
  destruct (optional_get body "method") as [| | b | n | method | items | props];
    try apply Hother.
  pose proof (handleMCPRequest_built rt
                (mkRequest "2.0" (optional_get body "id") method (optional_get body "params"))
                apiKey) as H.
  unfold returns, outcome in H.
  destruct (handleMCPRequest rt _ apiKey) as [t [e | r]]; [contradiction | eauto].
Qed.

Lemma well_formed_check (body : JSValue) :
  negb (truthy (optional_get body "jsonrpc"))
  || negb (is_string (optional_get body "jsonrpc") "2.0")
  || negb (truthy (optional_get body "method"))
  = negb (well_formed body).
Proof.
  unfold well_formed.
  destruct (optional_get body "jsonrpc") as [| | b | n | s | items | props]; cbn;
    try reflexivity.
  - destruct b; reflexivity.
  - destruct (negb _); reflexivity.
  - destruct (s =? "2.0")%string eqn:E.
    + apply String.eqb_eq in E. subst s. reflexivity.
    + cbn. destruct (negb (s =? EmptyString)%string); reflexivity.
Qed.

(** The [try] block of the server, case by case. *)
Lemma mcp_endpoint_cases (req : HttpRequest) :
  mcp_endpoint rt req
  = match JSON_parse rt (http_body req) with
    | None | Some JUndefined | Some JNull => ret (json_response rt 400 parse_error)
    | Some body =>
        if well_formed body
        then response <- handle_body rt body (extractAPIKey req) ;;
             ret (json_response rt 200 response)
        else ret (json_response rt 400 (invalid_request (optional_get body "id")))
    end.
Proof.
  unfold mcp_endpoint, req_json.
  destruct (JSON_parse rt (http_body req)) as [body |]; [| reflexivity].
  rewrite bind_ret.
  destruct (handle_body_returns body (extractAPIKey req)) as (t & r & Hr).
  assert (Hget : match body with
                 | JUndefined | JNull => True
                 | _ => Get body "jsonrpc" = inr (optional_get body "jsonrpc")
                 end).
  { unfold optional_get. destruct body as [| | b | n | s | items | props]; cbn;
      try exact I; try reflexivity.
    destruct (own_prop props "jsonrpc"); reflexivity. }
  destruct body as [| | b | n | s | items | props]; try reflexivity;
    rewrite Hget; cbn [native]; rewrite bind_ret, well_formed_check;
    match goal with
    | |- context [well_formed ?v] => destruct (well_formed v)
    end; cbn [negb]; try reflexivity;
    rewrite Hr; cbn; rewrite ?app_nil_r; reflexivity.
Qed.

End ServerProperties.

Lemma serve_fetch_mcp (rt : Runtime) (req : HttpRequest) :
  http_method req = "POST" -> pathname req = "/mcp" ->
  serve_fetch rt req = mcp_endpoint rt req.
Proof. intros Hm Hp. unfold serve_fetch. rewrite Hm, Hp. reflexivity. Qed.

Lemma returns_bind_ret {A B : Type} (m : Async A) (f : A -> B) (P : B -> Prop)
    (t : list URL) (a : A) :
  m = (t, inr a) -> P (f a) -> returns (bind m (fun r => ret (f r))) P.
Proof. intros -> H. exact H. Qed.

(** X19. The status of an answer of the MCP endpoint. A POST to [/mcp]
    is answered with status 200 when the body parses to a value whose
    [jsonrpc] is the string [2.0] and whose [method] is truthy, whatever
    the dispatcher then answers (a JSON-RPC error included), and with
    status 400 otherwise; the answer is JSON in both cases. *)
Theorem mcp_status (rt : Runtime) (req : HttpRequest) :
  http_method req = "POST" ->
  pathname req = "/mcp" ->
  returns (serve_fetch rt req)
    (fun resp =>
       http_status resp
       = match JSON_parse rt (http_body req) with
         | Some body => if well_formed body then 200 else 400
         | None => 400
         end
       /\ http_headers resp = [("Content-Type", "application/json"); cors]
       /\ http_payload resp <> None).
Proof.
  intros Hm Hp. rewrite (serve_fetch_mcp rt req Hm Hp), mcp_endpoint_cases.
  assert (Hjson : forall st r,
            http_status (json_response rt st r) = st
            /\ http_headers (json_response rt st r)
               = [("Content-Type", "application/json"); cors]
            /\ http_payload (json_response rt st r) <> None).
  { intros st r. repeat split. unfold json_response, wire. cbn [http_payload].
    discriminate. }
  destruct (JSON_parse rt (http_body req)) as [body |];
    [| apply returns_ret, Hjson].
  destruct (handle_body_returns rt body (extractAPIKey req)) as (t & r & Hr).
  destruct body as [| | b | n | s | items | props];
    try (apply returns_ret, Hjson);
    match goal with
    | |- context [well_formed ?v] => destruct (well_formed v)
    end;
    try (apply returns_ret, Hjson);
    apply (returns_bind_ret _ _ _ t r Hr), Hjson.
Qed.

Lemma mcp_status_witness :
  returns (serve_fetch (serving (JObj [("jsonrpc", JStr "2.0"); ("id", JInt 1);
                                       ("method", JStr "resources/list")]))
             (mkHttpRequest "POST" "/mcp" None "{}"))
    (fun resp =>
       http_status resp
       = match JSON_parse (serving (JObj [("jsonrpc", JStr "2.0"); ("id", JInt 1);
                                          ("method", JStr "resources/list")]))
                 (http_body (mkHttpRequest "POST" "/mcp" None "{}")) with
         | Some body => if well_formed body then 200 else 400
         | None => 400
         end
       /\ http_headers resp = [("Content-Type", "application/json"); cors]
       /\ http_payload resp <> None).
Proof.
  apply (mcp_status (serving (JObj [("jsonrpc", JStr "2.0"); ("id", JInt 1);
                                    ("method", JStr "resources/list")]))
           (mkHttpRequest "POST" "/mcp" None "{}")); reflexivity.
Defined.

(** X20. Every answer of the server, on every route, allows any origin,
    and its status is 200, 400 or 404; the server always answers. *)
Theorem serve_fetch_cors (rt : Runtime) (req : HttpRequest) :
  returns (serve_fetch rt req)
    (fun resp =>
       In cors (http_headers resp)
       /\ In (http_status resp) [200; 400; 404]).
Proof.
  unfold serve_fetch.
  destruct (http_method req =? "OPTIONS")%string; [cbn; auto |].
  destruct (pathname req =? "/healthz")%string; [cbn; auto |].
  destruct (negb (http_method req =? "POST")%string || negb (pathname req =? "/mcp")%string);
    [cbn; auto |].
  rewrite mcp_endpoint_cases.
  assert (H200 : forall r, In cors (http_headers (json_response rt 200 r))
                           /\ In (http_status (json_response rt 200 r)) [200; 400; 404])
    by (intros r; cbn [json_response http_headers http_status In]; auto).
  assert (H400 : forall r, In cors (http_headers (json_response rt 400 r))
                           /\ In (http_status (json_response rt 400 r)) [200; 400; 404])
    by (intros r; cbn [json_response http_headers http_status In]; auto).
  destruct (JSON_parse rt (http_body req)) as [body |]; [| apply returns_ret, H400].
  destruct (handle_body_returns rt body (extractAPIKey req)) as (t & r & Hr).
  destruct body as [| | b | n | s | items | props]; try (apply returns_ret, H400);
    match goal with
    | |- context [well_formed ?v] => destruct (well_formed v)
    end; try (apply returns_ret, H400);
    apply (returns_bind_ret _ _ _ t r Hr), H200.
Qed.

(** X21. A body that is not JSON, or the JSON value [null], is answered
    with status 400 and the error -32700 under the id [unknown]; nothing
    is dispatched and no upstream request is issued. *)
Theorem mcp_parse_error (rt : Runtime) (req : HttpRequest) :
  http_method req = "POST" ->
  pathname req = "/mcp" ->
  JSON_parse rt (http_body req) = None \/ JSON_parse rt (http_body req) = Some JNull ->
  serve_fetch rt req = ret (json_response rt 400 parse_error)
  /\ error_code parse_error = Some (-32700)
  /\ resp_id parse_error = JStr "unknown".
Proof.
  intros Hm Hp Hbody. split; [| split; reflexivity].
  rewrite (serve_fetch_mcp rt req Hm Hp), mcp_endpoint_cases.
  destruct Hbody as [-> | ->]; reflexivity.
Qed.

Lemma mcp_parse_error_witness :
  serve_fetch offline (mkHttpRequest "POST" "/mcp" (Some "Bearer k") "{oops")
  = ret (json_response offline 400 parse_error)
  /\ error_code parse_error = Some (-32700)
  /\ resp_id parse_error = JStr "unknown".
Proof.
  apply (mcp_parse_error offline (mkHttpRequest "POST" "/mcp" (Some "Bearer k") "{oops"));
    try reflexivity.
  left. reflexivity.
Defined.

(** X22. A body that parses but is no JSON-RPC 2.0 request ([jsonrpc] is
    not the string [2.0], or [method] is missing or falsy) is answered
    with status 400 and the error -32600, under the id of the body when it
    is truthy and under [unknown] otherwise; nothing is dispatched, even
    when the method is a known one. *)
Theorem mcp_invalid_request (rt : Runtime) (req : HttpRequest) (body : JSValue) :
  http_method req = "POST" ->
  pathname req = "/mcp" ->
  JSON_parse rt (http_body req) = Some body ->
  body <> JNull -> body <> JUndefined ->
  well_formed body = false ->
  serve_fetch rt req
  = ret (json_response rt 400 (invalid_request (optional_get body "id")))
  /\ error_code (invalid_request (optional_get body "id")) = Some (-32600)
  /\ resp_id (invalid_request (optional_get body "id"))
     = js_or (optional_get body "id") (JStr "unknown").
Proof.
  intros Hm Hp Hbody Hnull Hundef Hwf. split; [| split; [reflexivity |]].
  - rewrite (serve_fetch_mcp rt req Hm Hp), mcp_endpoint_cases, Hbody.
    destruct body; try congruence; rewrite Hwf; reflexivity.
  - unfold invalid_request, createErrorResponse, js_or. cbn [resp_id].
    destruct (truthy (optional_get body "id")) eqn:E; [rewrite E |]; reflexivity.
Qed.

Lemma mcp_invalid_request_witness :
  serve_fetch (serving (JObj [("jsonrpc", JStr "1.0"); ("method", JStr "tools/list")]))
    (mkHttpRequest "POST" "/mcp" None "{}")
  = ret (json_response
           (serving (JObj [("jsonrpc", JStr "1.0"); ("method", JStr "tools/list")]))
           400
           (invalid_request
              (optional_get (JObj [("jsonrpc", JStr "1.0"); ("method", JStr "tools/list")])
                 "id")))
  /\ error_code
       (invalid_request
          (optional_get (JObj [("jsonrpc", JStr "1.0"); ("method", JStr "tools/list")]) "id"))
     = Some (-32600)
  /\ resp_id
       (invalid_request
          (optional_get (JObj [("jsonrpc", JStr "1.0"); ("method", JStr "tools/list")]) "id"))
     = js_or (optional_get (JObj [("jsonrpc", JStr "1.0"); ("method", JStr "tools/list")]) "id")
         (JStr "unknown").
Proof.
  apply (mcp_invalid_request
           (serving (JObj [("jsonrpc", JStr "1.0"); ("method", JStr "tools/list")]))
           (mkHttpRequest "POST" "/mcp" None "{}")
           (JObj [("jsonrpc", JStr "1.0"); ("method", JStr "tools/list")]));
    try reflexivity; discriminate.
Defined.

(** The dispatch of a well-formed body with a string method. *)
Lemma serve_fetch_dispatches (rt : Runtime) (req : HttpRequest)
    (props : list (string * JSValue)) (method : string) :
  http_method req = "POST" ->
  pathname req = "/mcp" ->
  JSON_parse rt (http_body req) = Some (JObj props) ->
  own_prop props "jsonrpc" = Some (JStr "2.0") ->
  own_prop props "method" = Some (JStr method) ->
  method <> EmptyString ->
  serve_fetch rt req
  = (response <- handleMCPRequest rt
                   (mkRequest "2.0" (value_of props "id") method (value_of props "params"))
                   (extractAPIKey req) ;;
     ret (json_response rt 200 response)).
Proof.
  intros Hm Hp Hbody Hj Hmethod Hne.
  rewrite (serve_fetch_mcp rt req Hm Hp), mcp_endpoint_cases, Hbody.
  unfold well_formed, handle_body, optional_get, value_of. cbn [Get].
  rewrite Hj, Hmethod. cbn [is_string truthy].
  apply String.eqb_neq in Hne. rewrite Hne. cbn [String.eqb Ascii.eqb Bool.eqb negb andb].
  destruct (own_prop props "id"), (own_prop props "params"); reflexivity.
Qed.

(** X23. What the server hands to the dispatcher. For a body that is an
    object with [jsonrpc] equal to [2.0] and a non-empty string [method],
    the server dispatches the [id], [method] and [params] of the body
    together with the credential extracted from the [Authorization]
    header, and answers with status 200 and the response of the
    dispatcher, serialized. *)
Theorem mcp_dispatch (rt : Runtime) (req : HttpRequest)
    (props : list (string * JSValue)) (method : string) :
  http_method req = "POST" ->
  pathname req = "/mcp" ->
  JSON_parse rt (http_body req) = Some (JObj props) ->
  own_prop props "jsonrpc" = Some (JStr "2.0") ->
  own_prop props "method" = Some (JStr method) ->
  method <> EmptyString ->
  serve_fetch rt req
  = (response <- handleMCPRequest rt
                   (mkRequest "2.0" (value_of props "id") method (value_of props "params"))
                   (extractAPIKey req) ;;
     ret (json_response rt 200 response)).
Proof.
  intros Hm Hp Hbody Hj Hmethod Hne. apply serve_fetch_dispatches; assumption.
Qed.

Lemma mcp_dispatch_witness :
  serve_fetch (serving (JObj [("jsonrpc", JStr "2.0"); ("id", JInt 9);
                              ("method", JStr "initialize")]))
    (mkHttpRequest "POST" "/mcp" (Some "Bearer k") "{}")
  = (response <- handleMCPRequest
                   (serving (JObj [("jsonrpc", JStr "2.0"); ("id", JInt 9);
                                   ("method", JStr "initialize")]))
                   (mkRequest "2.0"
                      (value_of [("jsonrpc", JStr "2.0"); ("id", JInt 9);
                                 ("method", JStr "initialize")] "id")
                      "initialize"
                      (value_of [("jsonrpc", JStr "2.0"); ("id", JInt 9);
                                 ("method", JStr "initialize")] "params"))
                   (extractAPIKey (mkHttpRequest "POST" "/mcp" (Some "Bearer k") "{}")) ;;
     ret (json_response
            (serving (JObj [("jsonrpc", JStr "2.0"); ("id", JInt 9);
                            ("method", JStr "initialize")]))
            200 response)).
Proof.
  apply (mcp_dispatch
           (serving (JObj [("jsonrpc", JStr "2.0"); ("id", JInt 9);
                           ("method", JStr "initialize")]))
           (mkHttpRequest "POST" "/mcp" (Some "Bearer k") "{}")
           [("jsonrpc", JStr "2.0"); ("id", JInt 9); ("method", JStr "initialize")]
           "initialize"); try reflexivity.
  discriminate.
Defined.

(** X24. The other routes. A request that is not a POST to [/mcp] is
    answered without reading its body or its headers and without the
    runtime: an OPTIONS request, on any path, gets the preflight answer
    with an empty body; otherwise [/healthz] gets [OK] under any method,
    POST included; anything else gets 404. *)
Theorem other_routes (rt : Runtime) (req : HttpRequest) :
  http_method req <> "POST" \/ pathname req <> "/mcp" ->
  exists resp,
    (forall rt' authorization' body',
       serve_fetch rt' (mkHttpRequest (http_method req) (pathname req) authorization' body')
       = ret resp)
    /\ serve_fetch rt req = ret resp
    /\ http_status resp
       = (if (http_method req =? "OPTIONS")%string then 200
          else if (pathname req =? "/healthz")%string then 200 else 404)
    /\ http_payload resp
       = (if (http_method req =? "OPTIONS")%string then None
          else if (pathname req =? "/healthz")%string then Some "OK"
               else Some "Not Found").
Proof.
  intros Hroute. unfold serve_fetch. cbn [http_method pathname].
  destruct (http_method req =? "OPTIONS")%string; [eexists; repeat split |].
  destruct (pathname req =? "/healthz")%string; [eexists; repeat split |].
  assert (Hnot : negb (http_method req =? "POST")%string
                 || negb (pathname req =? "/mcp")%string = true).
  { destruct Hroute as [H | H]; apply String.eqb_neq in H; rewrite H;
      [reflexivity | apply orb_true_r]. }
  rewrite Hnot. eexists. repeat split.
Qed.

Lemma other_routes_witness :
  exists resp,
    (forall rt' authorization' body',
       serve_fetch rt' (mkHttpRequest "POST" "/healthz" authorization' body') = ret resp)
    /\ serve_fetch offline (mkHttpRequest "POST" "/healthz" None "{}") = ret resp
    /\ http_status resp = 200
    /\ http_payload resp = Some "OK".
Proof.
  apply (other_routes offline (mkHttpRequest "POST" "/healthz" None "{}")).
  right. discriminate.
Defined.

(** X25. A tool call without credential, end to end. A well-formed
    [tools/call] for a registered tool whose [Authorization] header
    yields no credential is answered with HTTP status 200 carrying the
    JSON-RPC error -32001; no upstream request is issued. *)
Theorem mcp_unauthenticated (rt : Runtime) (req : HttpRequest)
    (props : list (string * JSValue)) (key : string) :
  http_method req = "POST" ->
  pathname req = "/mcp" ->
  JSON_parse rt (http_body req) = Some (JObj props) ->
  own_prop props "jsonrpc" = Some (JStr "2.0") ->
  own_prop props "method" = Some (JStr "tools/call") ->
  ToString rt (optional_get (js_or (value_of props "params") (JObj [])) "name") = Some key ->
  registered key = true ->
  extractAPIKey req = None ->
  serve_fetch rt req
  = ret (json_response rt 200 (api_key_required (value_of props "id")))
  /\ error_code (api_key_required (value_of props "id")) = Some (-32001).
Proof.
  intros Hm Hp Hbody Hj Hmethod Hname Hr Hkey. split; [| reflexivity].
  rewrite (serve_fetch_dispatches rt req props "tools/call" Hm Hp Hbody Hj Hmethod)
    by discriminate.
  rewrite Hkey.
  rewrite (handleMCPRequest_tools_call rt
             (mkRequest "2.0" (value_of props "id") "tools/call" (value_of props "params"))
             None key eq_refl Hname).
  destruct (registered_handler key Hr) as [h Hh].
  unfold dispatch_tool. rewrite Hh. reflexivity.
Qed.

Lemma mcp_unauthenticated_witness :
  serve_fetch (serving (JObj [("jsonrpc", JStr "2.0"); ("id", JInt 2);
                              ("method", JStr "tools/call");
                              ("params", JObj [("name", JStr "searchLocations")])]))
    (mkHttpRequest "POST" "/mcp" (Some "Basic abc") "{}")
  = ret (json_response
           (serving (JObj [("jsonrpc", JStr "2.0"); ("id", JInt 2);
                           ("method", JStr "tools/call");
                           ("params", JObj [("name", JStr "searchLocations")])]))
           200
           (api_key_required
              (value_of [("jsonrpc", JStr "2.0"); ("id", JInt 2);
                         ("method", JStr "tools/call");
                         ("params", JObj [("name", JStr "searchLocations")])] "id")))
  /\ error_code
       (api_key_required
          (value_of [("jsonrpc", JStr "2.0"); ("id", JInt 2);
                     ("method", JStr "tools/call");
                     ("params", JObj [("name", JStr "searchLocations")])] "id"))
     = Some (-32001).
Proof.
  apply (mcp_unauthenticated
           (serving (JObj [("jsonrpc", JStr "2.0"); ("id", JInt 2);
                           ("method", JStr "tools/call");
                           ("params", JObj [("name", JStr "searchLocations")])]))
           (mkHttpRequest "POST" "/mcp" (Some "Basic abc") "{}")
           [("jsonrpc", JStr "2.0"); ("id", JInt 2); ("method", JStr "tools/call");
            ("params", JObj [("name", JStr "searchLocations")])]
           "searchLocations"); reflexivity.
Defined.

(** The wire form of an error answer. *)
Example parse_error_on_the_wire :
  http_payload (json_response offline 400 parse_error)
  = Some ("{" ++ dquote ++ "jsonrpc" ++ dquote ++ ":" ++ dquote ++ "2.0" ++ dquote ++ ","
          ++ dquote ++ "id" ++ dquote ++ ":" ++ dquote ++ "unknown" ++ dquote ++ ","
          ++ dquote ++ "error" ++ dquote ++ ":{"
          ++ dquote ++ "code" ++ dquote ++ ":-32700,"
          ++ dquote ++ "message" ++ dquote ++ ":" ++ dquote
          ++ "Invalid JSON in request body" ++ dquote ++ ","
          ++ dquote ++ "data" ++ dquote ++ ":{" ++ dquote ++ "hint" ++ dquote ++ ":"
          ++ dquote ++ "Make sure your request body is valid JSON" ++ dquote
          ++ "}}}")%string.
Proof. reflexivity. Qed.

(** ** The validation contract *)

Lemma check_number_path (p p' : list string) (q : Q) (c : NumCheck) :
  check_number p q c = [] <-> check_number p' q c = [].
Proof.
  destruct c; cbn;
    match goal with
    | |- context [if ?b then _ else _] => destruct b
    end; split; try reflexivity; discriminate.
Qed.

Lemma flat_map_nil {A B : Type} (f : A -> list B) (l : list A) :
  flat_map f l = [] <-> Forall (fun x => f x = []) l.
Proof.
  induction l as [| x rest IH]; cbn.
  - split; auto.
  - split.
    + intros H. apply app_eq_nil in H. destruct H as [Hx Hr].
      constructor; [exact Hx | apply IH; exact Hr].
    + intros H. inversion H; subst. rewrite H2. apply IH. assumption.
Qed.

(** Whether a field accepts a value does not depend on the path. *)
Lemma zod_check_accepts (t : ZodType) (path : list string) (v : JSValue) :
  (exists x, zod_check t path v = inr x) <-> accepts t v = true.
Proof.
  unfold accepts. revert v. induction t as [| checks | inner IH | inner IH d]; intros v.
  - cbn. destruct v; split; intros H; try discriminate; try reflexivity; eauto;
      destruct H; discriminate.
  - cbn. destruct v as [| | b | [| neg | q] | s | items | props];
      try (split; intros H; [destruct H; discriminate | discriminate]).
    destruct (flat_map (check_number path q) checks) as [| i1 rest1] eqn:E1;
      destruct (flat_map (check_number [] q) checks) as [| i2 rest2] eqn:E2;
      try (split; intros; eauto; reflexivity).
    + exfalso. apply flat_map_nil in E1.
      assert (H : flat_map (check_number [] q) checks = []).
      { apply flat_map_nil. eapply Forall_impl; [| exact E1].
        intros c Hc. apply (check_number_path path []). exact Hc. }
      congruence.
    + exfalso. apply flat_map_nil in E2.
      assert (H : flat_map (check_number path q) checks = []).
      { apply flat_map_nil. eapply Forall_impl; [| exact E2].
        intros c Hc. apply (check_number_path [] path). exact Hc. }
      congruence.
    + split; intros H; [destruct H; discriminate | discriminate].
  - cbn. destruct v; try apply IH. split; eauto.
  - cbn. destruct v; try apply IH. split; eauto.
Qed.

(** No issue is raised exactly when every field accepts its property. *)
Lemma zod_fields_accepts_iff (shape : ZodObject) (props : list (string * JSValue)) :
  fst (zod_fields shape props) = []
  <-> forallb (fun f => accepts (snd f) (value_of props (fst f))) shape = true.
Proof.
  induction shape as [| [k t] rest IH]; cbn [zod_fields forallb fst snd].
  - split; reflexivity.
  - destruct (zod_fields rest props) as [issues out]. cbn [fst] in IH.
    destruct (zod_check t [k] (value_of props k)) as [i | x] eqn:Hcheck.
    + assert (Hacc : accepts t (value_of props k) = false).
      { destruct (accepts t (value_of props k)) eqn:E; [| reflexivity].
        apply (zod_check_accepts t [k]) in E. destruct E as [x Hx]. congruence. }
      rewrite Hacc. cbn. split; [| discriminate].
      intros H. apply app_eq_nil in H. destruct H as [Hi _].
      exfalso. exact (zod_check_issues_nonempty t [k] _ i Hcheck Hi).
    + assert (Hacc : accepts t (value_of props k) = true)
        by (apply (zod_check_accepts t [k]); eauto).
      rewrite Hacc. cbn [andb].
      destruct x; cbn [fst]; exact IH.
Qed.

Lemma parse_accepts_iff (schema : ZodObject) (props : list (string * JSValue)) :
  (exists out, parse schema (JObj props) = ret out)
  <-> forallb (fun f => accepts (snd f) (value_of props (fst f))) schema = true.
Proof.
  rewrite <- zod_fields_accepts_iff. unfold parse.
  destruct (zod_fields schema props) as [[| i issues] out]; cbn [fst].
  - split; eauto.
  - split; [intros [o H]; discriminate | discriminate].
Qed.

Lemma rejected_parse (key : string) (args : JSValue) :
  rejected key args = false <-> exists out, validation key args = ret out.
Proof.
  unfold rejected.
  destruct (validation_cases key args) as [(out & H) | (issues & H)]; rewrite H;
    cbn [outcome snd ret throw].
  - split; eauto.
  - split; [discriminate | intros [o Ho]; discriminate].
Qed.

(** X26. The arguments each tool accepts. [getCurrentWeather] accepts
    exactly the objects whose [location] is a string and whose [language]
    is a string or missing; [searchLocations] exactly the objects whose
    [query] is a string; [getWeatherForecast] exactly the arguments whose
    [location] is a string, whose [language] is a string or missing and
    whose [days] is missing or an integer from 1 to 3 (a [days] that is
    null, a string, a fraction or out of range is turned down, not
    replaced by the default). Other properties never matter. *)
Theorem accepted_arguments (args : JSValue) :
  (rejected "getCurrentWeather" args = false
   <-> exists props, args = JObj props
                     /\ a_string (value_of props "location") = true
                     /\ a_string_or_nothing (value_of props "language") = true)
  /\ (rejected "searchLocations" args = false
      <-> exists props, args = JObj props /\ a_string (value_of props "query") = true)
  /\ (rejected "getWeatherForecast" args = false
      <-> a_string (value_of (own_enumerable args) "location") = true
          /\ a_string_or_nothing (value_of (own_enumerable args) "language") = true
          /\ days_or_nothing (value_of (own_enumerable args) "days") = true).
Proof.
  assert (Hstr : forall v, accepts ZString v = a_string v) by (intros v; destruct v; reflexivity).
  assert (Hopt : forall v, accepts (ZOptional ZString) v = a_string_or_nothing v)
    by (intros v; destruct v; reflexivity).
  assert (Hdays : forall v, accepts (ZDefault (ZNumber [CInt; CMin 1; CMax 3]) (JInt 3)) v
                            = days_or_nothing v).
  { intros v. destruct v as [| | b | [| neg | q] | s | items | props]; try reflexivity.
    unfold accepts, days_or_nothing. cbn [zod_check flat_map check_number].
    change (inject_Z 1) with (1 : Q). change (inject_Z 3) with (3 : Q).
    destruct (integral q), (Qle_bool 1 q), (Qle_bool q 3); reflexivity. }
  repeat match goal with |- _ /\ _ => split end.
  - rewrite rejected_parse. unfold validation. cbn [String.eqb Ascii.eqb Bool.eqb]. cbn match.
    split.
    + intros [out H]. destruct args as [| | b | n | s | items | props]; try discriminate H.
      exists props. split; [reflexivity |].
      assert (Hacc := proj1 (parse_accepts_iff getCurrentWeatherSchema props)
                        (ex_intro _ out H)).
      cbn [forallb getCurrentWeatherSchema fst snd] in Hacc.
      rewrite Hstr, Hopt, andb_true_r in Hacc. apply andb_true_iff in Hacc. exact Hacc.
    + intros (props & -> & Hl & Hg).
      apply parse_accepts_iff. cbn [forallb getCurrentWeatherSchema fst snd].
      rewrite Hstr, Hopt, Hl, Hg. reflexivity.
  - rewrite rejected_parse. unfold validation. cbn [String.eqb Ascii.eqb Bool.eqb]. cbn match.
    split.
    + intros [out H]. destruct args as [| | b | n | s | items | props]; try discriminate H.
      exists props. split; [reflexivity |].
      assert (Hacc := proj1 (parse_accepts_iff searchLocationsSchema props)
                        (ex_intro _ out H)).
      cbn [forallb searchLocationsSchema fst snd] in Hacc.
      rewrite Hstr, andb_true_r in Hacc. exact Hacc.
    + intros (props & -> & Hq).
      apply parse_accepts_iff. cbn [forallb searchLocationsSchema fst snd].
      rewrite Hstr, Hq. reflexivity.
  - rewrite rejected_parse. unfold validation. cbn [String.eqb Ascii.eqb Bool.eqb]. cbn match.
    unfold inputWithDefaults. rewrite parse_accepts_iff.
    cbn [forallb getWeatherForecastSchema fst snd].
    rewrite Hstr, Hopt, Hdays, andb_true_r.
    assert (Hv : forall k, (k =? "days")%string = false ->
                   value_of (spread [("days", JInt 3)] args) k
                   = value_of (own_enumerable args) k).
    { intros k Hk. unfold value_of. rewrite own_prop_spread. cbn [own_prop].
      rewrite String.eqb_sym, Hk. destruct (own_prop (own_enumerable args) k); reflexivity. }
    rewrite (Hv "location" eq_refl), (Hv "language" eq_refl).
    assert (Hd : days_or_nothing (value_of (spread [("days", JInt 3)] args) "days")
                 = days_or_nothing (value_of (own_enumerable args) "days")).
    { unfold value_of. rewrite own_prop_spread. cbn [own_prop String.eqb Ascii.eqb Bool.eqb].
      destruct (own_prop (own_enumerable args) "days"); reflexivity. }
    rewrite Hd, !andb_true_iff. tauto.
Qed.

(** X27. The explanation of a bad request. For an upstream status 400 the
    detail of the error answered is the upstream's own [error.message]
    when the parsed body has a non-empty one, and the message of the
    error (the raw body after [WeatherAPI request failed: ]) when the body
    has no [error]. *)
Theorem bad_request_detail (rt : Runtime) (id : JSValue) (e : WeatherAPIError)
    (props : list (string * JSValue)) :
  status e = 400 ->
  body e = JObj props ->
  (forall eprops m,
     own_prop props "error" = Some (JObj eprops) ->
     own_prop eprops "message" = Some (JStr m) ->
     m <> EmptyString ->
     error_data (tool_failure rt id (EWeatherAPI e)) "detail" = Some (JStr m))
  /\ (own_prop props "error" = None ->
      error_data (tool_failure rt id (EWeatherAPI e)) "detail" = Some (JStr (wmessage e))).
Proof.
  intros Hs Hb. cbn [tool_failure]. unfold mapWeatherAPIErrorToJSONRPC.
  rewrite Hs, Hb. cbn [Z.eqb Pos.eqb]. cbn match. cbn [code message data].
  assert (Hdetail : forall d,
            error_data
              (createErrorResponse id JSON_RPC_ERRORS.INVALID_PARAMS
                 "Invalid request parameters" (status_detail e d)) "detail" = Some d)
    by reflexivity.
  rewrite Hdetail. unfold optional_get. cbn [Get]. split.
  - intros eprops m He Hm Hne. rewrite He. cbn [Get]. rewrite Hm.
    unfold js_or. cbn [truthy]. apply String.eqb_neq in Hne. rewrite Hne. reflexivity.
  - intros He. rewrite He. reflexivity.
Qed.

Lemma bad_request_detail_witness :
  (forall eprops m,
     own_prop [("error", JObj [("code", JInt 1006); ("message", JStr "No matching location found.")])]
       "error" = Some (JObj eprops) ->
     own_prop eprops "message" = Some (JStr m) ->
     m <> EmptyString ->
     error_data
       (tool_failure offline (JInt 1)
          (EWeatherAPI
             (mkWeatherAPIError 400 "Bad Request"
                (JObj [("error", JObj [("code", JInt 1006);
                                       ("message", JStr "No matching location found.")])])
                "WeatherAPI request failed: raw")))
       "detail" = Some (JStr m))
  /\ (own_prop [("error", JObj [("code", JInt 1006); ("message", JStr "No matching location found.")])]
        "error" = None ->
      error_data
        (tool_failure offline (JInt 1)
           (EWeatherAPI
              (mkWeatherAPIError 400 "Bad Request"
                 (JObj [("error", JObj [("code", JInt 1006);
                                        ("message", JStr "No matching location found.")])])
                 "WeatherAPI request failed: raw")))
        "detail"
      = Some (JStr (wmessage
                      (mkWeatherAPIError 400 "Bad Request"
                         (JObj [("error", JObj [("code", JInt 1006);
                                                ("message", JStr "No matching location found.")])])
                         "WeatherAPI request failed: raw")))).
Proof.
  apply (bad_request_detail offline (JInt 1)
           (mkWeatherAPIError 400 "Bad Request"
              (JObj [("error", JObj [("code", JInt 1006);
                                     ("message", JStr "No matching location found.")])])
              "WeatherAPI request failed: raw")
           [("error", JObj [("code", JInt 1006);
                            ("message", JStr "No matching location found.")])]);
    reflexivity.
Defined.

(** X28. The summary of the current weather. For every payload of the
    shape the upstream sends, the first entry of the result is the
    sentence of the template filled with the fields of the payload,
    numbers in their JavaScript text form, and the second entry is the
    payload serialized. *)
Theorem getCurrentWeather_summary (rt : Runtime) (apiKey : string)
    (props : list (string * JSValue)) (location : string) (language : option string)
    (r : Response) (name country condition : string)
    (temp_c temp_f feelslike_c humidity wind_kph : JSNumber) (wind_dir : string) :
  own_prop props "location" = Some (JStr location) ->
  own_prop props "language" = option_map JStr language ->
  fetch rt (mkURL (WEATHER_API_BASE ++ "/current.json")
              (("key", apiKey) :: ("q", location)
               :: match language with Some l => [("lang", l)] | None => [] end))
    = Responded r ->
  ok r = true ->
  JSON_parse rt (rtext r)
    = Some (current_payload name country condition temp_c temp_f feelslike_c humidity
              wind_kph wind_dir) ->
  outcome (getCurrentWeather rt apiKey (JObj props))
  = inr (tool_result rt
           (current_summary rt name country condition temp_c temp_f feelslike_c humidity
              wind_kph wind_dir)
           (current_payload name country condition temp_c temp_f feelslike_c humidity
              wind_kph wind_dir)).
Proof.
  intros Hloc Hlang Hfetch Hok Hjson. unfold getCurrentWeather.
  assert (Hparse : parse getCurrentWeatherSchema (JObj props)
                   = ret (JObj (("location", JStr location)
                                :: match language with
                                   | Some l => [("language", JStr l)]
                                   | None => []
                                   end))).
  { unfold parse. cbn [zod_fields getCurrentWeatherSchema]. unfold value_of, has_own.
    rewrite Hloc, Hlang. destruct language; reflexivity. }
  rewrite Hparse, bind_ret, getCurrentWeatherData_eq.
  replace (value_of _ "location") with (JStr location) by reflexivity.
  assert (Hcall : forall lang : JSValue,
            lang = match language with Some l => JStr l | None => JUndefined end ->
            callWeatherAPI rt "/current.json" apiKey [("q", JStr location); ("lang", lang)]
            = ([mkURL (WEATHER_API_BASE ++ "/current.json")
                  (("key", apiKey) :: ("q", location)
                   :: match language with Some l => [("lang", l)] | None => [] end)],
               inr (current_payload name country condition temp_c temp_f feelslike_c
                      humidity wind_kph wind_dir))).
  { intros lang ->.
    rewrite (callWeatherAPI_ok rt "/current.json" apiKey _
               (mkURL (WEATHER_API_BASE ++ "/current.json")
                  (("key", apiKey) :: ("q", location)
                   :: match language with Some l => [("lang", l)] | None => [] end))
               r); try assumption.
    - rewrite Hjson. reflexivity.
    - rewrite add_params_query.
      + destruct language; reflexivity.
      + repeat constructor; cbn; intuition discriminate.
      + intros k Hk. unfold url_set. cbn [searchParams searchParams_set param].
        destruct ("key" =? k)%string eqn:E; [| reflexivity].
        apply String.eqb_eq in E. subst k. cbn in Hk. intuition discriminate.
      + destruct language; reflexivity. }
  rewrite (Hcall _) by (destruct language; reflexivity).
  rewrite outcome_bind. cbn [outcome snd]. reflexivity.
Qed.

Lemma getCurrentWeather_summary_witness :
  outcome (getCurrentWeather
             (serving (current_payload "Lima" "Peru" "Mist" (Finite (inject_Z 18))
                         (Finite (inject_Z 64)) (Finite (inject_Z 18))
                         (Finite (inject_Z 88)) (Finite (inject_Z 9)) "SSW"))
             "secret" (JObj [("location", JStr "Lima")]))
  = inr (tool_result
           (serving (current_payload "Lima" "Peru" "Mist" (Finite (inject_Z 18))
                       (Finite (inject_Z 64)) (Finite (inject_Z 18))
                       (Finite (inject_Z 88)) (Finite (inject_Z 9)) "SSW"))
           (current_summary
              (serving (current_payload "Lima" "Peru" "Mist" (Finite (inject_Z 18))
                          (Finite (inject_Z 64)) (Finite (inject_Z 18))
                          (Finite (inject_Z 88)) (Finite (inject_Z 9)) "SSW"))
              "Lima" "Peru" "Mist" (Finite (inject_Z 18)) (Finite (inject_Z 64))
              (Finite (inject_Z 18)) (Finite (inject_Z 88)) (Finite (inject_Z 9)) "SSW")
           (current_payload "Lima" "Peru" "Mist" (Finite (inject_Z 18))
              (Finite (inject_Z 64)) (Finite (inject_Z 18)) (Finite (inject_Z 88))
              (Finite (inject_Z 9)) "SSW")).
Proof.
  apply (getCurrentWeather_summary
           (serving (current_payload "Lima" "Peru" "Mist" (Finite (inject_Z 18))
                       (Finite (inject_Z 64)) (Finite (inject_Z 18))
                       (Finite (inject_Z 88)) (Finite (inject_Z 9)) "SSW"))
           "secret" [("location", JStr "Lima")] "Lima" None
           (mkResponse 200 "OK" "payload")); reflexivity.
Defined.
